(** * TeachableMachinePro: the training and inference hook, verified

    A shallow embedding of the transfer-learning core of the application:

    - [client/src/types/ml-types.ts]      the data model;
    - [client/src/lib/ml-utils.ts]        [loadMobileNet], [preprocessImage],
                                          [createTransferModel], [trainModel],
                                          [predict], [resizeImage];
    - the [useTensorFlow] hook            [initTensorFlow], [loadBaseModel],
                                          [createModel], [startTraining],
                                          [makePrediction], [exportModel];
    - the [ClassManager] component        the class-list editing operations
                                          and [handleFileUpload];
    - the [TeachableMachine] page         its effects, [handleStartTraining],
                                          [handlePredict], [handleExportModel];
    - the [PredictionDisplay] component   [getClassColor], [topPrediction];
    - the [useWebcam] hook                [startWebcam], [stopWebcam].

    Conventions.  A JavaScript number that holds a measurement (a loss, a
    probability, a pixel intensity) is a rational of [Q]: every finite
    binary64 value is one, and products and quotients are taken exactly (the
    rounding of the last bit and NaN are outside the model; [resizeImage],
    where the last bit decides the size of the canvas, takes the rounding
    as a parameter).  Counters and
    indices are [nat], clock readings are [Z] milliseconds.  TensorFlow.js is
    an external library: its kernels appear as parameters, or as an
    environment record that fixes how each external call of one run behaves
    (whether it throws, which epochs [fit] reports).  The page is given
    twice: [step] takes every call to its end within the event that makes
    it, and a [Session] lets the calls of [startTraining] take their turns,
    one [await] at a time, between the events. *)

From Stdlib Require Import List String Ascii Bool Arith ZArith QArith Qabs Qround
  Qpower Lia Lqa.
From Stdlib Require Import Sorted Permutation Strings.Byte DecimalString.
Import ListNotations.

Open Scope string_scope.
Open Scope nat_scope.

(* ================================================================== *)
(** * Data model ([ml-types.ts]) *)
(* ================================================================== *)

(** [ImageSample]: the pixel data and the blob are only carried around by the
    code modelled here; training reads the sample through its object URL. *)
Record ImageSample := {
  sample_id : string;
  url : string
}.

Record TrainingClass := {
  id : string;
  name : string;
  color : string;
  samples : list ImageSample
}.

Record TrainingProgress := {
  epoch : nat;
  totalEpochs : nat;
  accuracy : Q;
  loss : Q;
  samplesProcessed : nat;
  timeElapsed : Z
}.

Record Prediction := {
  className : string;
  confidence : Q;
  classIndex : nat
}.

Inductive TrainingStatus := st_idle | st_training | st_completed | st_error.

(** A loaded [tf.LayersModel] used as base model: the names of its layers, in
    order. *)
Record BaseModel := {
  layers : list string
}.

(** Where [createTransferModel] cuts the base model. *)
Inductive FeatureExtractor :=
| CutAt (layerName : string)      (* outputs of the layer of that name *)
| CutAtLayer (index : nat)        (* outputs of [layers[index]] *)
| FullModel.                      (* the base model itself *)

(** The model returned by [createTransferModel]:
    input 224x224x3 -> frozen extractor -> dropout -> dense softmax. *)
Record Head := {
  head_base : BaseModel;
  head_extractor : FeatureExtractor;
  head_dropout : Q;
  head_units : nat;
  head_activation : string       (* the activation of the dense layer *)
}.

Record MLModel := {
  model : option Head;
  isReady : bool;
  baseModel : option BaseModel
}.

(** One entry of the [trainingHistory] state. *)
Record HistoryEntry := {
  h_epoch : nat;
  h_loss : Q;
  h_accuracy : Q
}.

(** The React state of [useTensorFlow]. *)
Record HookState := {
  isInitialized : bool;
  mlmodel : MLModel;                       (* the state variable [model] *)
  trainingStatus : TrainingStatus;
  trainingProgress : option TrainingProgress;
  trainingHistory : list HistoryEntry;
  error : option string
}.

(* ================================================================== *)
(** * The TensorFlow.js engine as far as the hook sees it *)
(* ================================================================== *)

(** The library calls that allocate a tensor. *)
Inductive TensorOp :=
| FromPixels | ResizeBilinear | Cast | Div | Stack | Tensor1d | OneHot.

Definition TensorOp_eqb (a b : TensorOp) : bool :=
  match a, b with
  | FromPixels, FromPixels | ResizeBilinear, ResizeBilinear | Cast, Cast
  | Div, Div | Stack, Stack | Tensor1d, Tensor1d | OneHot, OneHot => true
  | _, _ => false
  end.

(** A tensor held by the engine: its handle and the call that produced it. *)
Record TensorInfo := {
  tid : nat;
  producer : TensorOp
}.

(** The world one session runs in: the hook's state, the tensors made by
    the calls of [TensorOp] that are not disposed, the next free tensor
    handle, the wall clock
    ([Date.now()]), and the sequence of values passed to
    [setTrainingProgress] so far (what an observer of the hook has seen). *)
Record World := {
  hook : HookState;
  live : list TensorInfo;
  next_tid : nat;
  clock : Z;
  progress_stream : list TrainingProgress
}.

Definition with_hook (f : HookState -> HookState) (w : World) : World :=
  {| hook := f (hook w); live := live w; next_tid := next_tid w;
     clock := clock w; progress_stream := progress_stream w |}.

Definition live_of (op : TensorOp) (w : World) : list nat :=
  map tid (filter (fun i => TensorOp_eqb (producer i) op) (live w)).

(* ================================================================== *)
(** * Asynchronous procedures *)
(* ================================================================== *)

(** An [async] function is a tree of atomic actions on the world, cut in
    turns by its [await]s.  [Raise] is a thrown exception (the handlers of
    this code never inspect it), [Hang] an [await] on a promise that never
    settles. *)
Inductive Proc (A : Type) : Type :=
| Ret (a : A)
| Raise
| Hang
| Await (k : Proc A)
| Act (B : Type) (f : World -> B * World) (k : B -> Proc A).

Arguments Ret {A} a.
Arguments Raise {A}.
Arguments Hang {A}.
Arguments Await {A} k.
Arguments Act {A B} f k.

Fixpoint bind {A B} (p : Proc A) (g : A -> Proc B) : Proc B :=
  match p with
  | Ret a => g a
  | Raise => Raise
  | Hang => Hang
  | Await k => Await (bind k g)
  | Act f k => Act f (fun b => bind (k b) g)
  end.

(** [try { p } catch { h }] *)
Fixpoint try_catch {A} (p : Proc A) (h : Proc A) : Proc A :=
  match p with
  | Ret a => Ret a
  | Raise => h
  | Hang => Hang
  | Await k => Await (try_catch k h)
  | Act f k => Act f (fun b => try_catch (k b) h)
  end.

Declare Scope proc_scope.
Delimit Scope proc_scope with proc.
Notation "x <- p ;; q" := (bind p (fun x => q))
  (at level 61, p at next level, right associativity) : proc_scope.
Notation "p ;; q" := (bind p (fun _ => q))
  (at level 61, right associativity) : proc_scope.
Open Scope proc_scope.

Definition act {B} (f : World -> B * World) : Proc B := Act f Ret.
Definition modify (f : World -> World) : Proc unit := act (fun w => (tt, f w)).
Definition await : Proc unit := Await (Ret tt).

Fixpoint forM {A B} (l : list A) (f : A -> Proc B) : Proc (list B) :=
  match l with
  | [] => Ret []
  | x :: l' => y <- f x ;; ys <- forM l' f ;; Ret (y :: ys)
  end.

Fixpoint forM_ {A} (l : list A) (f : A -> Proc unit) : Proc unit :=
  match l with
  | [] => Ret tt
  | x :: l' => f x ;; forM_ l' f
  end.

(** How a procedure ends. *)
Inductive Outcome (A : Type) :=
| Done (a : A)
| Thrown
| Hung.
Arguments Done {A} a.
Arguments Thrown {A}.
Arguments Hung {A}.

(** [run p w]: the procedure alone in the world, from start to end. *)
Fixpoint run {A} (p : Proc A) (w : World) : Outcome A * World :=
  match p with
  | Ret a => (Done a, w)
  | Raise => (Thrown, w)
  | Hang => (Hung, w)
  | Await k => run k w
  | Act f k => let (b, w') := f w in run (k b) w'
  end.

(** One turn: everything up to the next [await]. *)
Inductive Turn (A : Type) :=
| Finished (o : Outcome A)
| Suspended (k : Proc A).
Arguments Finished {A} o.
Arguments Suspended {A} k.

Fixpoint turn {A} (p : Proc A) (w : World) : Turn A * World :=
  match p with
  | Ret a => (Finished (Done a), w)
  | Raise => (Finished Thrown, w)
  | Hang => (Finished Hung, w)
  | Await k => (Suspended k, w)
  | Act f k => let (b, w') := f w in turn (k b) w'
  end.

(** [turns n p w]: the first [n] turns of [p]. *)
Fixpoint turns {A} (n : nat) (p : Proc A) (w : World) : Turn A * World :=
  match n with
  | O => (Suspended p, w)
  | S n' =>
      match turn p w with
      | (Suspended k, w') => turns n' k w'
      | r => r
      end
  end.

Definition resume {A} (t : Turn A) (w : World) : Turn A * World :=
  match t with
  | Suspended k => turn k w
  | Finished o => (Finished o, w)
  end.

(** [interleave order a b w]: the two procedures take turns in the given
    order ([false]: the first one, [true]: the second one). *)
Fixpoint interleave {A} (order : list bool) (a b : Turn A) (w : World)
  : Turn A * Turn A * World :=
  match order with
  | [] => (a, b, w)
  | false :: rest => let (a', w') := resume a w in interleave rest a' b w'
  | true :: rest => let (b', w') := resume b w in interleave rest a b' w'
  end.

(* ================================================================== *)
(** * What the outside does during one operation *)
(* ================================================================== *)

(** [logs] of an [onEpochEnd] callback of [model.fit]; [logs.acc] may be
    [undefined]. *)
Record Logs := {
  logs_loss : Q;
  logs_acc : option Q
}.

(** One [onEpochEnd] call made by [model.fit], and the clock when it is
    made. *)
Record FitEvent := {
  fe_epoch : nat;
  fe_logs : option Logs;
  fe_now : Z
}.

Inductive LoadResult :=
| Loaded (b : BaseModel)      (* [loadMobileNet] resolves to a model *)
| LoadedNothing               (* ... to a falsy value *)
| LoadThrows.                 (* ... or rejects *)

(** The behaviour of the browser and of TensorFlow.js during one operation
    of the hook. *)
Record Env := {
  (* the time at which the image at a URL fires [onload], if it ever does *)
  img_loads : string -> option Z;
  (* the tensor-producing calls that throw *)
  tf_throws : TensorOp -> bool;
  (* the [onEpochEnd] calls [model.fit] makes, in order, when it is asked
     for the given number of epochs *)
  fit_trace : nat -> list FitEvent;
  (* whether [model.compile]/[model.fit] resolve, after those calls *)
  fit_ok : bool;
  (* whether assembling the layers of a new head throws *)
  layers_throw : bool;
  load_result : LoadResult;
  (* whether [model.save] resolves *)
  save_ok : bool
}.

(* ================================================================== *)
(** * State setters of the hook *)
(* ================================================================== *)

Definition setModel (f : MLModel -> MLModel) : Proc unit :=
  modify (with_hook (fun h =>
    {| isInitialized := isInitialized h; mlmodel := f (mlmodel h);
       trainingStatus := trainingStatus h;
       trainingProgress := trainingProgress h;
       trainingHistory := trainingHistory h; error := error h |})).

Definition setTrainingStatus (s : TrainingStatus) : Proc unit :=
  modify (with_hook (fun h =>
    {| isInitialized := isInitialized h; mlmodel := mlmodel h;
       trainingStatus := s;
       trainingProgress := trainingProgress h;
       trainingHistory := trainingHistory h; error := error h |})).

(** [setTrainingProgress] also leaves the value in the progress stream. *)
Definition setTrainingProgress (p : TrainingProgress) : Proc unit :=
  modify (fun w =>
    {| hook :=
         {| isInitialized := isInitialized (hook w); mlmodel := mlmodel (hook w);
            trainingStatus := trainingStatus (hook w);
            trainingProgress := Some p;
            trainingHistory := trainingHistory (hook w);
            error := error (hook w) |};
       live := live w; next_tid := next_tid w; clock := clock w;
       progress_stream := progress_stream w ++ [p] |}).

Definition setTrainingHistory
    (f : list HistoryEntry -> list HistoryEntry) : Proc unit :=
  modify (with_hook (fun h =>
    {| isInitialized := isInitialized h; mlmodel := mlmodel h;
       trainingStatus := trainingStatus h;
       trainingProgress := trainingProgress h;
       trainingHistory := f (trainingHistory h); error := error h |})).

Definition setError (e : option string) : Proc unit :=
  modify (with_hook (fun h =>
    {| isInitialized := isInitialized h; mlmodel := mlmodel h;
       trainingStatus := trainingStatus h;
       trainingProgress := trainingProgress h;
       trainingHistory := trainingHistory h; error := e |})).

Definition clearError : Proc unit := setError None.

(* ================================================================== *)
(** * Tensors: allocation, [dispose], [tf.tidy] *)
(* ================================================================== *)

(** The engine registers a fresh tensor made by [op]. *)
Definition allocate (op : TensorOp) (w : World) : nat * World :=
  (next_tid w,
   {| hook := hook w;
      live := live w ++ [{| tid := next_tid w; producer := op |}];
      next_tid := S (next_tid w); clock := clock w;
      progress_stream := progress_stream w |}).

(** A tensor-producing call: throws if the environment says so, and
    otherwise returns the handle of a fresh tensor. *)
Definition tf (env : Env) (op : TensorOp) : Proc nat :=
  if tf_throws env op then Raise else act (allocate op).

Definition dispose (t : nat) : Proc unit :=
  modify (fun w =>
    {| hook := hook w;
       live := filter (fun i => negb (tid i =? t)) (live w);
       next_tid := next_tid w; clock := clock w;
       progress_stream := progress_stream w |}).

(** End of a [tidy] scope opened when [scope] was the next handle: every
    tensor made since is disposed, [keep] apart. *)
Definition endScope (scope : nat) (keep : option nat) : Proc unit :=
  modify (fun w =>
    {| hook := hook w;
       live := filter (fun i =>
                 (tid i <? scope) ||
                 match keep with Some r => tid i =? r | None => false end)
               (live w);
       next_tid := next_tid w; clock := clock w;
       progress_stream := progress_stream w |}).

(** [tf.tidy(() => body)]: the scope is closed on return and on throw. *)
Definition tidy (body : Proc nat) : Proc nat :=
  scope <- act (fun w => (next_tid w, w)) ;;
  r <- try_catch body (endScope scope None ;; Raise) ;;
  endScope scope (Some r) ;;
  Ret r.

Definition Date_now : Proc Z := act (fun w => (clock w, w)).

Definition setClock (t : Z) : Proc unit :=
  modify (fun w =>
    {| hook := hook w; live := live w; next_tid := next_tid w; clock := t;
       progress_stream := progress_stream w |}).

(* ================================================================== *)
(** * [ml-utils.ts] *)
(* ================================================================== *)

(** [s.includes(sub)] *)
Definition includes (s sub : string) : bool :=
  match String.index 0 sub s with Some _ => true | None => false end.

(** The feature extractor chosen by [createTransferModel]: the first layer
    whose name includes one of three patterns; without one, the second-last
    layer; and the whole base model when that throws (fewer than two
    layers). *)
Definition featureExtractor (b : BaseModel) : FeatureExtractor :=
  match find (fun l => includes l "global_average_pooling"
                       || includes l "flatten"
                       || includes l "dense") (layers b) with
  | Some layerName => CutAt layerName
  | None =>
      if 2 <=? List.length (layers b) then CutAtLayer (List.length (layers b) - 2)
      else FullModel
  end.

(** [createTransferModel(baseModel, numClasses)] *)
Definition createTransferModel (env : Env) (b : BaseModel) (numClasses : nat)
  : Proc Head :=
  let extractor := featureExtractor b in
  if layers_throw env then Raise
  else Ret {| head_base := b; head_extractor := extractor;
              head_dropout := 2 # 10; head_units := numClasses;
              head_activation := "softmax" |}.

(** [model.fit(xs, ys, {epochs, batchSize: 16, validationSplit: 0.2,
    shuffle: true, callbacks: {onEpochEnd}})] as the hook sees it: between
    suspensions the library calls [onEpochEnd], and in the end the promise
    resolves or rejects. *)
Definition fit (env : Env) (epochs : nat)
    (onEpochEnd : nat -> option Logs -> Proc unit) : Proc unit :=
  forM_ (fit_trace env epochs) (fun ev =>
    await ;; setClock (fe_now ev) ;; onEpochEnd (fe_epoch ev) (fe_logs ev)) ;;
  await ;;
  if fit_ok env then Ret tt else Raise.

(** [trainModel(model, {xs, ys}, epochs, onEpochEnd)]: the number of epochs
    is handed on to [model.fit].  The Adam optimizer made for the call and
    [model.compile] touch the state of the hook and the tensors of
    [TensorOp] in no way; the variables the engine keeps for them (weights,
    optimizer state) are its own, and are not among the tensors of the
    world. *)
Definition trainModel (env : Env) (m : Head) (xs ys : nat) (epochs : nat)
    (onEpochEnd : option (nat -> Q -> option Q -> Proc unit)) : Proc unit :=
  fit env epochs (fun epoch logs =>
    match onEpochEnd, logs with
    | Some cb, Some l => cb epoch (logs_loss l) (logs_acc l)
    | _, _ => Ret tt
    end).

(** A tensor value: its shape and its entries in row-major order. *)
Record Tensor := {
  shape : list nat;
  data : list Q
}.

(** A decoded image, video frame or canvas: RGBA bytes, row by row. *)
Record Pixel := {
  red : byte;
  green : byte;
  blue : byte;
  alpha : byte
}.

Record ImageElement := {
  img_width : nat;
  img_height : nat;
  pixels : list Pixel
}.

(** The two kernels of TensorFlow.js the inference path relies on:
    [tf.image.resizeBilinear(t, [h, w])], and the forward pass
    [model.predict(x)] followed by [data()], which may throw. *)
Record Kernels := {
  resizeBilinear : Tensor -> nat -> nat -> Tensor;
  layersPredict : Head -> Tensor -> option (list Q)
}.

Definition byteQ (b : byte) : Q := inject_Z (Z.of_N (Byte.to_N b)).

(** [tf.browser.fromPixels(img)]: three channels, the alpha byte dropped. *)
Definition fromPixels (img : ImageElement) : Tensor :=
  {| shape := [img_height img; img_width img; 3];
     data := flat_map (fun p => [byteQ (red p); byteQ (green p); byteQ (blue p)])
                      (pixels img) |}.

(** [t.cast('float32')]: the entries keep their value. *)
Definition cast_float32 (t : Tensor) : Tensor := t.

(** [t.div(c)] *)
Definition div (t : Tensor) (c : Q) : Tensor :=
  {| shape := shape t; data := map (fun v => (v / c)%Q) (data t) |}.

(** [t.expandDims(0)] *)
Definition expandDims0 (t : Tensor) : Tensor :=
  {| shape := 1 :: shape t; data := data t |}.

(** [preprocessImage(imageElement)].  The [tf.tidy] around the body releases
    the four intermediate tensors; the value returned is not affected. *)
Definition preprocessImage (K : Kernels) (imageElement : ImageElement) : Tensor :=
  let tensor := fromPixels imageElement in
  let resized := resizeBilinear K tensor 224 224 in
  let casted := cast_float32 resized in
  let normalized := div casted (255 # 1) in
  let batched := expandDims0 normalized in
  batched.

(** [predict(model, imageElement)], read through [data()]. *)
Definition predict (K : Kernels) (m : Head) (imageElement : ImageElement)
  : option (list Q) :=
  let preprocessed := preprocessImage K imageElement in
  layersPredict K m preprocessed.

(* ================================================================== *)
(** * The [useTensorFlow] hook *)
(* ================================================================== *)

(** The double-quote character, for the messages that contain one. *)
Definition dq : string := String (ascii_of_nat 34) EmptyString.

Definition msg_need_classes : string :=
  "Need at least 2 classes and a loaded base model".
Definition msg_create_failed : string := "Failed to create training model".
Definition msg_not_ready : string := "Model not ready or insufficient classes".
Definition msg_training_failed : string :=
  "Training failed. Please check your data and try again.".
Definition msg_load_failed : string :=
  "Failed to load base model. Please refresh and try again.".
Definition msg_no_export : string := "No trained model to export".
Definition msg_export_failed : string := "Failed to export model".

(** [`Classes "${invalidClasses.map(c => c.name).join('", "')}" have no
    training samples`] *)
Definition msg_no_samples (invalidClasses : list TrainingClass) : string :=
  "Classes " ++ dq
  ++ String.concat (dq ++ ", " ++ dq) (map name invalidClasses)
  ++ dq ++ " have no training samples".

Definition isSome {A} (o : option A) : bool :=
  match o with Some _ => true | None => false end.

(** [accuracy || 0] *)
Definition or_zero (a : option Q) : Q :=
  match a with Some q => q | None => 0%Q end.

(** [loadBaseModel], in a render where [isInitialized] has the given value. *)
Definition loadBaseModel (env : Env) (isInitialized : bool) : Proc unit :=
  if negb isInitialized then Ret tt
  else
    try_catch
      (setError None ;;
       await ;;
       match load_result env with
       | Loaded b =>
           setModel (fun prev =>
             {| model := model prev; isReady := isReady prev;
                baseModel := Some b |})
       | LoadedNothing => Raise
       | LoadThrows => Raise
       end)
      (setError (Some msg_load_failed)).

(** [createModel(classes)], in a render where [model.baseModel] has the given
    value.  No [await] occurs in it. *)
Definition createModel (env : Env) (model_baseModel : option BaseModel)
    (classes : list TrainingClass) : Proc unit :=
  match model_baseModel with
  | Some b =>
      if List.length classes <? 2 then setError (Some msg_need_classes)
      else
        try_catch
          (setError None ;;
           transferModel <- createTransferModel env b (List.length classes) ;;
           setModel (fun prev =>
             {| model := Some transferModel; isReady := false;
                baseModel := baseModel prev |}))
          (setError (Some msg_create_failed))
  | None => setError (Some msg_need_classes)
  end.

(** The data-preparation loop of [startTraining]: one image element per
    sample, awaited until it has loaded, with the position of its class as
    label.  An image is its URL here. *)
Fixpoint loadImages (env : Env) (classIndex : nat)
    (classes : list TrainingClass) : Proc (list (string * nat)) :=
  match classes with
  | [] => Ret []
  | classData :: rest =>
      here <- forM (samples classData) (fun sample =>
                match img_loads env (url sample) with
                | Some t => await ;; setClock t ;; Ret (url sample, classIndex)
                | None => Hang
                end) ;;
      others <- loadImages env (S classIndex) rest ;;
      Ret (here ++ others)%list
  end.

(** The per-image pipeline of [startTraining]:
    [tf.tidy(() => fromPixels(img).resizeBilinear([224,224]).cast().div(255))] *)
Definition imageTensor (env : Env) : Proc nat :=
  tidy (tensor <- tf env FromPixels ;;
        resized <- tf env ResizeBilinear ;;
        casted <- tf env Cast ;;
        normalized <- tf env Div ;;
        Ret normalized).

(** The [onEpochEnd] callback built by [startTraining]. *)
Definition onEpoch (epochs : nat) (startTime : Z) (nImages : nat)
    (epoch : nat) (loss : Q) (accuracy : option Q) : Proc unit :=
  now <- Date_now ;;
  let timeElapsed := (now - startTime)%Z in
  let currentProgress :=
    {| epoch := epoch + 1;
       totalEpochs := epochs;
       accuracy := (or_zero accuracy * 100)%Q;
       loss := loss;
       samplesProcessed := nImages;
       timeElapsed := (timeElapsed / 1000)%Z |} in
  setTrainingProgress currentProgress ;;
  setTrainingHistory (fun prev =>
    (prev ++ [{| h_epoch := epoch + 1; h_loss := loss;
                h_accuracy := (or_zero accuracy * 100)%Q |}])%list).

(** The [try] block of [startTraining], from the data preparation on. *)
Definition trainingSteps (env : Env) (m : Head)
    (classes : list TrainingClass) (epochs : nat) : Proc unit :=
  (* prepare training data *)
  all <- loadImages env 0 classes ;;
  let allImages := map fst all in
  let allLabels := map snd all in
  (* convert to tensors *)
  tensors <- forM allImages (fun img => imageTensor env) ;;
  xs <- tf env Stack ;;
  labels <- tf env Tensor1d ;;
  ys <- tf env OneHot ;;
  startTime <- Date_now ;;
  trainModel env m xs ys epochs
    (Some (onEpoch epochs startTime (List.length allImages))) ;;
  (* cleanup tensors *)
  dispose xs ;;
  dispose ys ;;
  setModel (fun prev =>
    {| model := model prev; isReady := true; baseModel := baseModel prev |}) ;;
  setTrainingStatus st_completed.

(** The [try] block of [startTraining]. *)
Definition trainingRun (env : Env) (m : Head)
    (classes : list TrainingClass) (epochs : nat) : Proc unit :=
  setTrainingStatus st_training ;;
  setError None ;;
  setTrainingHistory (fun _ => []) ;;   (* reset training history *)
  trainingSteps env m classes epochs.

(** Its [catch] block. *)
Definition trainingFailed : Proc unit :=
  setError (Some msg_training_failed) ;;
  setTrainingStatus st_error.

(** [startTraining(classes, epochs)], in a render where [model.model] has the
    given value. *)
Definition startTraining (env : Env) (model_model : option Head)
    (classes : list TrainingClass) (epochs : nat) : Proc unit :=
  match model_model with
  | None => setError (Some msg_not_ready)
  | Some m =>
      if List.length classes <? 2 then setError (Some msg_not_ready)
      else
        let invalidClasses :=
          filter (fun cls => List.length (samples cls) =? 0) classes in
        if 0 <? List.length invalidClasses then
          setError (Some (msg_no_samples invalidClasses))
        else
          try_catch (trainingRun env m classes epochs) trainingFailed
  end.

(** [Array.prototype.sort(compareFn)] for a consistent [compareFn]: the
    sort is stable, so its result is the one of a stable insertion sort.
    [compareFn(x, y) > 0] puts [y] first; otherwise [x], which came first
    in the array, stays first. *)
Fixpoint insert {A} (compareFn : A -> A -> Q) (x : A) (l : list A) : list A :=
  match l with
  | [] => [x]
  | y :: l' =>
      match (compareFn x y ?= 0)%Q with
      | Gt => y :: insert compareFn x l'
      | _ => x :: y :: l'
      end
  end.

Fixpoint sort {A} (compareFn : A -> A -> Q) (l : list A) : list A :=
  match l with
  | [] => []
  | x :: l' => insert compareFn x (sort compareFn l')
  end.

(** [a.map((v, index) => f(v, index))], from a starting index. *)
Fixpoint mapi {A B} (f : A -> nat -> B) (index : nat) (l : list A) : list B :=
  match l with
  | [] => []
  | v :: l' => f v index :: mapi f (S index) l'
  end.

Definition string_of_nat (n : nat) : string :=
  NilZero.string_of_uint (Nat.to_uint n).

(** [classes[index]?.name || `Class ${index + 1}`] *)
Definition classNameAt (classes : list TrainingClass) (index : nat) : string :=
  match nth_error classes index with
  | Some cls =>
      if String.eqb (name cls) "" then "Class " ++ string_of_nat (index + 1)
      else name cls
  | None => "Class " ++ string_of_nat (index + 1)
  end.

(** [(a, b) => b.confidence - a.confidence] *)
Definition byConfidence (a b : Prediction) : Q := (confidence b - confidence a)%Q.

Definition msg_predict_not_ready : string := "Model not ready for predictions".
Definition msg_predict_failed : string := "Failed to make prediction".

(** [makePrediction(imageElement, classes)], in a render where [model] has
    the given value: the error thrown, or the predictions returned. *)
Definition makePrediction (K : Kernels) (m : MLModel)
    (imageElement : ImageElement) (classes : list TrainingClass)
  : string + list Prediction :=
  match model m with
  | None => inl msg_predict_not_ready
  | Some h =>
      if negb (isReady m) then inl msg_predict_not_ready
      else
        match predict K h imageElement with
        | Some predictionData =>
            let predictions :=
              mapi (fun confidence index =>
                      {| className := classNameAt classes index;
                         confidence := (confidence * 100)%Q;
                         classIndex := index |})
                   0 predictionData in
            inr (sort byConfidence predictions)
        | None => inl msg_predict_failed
        end
  end.

(** [exportModel()], in a render where [model] has the given value. *)
Definition exportModel (env : Env) (m : MLModel) : Proc unit :=
  if negb (isSome (model m)) || negb (isReady m) then
    setError (Some msg_no_export)
  else
    try_catch (await ;; if save_ok env then Ret tt else Raise)
              (setError (Some msg_export_failed)).

(* ================================================================== *)
(** * The [ClassManager] component *)
(* ================================================================== *)

Definition CLASS_COLORS : list string :=
  ["bg-green-500"; "bg-orange-500"; "bg-blue-500"; "bg-purple-500";
   "bg-pink-500"; "bg-indigo-500"; "bg-red-500"; "bg-yellow-500"].

(** [String.fromCharCode(code)]: the string of the one UTF-16 code unit
    [code mod 65536].  Strings are kept in UTF-8 here, as the literals of
    this file are, so the code unit takes one, two or three bytes (a lone
    surrogate is written like any other code unit of three bytes). *)
Definition fromCharCode (code : nat) : string :=
  let c := (N.of_nat code mod 65536)%N in
  if (c <? 128)%N then String (ascii_of_N c) EmptyString
  else if (c <? 2048)%N then
    String (ascii_of_N (192 + c / 64))
      (String (ascii_of_N (128 + c mod 64)) EmptyString)
  else
    String (ascii_of_N (224 + c / 4096))
      (String (ascii_of_N (128 + (c / 64) mod 64))
         (String (ascii_of_N (128 + c mod 64)) EmptyString)).

(** Each operation builds a new array and hands it to [onClassesChange]; the
    functions below compute that array. *)
Definition addNewClass (now : Z) (classes : list TrainingClass)
  : list TrainingClass :=
  let newClass :=
    {| id := "class-" ++ NilZero.string_of_int (Z.to_int now);
       name := "Class " ++ fromCharCode (65 + List.length classes);
       color := nth (List.length classes mod List.length CLASS_COLORS)
                    CLASS_COLORS "";
       samples := [] |} in
  (classes ++ [newClass])%list.

Definition updateClassName (classId newName : string)
    (classes : list TrainingClass) : list TrainingClass :=
  map (fun cls =>
         if String.eqb (id cls) classId
         then {| id := id cls; name := newName; color := color cls;
                 samples := samples cls |}
         else cls) classes.

Definition removeClass (classId : string) (classes : list TrainingClass)
  : list TrainingClass :=
  filter (fun cls => negb (String.eqb (id cls) classId)) classes.

(** [addSampleToClass] and [handleWebcamCapture], once the sample exists. *)
Definition addSample (classId : string) (newSample : ImageSample)
    (classes : list TrainingClass) : list TrainingClass :=
  map (fun cls =>
         if String.eqb (id cls) classId
         then {| id := id cls; name := name cls; color := color cls;
                 samples := (samples cls ++ [newSample])%list |}
         else cls) classes.

Definition removeSample (classId sampleId : string)
    (classes : list TrainingClass) : list TrainingClass :=
  map (fun cls =>
         if String.eqb (id cls) classId
         then
           let updatedSamples :=
             filter (fun sample => negb (String.eqb (sample_id sample) sampleId))
                    (samples cls) in
           {| id := id cls; name := name cls; color := color cls;
              samples := updatedSamples |}
         else cls) classes.

(* ================================================================== *)
(** * The [TeachableMachine] page *)
(* ================================================================== *)

(** The page holds the class list in React state.  React compares effect
    dependencies by identity, so the array in the state carries the number
    of its allocation.  [effect_deps] are the dependencies the `create
    model' effect saw when it last ran ([None] before the first render), and
    [toasts] the descriptions of the notifications shown so far. *)
Record PageState := {
  world : World;
  classes : list TrainingClass;
  classes_ref : nat;
  next_ref : nat;
  effect_deps : option (option BaseModel * nat);
  toasts : list string
}.

Definition BaseModel_eqb (a b : BaseModel) : bool :=
  if list_eq_dec string_dec (layers a) (layers b) then true else false.

Definition deps_eqb (a b : option BaseModel * nat) : bool :=
  match fst a, fst b with
  | Some x, Some y => BaseModel_eqb x y
  | None, None => true
  | _, _ => false
  end && (snd a =? snd b).

Definition with_world (f : World -> World) (s : PageState) : PageState :=
  {| world := f (world s); classes := classes s; classes_ref := classes_ref s;
     next_ref := next_ref s; effect_deps := effect_deps s; toasts := toasts s |}.

Definition toast (description : string) (s : PageState) : PageState :=
  {| world := world s; classes := classes s; classes_ref := classes_ref s;
     next_ref := next_ref s; effect_deps := effect_deps s;
     toasts := (toasts s ++ [description])%list |}.

(** The effect `show errors as toast notifications': it runs after every
    render, since [clearError] is a new function each time. *)
Definition errorToastEffect (s : PageState) : PageState :=
  match error (hook (world s)) with
  | Some e => with_world (fun w => snd (run clearError w)) (toast e s)
  | None => s
  end.

(** The effect `create model when classes change', with dependencies
    [model.baseModel], [classes] and [createModel] (which changes with
    [model.baseModel] only). *)
Definition createModelEffect (env : Env) (s : PageState) : PageState :=
  let model_baseModel := baseModel (mlmodel (hook (world s))) in
  let deps := (model_baseModel, classes_ref s) in
  let changed :=
    match effect_deps s with
    | Some seen => negb (deps_eqb seen deps)
    | None => true
    end in
  if changed then
    let s' :=
      {| world := world s; classes := classes s; classes_ref := classes_ref s;
         next_ref := next_ref s; effect_deps := Some deps;
         toasts := toasts s |} in
    if isSome model_baseModel && (2 <=? List.length (classes s)) then
      with_world (fun w =>
        snd (run (createModel env model_baseModel (classes s)) w)) s'
    else s'
  else s.

(** What follows a state change: the effects of the render, and those of
    the render the `create model' effect causes in turn. *)
Definition commit (env : Env) (s : PageState) : PageState :=
  errorToastEffect (createModelEffect env (errorToastEffect s)).

(** [setClasses(newClasses)] with a newly built array. *)
Definition onClassesChange (newClasses : list TrainingClass) (s : PageState)
  : PageState :=
  {| world := world s; classes := newClasses; classes_ref := next_ref s;
     next_ref := S (next_ref s); effect_deps := effect_deps s;
     toasts := toasts s |}.

Definition msg_two_classes : string :=
  "You need at least 2 classes with training samples".
Definition msg_three_samples : string :=
  "For best results, add at least 3 samples per class".

(** [handleStartTraining(epochs)]; the training run is taken to its end. *)
Definition handleStartTraining (env : Env) (epochs : nat) (s : PageState)
  : PageState :=
  let classesWithSamples :=
    filter (fun cls => 0 <? List.length (samples cls)) (classes s) in
  if List.length classesWithSamples <? 2 then toast msg_two_classes s
  else
    let minSamples :=
      match map (fun cls => List.length (samples cls)) classesWithSamples with
      | n :: ns => fold_right Nat.min n ns
      | [] => 0
      end in
    if minSamples <? 3 then toast msg_three_samples s
    else
      with_world (fun w =>
        snd (run (startTraining env (model (mlmodel (hook w))) (classes s)
                                epochs) w)) s.

(** What can happen to the page. *)
Inductive Event :=
| EvBaseModelEffect                       (* the `load base model' effect *)
| EvAddNewClass
| EvUpdateClassName (classId newName : string)
| EvRemoveClass (classId : string)
| EvAddSample (classId : string) (newSample : ImageSample)
| EvRemoveSample (classId sampleId : string)
| EvStartTraining (epochs : nat)
| EvExportModel.

Definition is_class_edit (ev : Event) : bool :=
  match ev with
  | EvAddNewClass | EvUpdateClassName _ _ | EvRemoveClass _
  | EvAddSample _ _ | EvRemoveSample _ _ => true
  | _ => false
  end.

(** The array a class-list edit hands to [onClassesChange]. *)
Definition edited (ev : Event) (s : PageState) : list TrainingClass :=
  match ev with
  | EvAddNewClass => addNewClass (clock (world s)) (classes s)
  | EvUpdateClassName classId newName =>
      updateClassName classId newName (classes s)
  | EvRemoveClass classId => removeClass classId (classes s)
  | EvAddSample classId newSample => addSample classId newSample (classes s)
  | EvRemoveSample classId sampleId =>
      removeSample classId sampleId (classes s)
  | _ => classes s
  end.

(** One event, followed by the effects of the renders it causes. *)
Definition step (env : Env) (ev : Event) (s : PageState) : PageState :=
  commit env
    match ev with
    | EvBaseModelEffect =>
        let h := hook (world s) in
        if isInitialized h && negb (isSome (baseModel (mlmodel h))) then
          with_world (fun w =>
            snd (run (loadBaseModel env (isInitialized h)) w)) s
        else s
    | EvStartTraining epochs => handleStartTraining env epochs s
    | EvExportModel =>
        with_world (fun w =>
          snd (run (exportModel env (mlmodel (hook w))) w)) s
    | _ => onClassesChange (edited ev s) s
    end.

(** A sequence of events, each with the behaviour of the outside during
    it. *)
Fixpoint steps (trace : list (Env * Event)) (s : PageState) : PageState :=
  match trace with
  | [] => s
  | (env, ev) :: rest => steps rest (step env ev s)
  end.

(** The page as first rendered, once TensorFlow.js is initialised. *)
Definition initialHook : HookState :=
  {| isInitialized := true;
     mlmodel := {| model := None; isReady := false; baseModel := None |};
     trainingStatus := st_idle; trainingProgress := None;
     trainingHistory := []; error := None |}.

Definition initialWorld : World :=
  {| hook := initialHook; live := []; next_tid := 0; clock := 0%Z;
     progress_stream := [] |}.

Definition initialPage : PageState :=
  {| world := initialWorld;
     classes :=
       [{| id := "class-1"; name := "Class A"; color := "bg-green-500";
           samples := [] |};
        {| id := "class-2"; name := "Class B"; color := "bg-orange-500";
           samples := [] |}];
     classes_ref := 0; next_ref := 1; effect_deps := None; toasts := [] |}.

(** The identity numbers in use lie below the next free one. *)
Definition page_wf (s : PageState) : Prop :=
  classes_ref s < next_ref s /\
  match effect_deps s with
  | Some seen => snd seen < next_ref s
  | None => True
  end.

(** The readiness flag, as the page sees it. *)
Definition page_ready (s : PageState) : bool :=
  isReady (mlmodel (hook (world s))).

(* ================================================================== *)
(** * Properties of procedures *)
(* ================================================================== *)

(** [always R p]: every atomic action of [p], on every path, takes a world
    to an [R]-related one. *)
Fixpoint always {A} (R : World -> World -> Prop) (p : Proc A) : Prop :=
  match p with
  | Act f k => (forall w, R w (snd (f w))) /\ (forall b, always R (k b))
  | Await k => always R k
  | _ => True
  end.

(** [sync p]: no path of [p] suspends. *)
Fixpoint sync {A} (p : Proc A) : Prop :=
  match p with
  | Act f k => forall b, sync (k b)
  | Await _ => False
  | Hang => False
  | _ => True
  end.

(** The procedure did not return. *)
Definition failed {A} (o : Outcome A) : Prop :=
  match o with Done _ => False | _ => True end.

(** The relations used with [always]. *)
Definition same_model (w w' : World) : Prop :=
  mlmodel (hook w') = mlmodel (hook w).

(** What [startTraining] leaves alone until it completes: the model record,
    and the status and the error it has set at its start. *)
Definition run_frame (w w' : World) : Prop :=
  mlmodel (hook w') = mlmodel (hook w) /\
  trainingStatus (hook w') = trainingStatus (hook w) /\
  error (hook w') = error (hook w).

Definition history_grows (w w' : World) : Prop :=
  exists more,
    trainingHistory (hook w') = (trainingHistory (hook w) ++ more)%list.

Definition not_ready (w w' : World) : Prop :=
  isReady (mlmodel (hook w)) = false -> isReady (mlmodel (hook w')) = false.

(** Only the clock moves. *)
Definition only_clock (w w' : World) : Prop :=
  hook w' = hook w /\ live w' = live w /\ next_tid w' = next_tid w /\
  progress_stream w' = progress_stream w.

(** Only the tensors and the clock move, and no handle is given twice. *)
Definition only_tensors (w w' : World) : Prop :=
  hook w' = hook w /\ progress_stream w' = progress_stream w /\
  next_tid w <= next_tid w'.

(** The clock keeps its value. *)
Definition keeps_clock (w w' : World) : Prop := clock w' = clock w.

(** What is left of a procedure after a turn keeps what the procedure
    keeps. *)
Definition turn_always {A} (R : World -> World -> Prop) (t : Turn A) : Prop :=
  match t with
  | Suspended k => always R k
  | Finished _ => True
  end.

(* ================================================================== *)
(** * The vocabulary of the statements *)
(* ================================================================== *)

Definition total_samples (classes : list TrainingClass) : nat :=
  List.length (flat_map samples classes).

(** Every image of the class list loads. *)
Definition images_load (env : Env) (classes : list TrainingClass) : Prop :=
  forall cls sample,
    In cls classes -> In sample (samples cls) ->
    img_loads env (url sample) <> None.

(** Some tensor-producing call of the per-image pipeline throws. *)
Definition pipeline_throws (env : Env) : bool :=
  tf_throws env FromPixels || tf_throws env ResizeBilinear
  || tf_throws env Cast || tf_throws env Div.

(** The clock after one more image has fired [onload]. *)
Definition loadTime (env : Env) (now : Z) (sample : ImageSample) : Z :=
  match img_loads env (url sample) with
  | Some t => t
  | None => now
  end.

(** The clock when the last image of the class list has fired [onload],
    from the clock at the start: the time [startTraining] reads as
    [startTime]. *)
Definition lastLoad (env : Env) (classes : list TrainingClass) (now : Z) : Z :=
  fold_left (loadTime env) (flat_map samples classes) now.

(** The [onEpochEnd] calls that come with logs: the others are dropped by
    [trainModel]. *)
Definition reported (trace : list FitEvent) : list FitEvent :=
  filter (fun ev => isSome (fe_logs ev)) trace.

(** The progress record [startTraining] builds from one [onEpochEnd] call. *)
Definition progress_of (epochs : nat) (startTime : Z) (nImages : nat)
    (ev : FitEvent) : TrainingProgress :=
  {| epoch := fe_epoch ev + 1;
     totalEpochs := epochs;
     accuracy :=
       (or_zero match fe_logs ev with Some l => logs_acc l | None => None end
        * 100)%Q;
     loss := match fe_logs ev with Some l => logs_loss l | None => 0%Q end;
     samplesProcessed := nImages;
     timeElapsed := ((fe_now ev - startTime) / 1000)%Z |}.

(** The history entry that goes with a progress record. *)
Definition entry_of (p : TrainingProgress) : HistoryEntry :=
  {| h_epoch := epoch p; h_loss := loss p; h_accuracy := accuracy p |}.

(** [model.fit] keeps its contract when it is asked for [epochs] epochs: it
    reports the epochs 0, 1, ..., [epochs - 1] in order, each with its logs,
    and resolves. *)
Definition fit_completes (env : Env) (epochs : nat) : Prop :=
  map fe_epoch (fit_trace env epochs) = seq 0 epochs /\
  Forall (fun ev => fe_logs ev <> None) (fit_trace env epochs) /\
  fit_ok env = true.

(** The three tensors [startTraining] makes after the per-image ones: the
    stacked inputs, the labels, and the one-hot labels. *)
Definition batched (w : World) : World :=
  snd (allocate OneHot (snd (allocate Tensor1d (snd (allocate Stack w))))).

(** The end of the [try] block of [startTraining], after [trainModel]. *)
Definition cleanupAndMarkReady (xs ys : nat) : Proc unit :=
  dispose xs ;;
  dispose ys ;;
  setModel (fun prev =>
    {| model := model prev; isReady := true; baseModel := baseModel prev |}) ;;
  setTrainingStatus st_completed.

(** The error [startTraining] reports when a class is empty depends on its
    first guard. *)
Definition empty_class_error (model_model : option Head)
    (classes : list TrainingClass) : string :=
  if isSome model_model && (2 <=? List.length classes) then
    msg_no_samples
      (filter (fun cls => List.length (samples cls) =? 0) classes)
  else msg_not_ready.

(** The order [makePrediction] is to return: higher confidence first, and
    among equal confidences the smaller class index first. *)
Definition ranked_before (a b : Prediction) : Prop :=
  (confidence b < confidence a)%Q \/
  ((confidence a == confidence b)%Q /\ classIndex a < classIndex b).

(** The entry [makePrediction] builds from the output [v] of the unit
    [index]. *)
Definition entryFor (classes : list TrainingClass) (v : Q) (index : nat)
  : Prediction :=
  {| className := classNameAt classes index;
     confidence := (v * 100)%Q;
     classIndex := index |}.

(** [a] stands in [l] at an earlier position than [b]. *)
Definition occurs_before {A} (a b : A) (l : list A) : Prop :=
  exists l1 l2 l3, l = (l1 ++ a :: l2 ++ b :: l3)%list.

Fixpoint Qsum (l : list Q) : Q :=
  match l with
  | [] => 0%Q
  | x :: l' => (x + Qsum l')%Q
  end.

(** [startTraining] goes past its guards. *)
Definition accepted (model_model : option Head) (classes : list TrainingClass)
  : bool :=
  isSome model_model && (2 <=? List.length classes)
  && forallb (fun cls => negb (List.length (samples cls) =? 0)) classes.

(** The event is a training run that completes: [startTraining] is
    accepted and its [try] block returns. *)
Definition completes (env : Env) (ev : Event) (s : PageState) : bool :=
  match ev with
  | EvStartTraining epochs =>
      match model (mlmodel (hook (world s))) with
      | Some m =>
          accepted (Some m) (classes s)
          && match fst (run (trainingRun env m (classes s) epochs) (world s))
             with
             | Done _ => true
             | _ => false
             end
      | None => false
      end
  | _ => false
  end.

(** The model record after [createModel] has built a head for [n] classes
    on the base model [b]. *)
Definition rebuilt (b : BaseModel) (n : nat) : MLModel :=
  {| model := Some {| head_base := b; head_extractor := featureExtractor b;
                      head_dropout := 2 # 10; head_units := n;
                      head_activation := "softmax" |};
     isReady := false;
     baseModel := Some b |}.

(* ================================================================== *)
(** * A reference for the resize kernel *)
(* ================================================================== *)

(** A reference for the resize kernel, after the bilinear resize of the
    TensorFlow.js CPU backend (corners not aligned): output index [i] reads
    the source at [i * old / new], between the entries at the floor and at
    the ceiling of that coordinate.  The theorems about [preprocessImage]
    hold for any kernel that keeps the contract; this one shows that the
    contract can be kept. *)
Definition natQ (n : nat) : Q := inject_Z (Z.of_nat n).

(** [a + (b - a) * f] *)
Definition lerp (a b f : Q) : Q := (a + (b - a) * f)%Q.

Definition sourceFrac (old new i : nat) : Q := (natQ old / natQ new * natQ i)%Q.

Definition sourceFloor (old new i : nat) : nat :=
  Z.to_nat (Z.max 0 (Qfloor (sourceFrac old new i))).

Definition sourceCeil (old new i : nat) : nat :=
  Nat.min (old - 1) (Z.to_nat (Qceiling (sourceFrac old new i))).

Definition frac (old new i : nat) : Q :=
  (sourceFrac old new i - natQ (sourceFloor old new i))%Q.

(** The entry at row [r], column [c], channel [d]. *)
Definition entry (t : Tensor) (width channels r c d : nat) : Q :=
  nth ((r * width + c) * channels + d) (data t) 0%Q.

Definition bilinear (t : Tensor) (newHeight newWidth : nat) : Tensor :=
  match shape t with
  | [oldHeight; oldWidth; channels] =>
      {| shape := [newHeight; newWidth; channels];
         data :=
           flat_map (fun r =>
             let top := sourceFloor oldHeight newHeight r in
             let bottom := sourceCeil oldHeight newHeight r in
             let rowFrac := frac oldHeight newHeight r in
             flat_map (fun c =>
               let left := sourceFloor oldWidth newWidth c in
               let right := sourceCeil oldWidth newWidth c in
               let colFrac := frac oldWidth newWidth c in
               map (fun d =>
                 let topLeft := entry t oldWidth channels top left d in
                 let topRight := entry t oldWidth channels top right d in
                 let bottomLeft := entry t oldWidth channels bottom left d in
                 let bottomRight := entry t oldWidth channels bottom right d in
                 lerp (lerp topLeft topRight colFrac)
                      (lerp bottomLeft bottomRight colFrac) rowFrac)
                 (seq 0 channels))
               (seq 0 newWidth))
             (seq 0 newHeight) |}
  | _ => t
  end.

(* ================================================================== *)
(** * Sample data *)
(* ================================================================== *)

Definition demoBase : BaseModel :=
  {| layers := ["conv1"; "conv_pw_13"; "global_average_pooling2d_1";
                "conv_preds"] |}.

Definition demoHead (numClasses : nat) : Head :=
  {| head_base := demoBase; head_extractor := featureExtractor demoBase;
     head_dropout := 2 # 10; head_units := numClasses;
     head_activation := "softmax" |}.

Definition sampleOf (s : string) : ImageSample :=
  {| sample_id := "sample-" ++ s; url := "blob:" ++ s |}.

Definition classOf (i n : string) (l : list ImageSample) : TrainingClass :=
  {| id := i; name := n; color := "bg-green-500"; samples := l |}.

Definition cats : TrainingClass :=
  classOf "class-1" "Cats" [sampleOf "c1"; sampleOf "c2"; sampleOf "c3"].
Definition dogs : TrainingClass :=
  classOf "class-2" "Dogs" [sampleOf "d1"; sampleOf "d2"; sampleOf "d3"].
Definition birds : TrainingClass := classOf "class-3" "Birds" [].

Definition logsOf (l a : Q) : option Logs :=
  Some {| logs_loss := l; logs_acc := Some a |}.

(** An environment in which every image loads at time 10 and no call throws;
    [model.fit] reports the given epochs and resolves or rejects as told. *)
Definition envOf (trace : list FitEvent) (ok : bool) : Env :=
  {| img_loads := fun _ => Some 10%Z;
     tf_throws := fun _ => false;
     fit_trace := fun _ => trace;
     fit_ok := ok;
     layers_throw := false;
     load_result := Loaded demoBase;
     save_ok := true |}.

Definition twoEpochs : list FitEvent :=
  [{| fe_epoch := 0; fe_logs := logsOf (7 # 10) (1 # 2); fe_now := 1510 |};
   {| fe_epoch := 1; fe_logs := logsOf (4 # 10) (3 # 4); fe_now := 3020 |}].

(** The [onEpochEnd] call a well-behaved [model.fit] makes for an epoch. *)
Definition epochReport (e : nat) : FitEvent :=
  {| fe_epoch := e;
     fe_logs := logsOf (1 # Pos.of_succ_nat e) (1 # 2);
     fe_now := 1510 * Z.of_nat (S e) |}.

(** An environment in which [model.fit] reports as many epochs as it is
    asked for, and resolves. *)
Definition steadyFit : Env :=
  {| img_loads := fun _ => Some 10%Z;
     tf_throws := fun _ => false;
     fit_trace := fun epochs => map epochReport (seq 0 epochs);
     fit_ok := true;
     layers_throw := false;
     load_result := Loaded demoBase;
     save_ok := true |}.

(** A world in which a head for two classes has been built. *)
Definition builtWorld : World :=
  {| hook :=
       {| isInitialized := true;
          mlmodel := {| model := Some (demoHead 2); isReady := false;
                        baseModel := Some demoBase |};
          trainingStatus := st_idle; trainingProgress := None;
          trainingHistory := []; error := None |};
     live := []; next_tid := 0; clock := 0%Z; progress_stream := [] |}.

(** A first call of [startTraining] for two epochs, and a second call made
    while the first is in flight, whose [model.fit] rejects. *)
Definition firstRun : Proc unit :=
  startTraining (envOf twoEpochs true) (Some (demoHead 2)) [cats; dogs] 2.

Definition secondRun : Proc unit :=
  startTraining (envOf [] false) (Some (demoHead 2)) [cats; dogs] 2.

(** The first run alone up to the end of its first epoch (eight turns), then
    the first turn of the second call, then the rest of both. *)
Definition untilFirstEpoch : list bool := repeat false 8.
Definition thenSecondCall : list bool := (untilFirstEpoch ++ [true])%list.
Definition toTheEnd : list bool :=
  (thenSecondCall ++ repeat false 4 ++ repeat true 10)%list.

Definition historyEntry (e : nat) (l a : Q) : HistoryEntry :=
  {| h_epoch := e; h_loss := l; h_accuracy := a |}.

(** A session: the base model loads, three samples are added to each of the
    two classes, and a training run of two epochs completes. *)
Definition quiet : Env := envOf [] true.

Definition trainedSession : list (Env * Event) :=
  [(quiet, EvBaseModelEffect);
   (quiet, EvAddSample "class-1" (sampleOf "a1"));
   (quiet, EvAddSample "class-1" (sampleOf "a2"));
   (quiet, EvAddSample "class-1" (sampleOf "a3"));
   (quiet, EvAddSample "class-2" (sampleOf "b1"));
   (quiet, EvAddSample "class-2" (sampleOf "b2"));
   (quiet, EvAddSample "class-2" (sampleOf "b3"));
   (envOf twoEpochs true, EvStartTraining 2)].

Definition trainedPage : PageState := steps trainedSession initialPage.

(** Kernels for the examples: the reference resize, and a forward pass with
    a fixed output. *)
Definition kernelsOf (output : list Q) : Kernels :=
  {| resizeBilinear := bilinear;
     layersPredict := fun _ _ => Some output |}.

Definition grey (v : byte) : Pixel :=
  {| red := v; green := v; blue := v; alpha := xff |}.

Definition frame2x1 : ImageElement :=
  {| img_width := 2; img_height := 1; pixels := [grey x80; grey x10] |}.

(* ================================================================== *)
(** * [ml-utils.ts]: loading the base model, resizing a file *)
(* ================================================================== *)

(** [resizeImage(file, maxWidth, maxHeight)]: the width and the height it
    computes for an image of the given width and height, which it passes to
    [drawImage].  Here the last bit decides which integer the canvas gets,
    so the rounding of the quotient and of the product is part of the
    function: [rnd] rounds a rational to the number that holds it. *)
Definition resizedDimensions (rnd : Q -> Q) (width height maxWidth maxHeight : Q)
  : Q * Q :=
  let aspectRatio := rnd (width / height)%Q in
  if Qlt_le_dec height width then        (* width > height *)
    let width := maxWidth in
    let height := rnd (width / aspectRatio)%Q in
    (width, height)
  else
    let height := maxHeight in
    let width := rnd (height * aspectRatio)%Q in
    (width, height).

(** [canvas.width = width; canvas.height = height]: the attributes are
    unsigned integers, a non-negative number loses its fraction. *)
Definition canvasSize (d : Q * Q) : Z * Z := (Qfloor (fst d), Qfloor (snd d)).

(** What is used of the rounding of positive numbers: it respects equality
    and order, and its relative error is at most [eps] (2^-53 for binary64,
    away from overflow and underflow). *)
Definition rounding (rnd : Q -> Q) (eps : Q) : Prop :=
  (0 <= eps /\ eps < 1)%Q /\
  (forall x y, (0 < x)%Q -> (x == y)%Q -> (rnd x == rnd y)%Q) /\
  (forall x y, (0 < x)%Q -> (x <= y)%Q -> (rnd x <= rnd y)%Q) /\
  (forall x, (0 < x)%Q ->
     ((1 - eps) * x <= rnd x /\ rnd x <= (1 + eps) * x)%Q).

(** The binade of a positive rational: the [k] with 2^k <= x < 2^(k+1). *)
Definition binade (x : Q) : Z :=
  let k := (Z.log2 (Qnum x) - Z.log2 (Zpos (Qden x)))%Z in
  if Qle_bool (2 ^ k)%Q x then k else (k - 1)%Z.

(** The integer nearest to [q], the even one of two that are equally near. *)
Definition nearestEven (q : Q) : Z :=
  let f := Qfloor q in
  match Qcompare (q - inject_Z f)%Q (1 # 2)%Q with
  | Lt => f
  | Gt => (f + 1)%Z
  | Eq => if Z.even f then f else (f + 1)%Z
  end.

(** A positive rational rounded to 53 significant bits. *)
Definition roundPos (x : Q) : Q :=
  let e := (binade x - 52)%Z in
  (inject_Z (nearestEven (x / 2 ^ e)) * 2 ^ e)%Q.

(** The binary64 number nearest to [x] (round to nearest, ties to even),
    the range of the exponent taken as unbounded. *)
Definition binary64 (x : Q) : Q :=
  match Qnum x with
  | Zpos _ => roundPos x
  | Z0 => 0%Q
  | Zneg _ => (- roundPos (- x))%Q
  end.


(** The relative error of [binary64]. *)
Definition eps64 : Q := (2 ^ (-53))%Q.

(** What the two attempts of [loadMobileNet] give ([None]: [setBackend] or
    [loadLayersModel] throws), and the model [createFallbackModel] builds. *)
Record Loader := {
  webgl_model : option BaseModel;
  cpu_model : option BaseModel;
  fallback_model : BaseModel
}.

(** [loadMobileNet()] *)
Definition loadMobileNet (L : Loader) : LoadResult :=
  match webgl_model L with
  | Some mobilenet => Loaded mobilenet
  | None =>
      match cpu_model L with
      | Some mobilenet => Loaded mobilenet
      | None => Loaded (fallback_model L)
      end
  end.

(** The layer names [createTransferModel] looks for. *)
Definition namesFeatureLayer (l : string) : bool :=
  includes l "global_average_pooling" || includes l "flatten"
  || includes l "dense".

(* ================================================================== *)
(** * The hook: initialisation, and the data of a run *)
(* ================================================================== *)

(** Which of the two backends [tf.setBackend] and [tf.ready] accept. *)
Record Backends := {
  webgl_ready : bool;
  cpu_ready : bool
}.

Definition setIsInitialized (b : bool) : Proc unit :=
  modify (with_hook (fun h =>
    {| isInitialized := b; mlmodel := mlmodel h;
       trainingStatus := trainingStatus h;
       trainingProgress := trainingProgress h;
       trainingHistory := trainingHistory h; error := error h |})).

Definition msg_init_failed : string :=
  "Failed to initialize machine learning framework. Please refresh the page.".

(** [initTensorFlow()], the effect the hook runs when it mounts. *)
Definition initTensorFlow (B : Backends) : Proc unit :=
  try_catch
    (try_catch
       (await ;; if webgl_ready B then await else Raise)
       (await ;; if cpu_ready B then await else Raise) ;;
     setIsInitialized true)
    (setError (Some msg_init_failed)).

(** What [startTraining] does with one sample: it waits for the image. *)
Definition awaitImage (env : Env) (classIndex : nat) (sample : ImageSample)
  : Proc (string * nat) :=
  match img_loads env (url sample) with
  | Some t => await ;; setClock t ;; Ret (url sample, classIndex)
  | None => Hang
  end.

(** The tensors the per-image pipeline leaves for [n] images when [start]
    is the first free handle: the normalised tensor of each image, the last
    of the four it makes. *)
Fixpoint imageTensors (start n : nat) : list TensorInfo :=
  match n with
  | O => []
  | S n' => {| tid := start + 3; producer := Div |} :: imageTensors (start + 4) n'
  end.

(** The tensors a completed run has made through the calls of [TensorOp]
    and not disposed: those, and the tensor of the labels. *)
Definition tensorsLeft (start n : nat) : list TensorInfo :=
  (imageTensors start n
   ++ [{| tid := start + 4 * n + 1; producer := Tensor1d |}])%list.

(** The handles in use lie below the next free one. *)
Definition handles_wf (w : World) : Prop :=
  Forall (fun i => tid i < next_tid w) (live w).

(** The label [startTraining] gives to each image: the position of its
    class in the list, class after class. *)
Fixpoint labelsOf (classIndex : nat) (classes : list TrainingClass) : list nat :=
  match classes with
  | [] => []
  | classData :: rest =>
      (repeat classIndex (List.length (samples classData))
       ++ labelsOf (S classIndex) rest)%list
  end.

(* ================================================================== *)
(** * The [ClassManager] component: new ids, files handed over *)
(* ================================================================== *)

(** The id [addNewClass] gives to a class made at time [now]. *)
Definition newClassId (now : Z) : string :=
  "class-" ++ NilZero.string_of_int (Z.to_int now).

(** [handleFileUpload(classId, files)] for files that are images, in the
    order in which their images have loaded: every [onload] callback maps
    over the [classes] of the render in which the files were handed over. *)
Definition handleFileUpload (env : Env) (classId : string)
    (loaded : list ImageSample) (s : PageState) : PageState :=
  let classes0 := classes s in
  fold_left (fun st newSample =>
               commit env (onClassesChange
                             (addSample classId newSample classes0) st))
            loaded s.

(* ================================================================== *)
(** * The page: mounting, prediction, export *)
(* ================================================================== *)

(** The page when it mounts: [isInitialized] is still false. *)
Definition mountedPage : PageState :=
  with_world (with_hook (fun h =>
    {| isInitialized := false; mlmodel := mlmodel h;
       trainingStatus := trainingStatus h;
       trainingProgress := trainingProgress h;
       trainingHistory := trainingHistory h; error := error h |})) initialPage.

Definition initialise (B : Backends) (s : PageState) : PageState :=
  with_world (fun w => snd (run (initTensorFlow B) w)) s.

(** Nothing has been loaded, built or trained. *)
Definition dormant (w : World) : Prop :=
  isInitialized (hook w) = false /\
  mlmodel (hook w) = {| model := None; isReady := false; baseModel := None |} /\
  trainingStatus (hook w) = st_idle /\
  trainingHistory (hook w) = [] /\
  live w = [] /\ progress_stream w = [].

Definition msg_export_ok : string := "Model has been downloaded to your device".
Definition msg_export_retry : string :=
  "Failed to export model. Please try again.".

(** [handleExportModel()]: the toast follows the [await] of the hook's
    [exportModel]. *)
Definition handleExportModel (env : Env) (s : PageState) : PageState :=
  let r := run (exportModel env (mlmodel (hook (world s)))) (world s) in
  let s' := with_world (fun _ => snd r) s in
  match fst r with
  | Done _ => toast msg_export_ok s'
  | Thrown => toast msg_export_retry s'
  | Hung => s'
  end.

Definition msg_train_first : string := "Please train the model first".

(** [handlePredict(element)]: the description of the toast it shows, or the
    predictions it stores. *)
Definition handlePredict (K : Kernels) (s : PageState) (element : ImageElement)
  : string + list Prediction :=
  let m := mlmodel (hook (world s)) in
  if negb (isReady m) then inl msg_train_first
  else
    match makePrediction K m element (classes s) with
    | inr predictions => inr predictions
    | inl message => inl message
    end.

(** What the checks of [handleStartTraining] and of [startTraining] come to
    together: a head, two classes or more, and three samples or more in
    every class. *)
Definition canStartTraining (s : PageState) : bool :=
  isSome (model (mlmodel (hook (world s))))
  && (2 <=? List.length (classes s))
  && forallb (fun cls => 3 <=? List.length (samples cls)) (classes s).

(** [totalSamples] of the `update model stats' effect:
    [classes.reduce((sum, cls) => sum + cls.samples.length, 0)] *)
Definition totalSamples (classes : list TrainingClass) : nat :=
  fold_left (fun sum cls => sum + List.length (samples cls)) classes 0.

(* ================================================================== *)
(** * What the page keeps *)
(* ================================================================== *)

(** What holds of the model record of the page at all times: a ready model
    has a head, and a head is built on the loaded base model, with the
    extractor cut from it, for two classes or more. *)
Definition model_inv (m : MLModel) : Prop :=
  (isReady m = true -> model m <> None) /\
  (forall h, model m = Some h ->
     baseModel m = Some (head_base h) /\ 2 <= head_units h /\
     head_extractor h = featureExtractor (head_base h)).

(** The head and the base model stay as they are. *)
Definition same_head (w w' : World) : Prop :=
  model (mlmodel (hook w')) = model (mlmodel (hook w)) /\
  baseModel (mlmodel (hook w')) = baseModel (mlmodel (hook w)).

(** The `create model' effect has seen the dependencies of the state. *)
Definition deps_seen (s : PageState) : Prop :=
  match effect_deps s with
  | Some seen => seen = (baseModel (mlmodel (hook (world s))), classes_ref s)
  | None => baseModel (mlmodel (hook (world s))) = None
  end.

(** With a base model and two classes or more, the head has one unit per
    class. *)
Definition head_fits (s : PageState) : Prop :=
  forall b, baseModel (mlmodel (hook (world s))) = Some b ->
            2 <= List.length (classes s) ->
            exists h, model (mlmodel (hook (world s))) = Some h /\
                      head_base h = b /\
                      head_units h = List.length (classes s).

(** An action that keeps the head and the base model, and does not set the
    status to ['completed']. *)
Definition quiet_step (w w' : World) : Prop :=
  same_head w w' /\
  (trainingStatus (hook w') = st_completed ->
   trainingStatus (hook w) = st_completed).

(** A procedure that returns with the model marked ready, whatever the
    model was. *)
Definition marks_ready (p : Proc unit) : Prop :=
  forall w,
    fst (run p w) = Done tt /\
    isReady (mlmodel (hook (snd (run p w)))) = true /\
    same_head w (snd (run p w)).

(** On every path, the status becomes ['completed'] only at the end of a
    part that marks the model ready. *)
Fixpoint completes_ready (p : Proc unit) : Prop :=
  match p with
  | Ret _ | Raise | Hang => True
  | Await k => completes_ready k
  | Act f k =>
      ((forall w, quiet_step w (snd (f w))) /\
       (forall b, completes_ready (k b)))
      \/ (sync p /\ marks_ready p)
  end.

(* ================================================================== *)
(** * Sessions: the page and the calls in flight *)
(* ================================================================== *)

(** The page together with the calls of [startTraining] that have been made
    and have not ended: of each, what is left to run. *)
Record Session := {
  page : PageState;
  inflight : list (Proc unit)
}.

(** What can happen in a session: an event of the page, where a training
    run is taken to its first [await] only; or what the call at position
    [i] awaits settles (an image has loaded, [model.fit] reports an epoch or
    ends), and the call takes its next turn. *)
Inductive Move :=
| Happens (env : Env) (ev : Event)
| Resumes (env : Env) (i : nat).

(** The list without its element at position [i]. *)
Definition without {A} (i : nat) (l : list A) : list A :=
  (firstn i l ++ skipn (S i) l)%list.

(** One turn of a call of [startTraining], followed by the effects of the
    render it causes.  What is left of the call stays in flight, after the
    [others]; a call that has ended, or that waits for ever, is dropped. *)
Definition takeTurn (env : Env) (p : Proc unit) (s : PageState)
    (others : list (Proc unit)) : Session :=
  match turn p (world s) with
  | (Suspended k, w') =>
      {| page := commit env (with_world (fun _ => w') s);
         inflight := (others ++ [k])%list |}
  | (Finished _, w') =>
      {| page := commit env (with_world (fun _ => w') s);
         inflight := others |}
  end.

(** [handleStartTraining(epochs)], the call of the hook taken to its first
    [await]. *)
Definition beginTraining (env : Env) (epochs : nat) (S : Session) : Session :=
  let s := page S in
  let classesWithSamples :=
    filter (fun cls => 0 <? List.length (samples cls)) (classes s) in
  if List.length classesWithSamples <? 2 then
    {| page := commit env (toast msg_two_classes s); inflight := inflight S |}
  else
    let minSamples :=
      match map (fun cls => List.length (samples cls)) classesWithSamples with
      | n :: ns => fold_right Nat.min n ns
      | [] => 0
      end in
    if minSamples <? 3 then
      {| page := commit env (toast msg_three_samples s);
         inflight := inflight S |}
    else
      takeTurn env
        (startTraining env (model (mlmodel (hook (world s)))) (classes s)
                       epochs)
        s (inflight S).

(** One move.  The other events of the page are taken as in [step], each
    with its call run to its end: after their [await], [loadBaseModel] sets
    the base model and [exportModel] the error, and nothing else. *)
Definition move (m : Move) (S : Session) : Session :=
  match m with
  | Happens env (EvStartTraining epochs) => beginTraining env epochs S
  | Happens env ev => {| page := step env ev (page S); inflight := inflight S |}
  | Resumes env i =>
      match nth_error (inflight S) i with
      | Some k => takeTurn env k (page S) (without i (inflight S))
      | None => S
      end
  end.

Fixpoint moves (ms : list Move) (S : Session) : Session :=
  match ms with
  | [] => S
  | m :: rest => moves rest (move m S)
  end.

(** The session when the page is first rendered: no call is in flight. *)
Definition initialSession : Session :=
  {| page := initialPage; inflight := [] |}.

Definition is_completed (s : TrainingStatus) : bool :=
  match s with st_completed => true | _ => false end.

(** The move is the turn in which a training run completes: a call in
    flight returns, and the status it leaves is ['completed'].  (A call
    never returns that way in its first turn: it has its images to wait
    for.) *)
Definition run_completes (m : Move) (S : Session) : bool :=
  match m with
  | Resumes env i =>
      match nth_error (inflight S) i with
      | Some k =>
          match turn k (world (page S)) with
          | (Finished (Done _), w') => is_completed (trainingStatus (hook w'))
          | _ => false
          end
      | None => false
      end
  | Happens _ _ => false
  end.

(** No move of the sequence is the turn in which a run completes. *)
Fixpoint no_run_completes (ms : list Move) (S : Session) : bool :=
  match ms with
  | [] => true
  | m :: rest => negb (run_completes m S) && no_run_completes rest (move m S)
  end.

(** A procedure that returns with the status ['completed']. *)
Definition ends_completed (p : Proc unit) : Prop :=
  forall w,
    fst (run p w) = Done tt /\
    trainingStatus (hook (snd (run p w))) = st_completed.

(** On every path, the model is marked ready only in a last part without
    [await], which returns with the status ['completed']. *)
Fixpoint ready_at_end (p : Proc unit) : Prop :=
  match p with
  | Ret _ | Raise | Hang => True
  | Await k => ready_at_end k
  | Act f k =>
      ((forall w, not_ready w (snd (f w))) /\
       (forall b, ready_at_end (k b)))
      \/ (sync p /\ ends_completed p)
  end.

(** The behaviour of the outside during a move. *)
Definition env_of (m : Move) : Env :=
  match m with
  | Happens env _ => env
  | Resumes env _ => env
  end.

(** What holds of a session at all times. *)
Definition session_inv (S : Session) : Prop :=
  page_wf (page S) /\ Forall ready_at_end (inflight S).

(** The head is one that [createTransferModel] returns. *)
Definition built (h : Head) : Prop :=
  h = {| head_base := head_base h;
         head_extractor := featureExtractor (head_base h);
         head_dropout := 2 # 10;
         head_units := head_units h;
         head_activation := "softmax" |}.

(** The head of the model record is one that [createTransferModel] returns,
    for two classes or more, on the base model of the record. *)
Definition heads_built (m : MLModel) : Prop :=
  forall h, model m = Some h ->
    built h /\ 2 <= head_units h /\ baseModel m = Some (head_base h).

(** What a session keeps besides [session_inv]: the heads are built ones,
    and no call in flight replaces the head or the base model. *)
Definition session_heads (S : Session) : Prop :=
  heads_built (mlmodel (hook (world (page S)))) /\
  Forall (always same_head) (inflight S).

(** ... and, as long as assembling the layers never throws, the head fits
    the class list. *)
Definition session_fits (S : Session) : Prop :=
  page_wf (page S) /\ deps_seen (page S) /\ head_fits (page S) /\
  Forall (always same_head) (inflight S).

(** The events of a page session as moves. *)
Definition asMoves (trace : list (Env * Event)) : list Move :=
  map (fun p => Happens (fst p) (snd p)) trace.

(** The trained session, the run taken turn by turn: nine [await]s lie
    between its first turn and its end. *)
Definition trainedMoves : list Move :=
  (asMoves trainedSession ++ repeat (Resumes quiet 0) 9)%list.

(** The trained session; then a second run is started, whose fit will
    reject, and gets as far as its third image. *)
Definition secondInFlight : list Move :=
  (trainedMoves
   ++ [Happens (envOf twoEpochs false) (EvStartTraining 2)]
   ++ repeat (Resumes quiet 0) 3)%list.

(** The first run of the trained session, as far as its third image. *)
Definition firstInFlight : list Move :=
  (asMoves trainedSession ++ repeat (Resumes quiet 0) 3)%list.

(* ================================================================== *)
(** * The forward pass of a softmax head *)
(* ================================================================== *)

(** The contract of the forward pass for a head that ends in a dense
    softmax layer: one value per unit, each a probability, and the values
    sum to 1 up to the rounding of float32 arithmetic. *)
Definition softmax_contract (K : Kernels) : Prop :=
  forall h t out,
    head_activation h = "softmax" -> 0 < head_units h ->
    layersPredict K h t = Some out ->
    List.length out = head_units h /\
    Forall (fun v => (0 <= v <= 1)%Q) out /\
    (Qabs (Qsum out - 1) <= 1 # 200)%Q.

(** A reference for the forward pass, which shows that the contract can be
    kept: unit [i] gets the weight [i + 1], and the weights are normalised
    as a softmax normalises its exponentials. *)
Definition normalise (weights : list Q) : list Q :=
  map (fun v => (v / Qsum weights)%Q) weights.

Definition referenceForward (h : Head) (t : Tensor) : option (list Q) :=
  Some (normalise (map (fun i => natQ (S i)) (seq 0 (head_units h)))).

Definition referenceKernels : Kernels :=
  {| resizeBilinear := bilinear; layersPredict := referenceForward |}.

(* ================================================================== *)
(** * The [PredictionDisplay] component *)
(* ================================================================== *)

(** [getClassColor(prediction)] *)
Definition getClassColor (classes : list TrainingClass) (prediction : Prediction)
  : string :=
  match find (fun cls => String.eqb (name cls) (className prediction)) classes with
  | Some matchingClass => color matchingClass
  | None => "bg-gray-400"
  end.

(** [predictions.length > 0 ? predictions[0] : null] *)
Definition topPrediction (predictions : list Prediction) : option Prediction :=
  match predictions with
  | p :: _ => Some p
  | [] => None
  end.

(* ================================================================== *)
(** * The [useWebcam] hook *)
(* ================================================================== *)

(** The state of the [useWebcam] hook and of what it holds on to: its three
    state variables, the stream in [streamRef.current], whether the video
    and canvas elements are mounted, the [srcObject] of the video, and the
    camera streams whose tracks have not been stopped.  A stream is the
    number of the [getUserMedia] call that made it. *)
Record Webcam := {
  wc_isActive : bool;
  wc_error : option string;
  wc_isSupported : bool;
  streamRef : option nat;
  videoElement : bool;
  canvasElement : bool;
  srcObject : option nat;
  tracksLive : list nat;
  next_stream : nat
}.

(** How [navigator.mediaDevices.getUserMedia] answers. *)
Inductive UserMedia :=
| NoMediaDevices                      (* the function is not there *)
| Granted                             (* resolves to a new stream *)
| Rejected (name message : string)    (* rejects with an [Error] *)
| RejectedOther.                      (* rejects with another value *)

Definition wc_setError (e : option string) (s : Webcam) : Webcam :=
  {| wc_isActive := wc_isActive s; wc_error := e;
     wc_isSupported := wc_isSupported s; streamRef := streamRef s;
     videoElement := videoElement s; canvasElement := canvasElement s;
     srcObject := srcObject s; tracksLive := tracksLive s;
     next_stream := next_stream s |}.

Definition wc_setIsActive (b : bool) (s : Webcam) : Webcam :=
  {| wc_isActive := b; wc_error := wc_error s;
     wc_isSupported := wc_isSupported s; streamRef := streamRef s;
     videoElement := videoElement s; canvasElement := canvasElement s;
     srcObject := srcObject s; tracksLive := tracksLive s;
     next_stream := next_stream s |}.

Definition wc_unsupported : string := "カメラがサポートされていません".
Definition wc_no_video : string :=
  "カメラの初期化に失敗しました。ページを再読み込みして再試行してください。".
Definition wc_not_allowed : string :=
  "カメラのアクセスが拒否されました。ブラウザでカメラの許可を有効にしてください。".
Definition wc_not_found : string :=
  "カメラが見つかりません。カメラが接続されているか確認してください。".
Definition wc_not_readable : string :=
  "カメラが他のアプリケーションで使用中です。他のアプリを閉じてから再試行してください。".
Definition wc_other_error (message : string) : string :=
  "カメラエラー: " ++ message.
Definition wc_unknown : string := "カメラの開始中に不明なエラーが発生しました。".

(** The [catch] block of [startWebcam]. *)
Definition webcamFailed (name message : string) (s : Webcam) : Webcam :=
  if String.eqb name "NotAllowedError" then wc_setError (Some wc_not_allowed) s
  else if String.eqb name "NotFoundError" then wc_setError (Some wc_not_found) s
  else if String.eqb name "NotReadableError" then
    wc_setError (Some wc_not_readable) s
  else wc_setError (Some (wc_other_error message)) s.

(** [startWebcam()], up to the point where the stream is attached to the
    video element; [isActive] is set later, by the handler of
    [onloadedmetadata]. *)
Definition startWebcam (answer : UserMedia) (s : Webcam) : Webcam :=
  if negb (wc_isSupported s) then wc_setError (Some wc_unsupported) s
  else
    let s := wc_setError None s in
    match answer with
    | NoMediaDevices => webcamFailed "Error" "getUserMedia not supported" s
    | Granted =>
        let stream := next_stream s in
        let s :=
          {| wc_isActive := wc_isActive s; wc_error := wc_error s;
             wc_isSupported := wc_isSupported s; streamRef := Some stream;
             videoElement := videoElement s; canvasElement := canvasElement s;
             srcObject := if videoElement s then Some stream else srcObject s;
             tracksLive := (tracksLive s ++ [stream])%list;
             next_stream := S (next_stream s) |} in
        if videoElement s then s else wc_setError (Some wc_no_video) s
    | Rejected name message => webcamFailed name message s
    | RejectedOther => wc_setError (Some wc_unknown) s
    end.

(** [stopWebcam()] *)
Definition stopWebcam (s : Webcam) : Webcam :=
  {| wc_isActive := false; wc_error := wc_error s;
     wc_isSupported := wc_isSupported s; streamRef := None;
     videoElement := videoElement s; canvasElement := canvasElement s;
     srcObject := if videoElement s then None else srcObject s;
     tracksLive :=
       match streamRef s with
       | Some stream => filter (fun t => negb (t =? stream)) (tracksLive s)
       | None => tracksLive s
       end;
     next_stream := next_stream s |}.

(** The hook when it mounts in a browser that has [getUserMedia]. *)
Definition mountedWebcam : Webcam :=
  {| wc_isActive := false; wc_error := None; wc_isSupported := true;
     streamRef := None; videoElement := true; canvasElement := true;
     srcObject := None; tracksLive := []; next_stream := 0 |}.

(** Every camera stream that runs is the one the hook holds. *)
Definition held (s : Webcam) : Prop :=
  forall stream, In stream (tracksLive s) -> streamRef s = Some stream.

(* ================================================================== *)
(** * Laws of procedures *)
(* ================================================================== *)

Lemma run_bind {A B} (p : Proc A) (g : A -> Proc B) (w : World) :
  run (bind p g) w =
  match run p w with
  | (Done a, w') => run (g a) w'
  | (Thrown, w') => (Thrown, w')
  | (Hung, w') => (Hung, w')
  end.
Proof.
  revert w; induction p as [a | | | k IH | C f k IH]; intro w; simpl; auto.
  destruct (f w) as [b w']. apply IH.
Qed.

Lemma run_try_catch {A} (p h : Proc A) (w : World) :
  run (try_catch p h) w =
  match run p w with
  | (Thrown, w') => run h w'
  | r => r
  end.
Proof.
  revert w; induction p as [a | | | k IH | C f k IH]; intro w; simpl; auto.
  destruct (f w) as [b w']. apply IH.
Qed.

(** A procedure without suspension ends within its first turn. *)
Lemma turn_sync {A} (p : Proc A) (w : World) :
  sync p -> turn p w = (Finished (fst (run p w)), snd (run p w)).
Proof.
  revert w; induction p as [a | | | k IH | C f k IH]; intro w; simpl;
    try tauto; try reflexivity.
  intro S. destruct (f w) as [b w']. apply IH, S.
Qed.

Section Always.
Context (R : World -> World -> Prop).
Hypothesis R_refl : forall w, R w w.
Hypothesis R_trans : forall a b c, R a b -> R b c -> R a c.

Lemma always_bind {A B} (p : Proc A) (g : A -> Proc B) :
  always R p -> (forall a, always R (g a)) -> always R (bind p g).
Proof.
  intros Hp Hg; induction p as [a | | | k IH | C f k IH]; simpl in *; auto.
  destruct Hp as [Hf Hk]. split; auto.
Qed.

Lemma always_try_catch {A} (p h : Proc A) :
  always R p -> always R h -> always R (try_catch p h).
Proof.
  intros Hp Hh; induction p as [a | | | k IH | C f k IH]; simpl in *; auto.
  destruct Hp as [Hf Hk]. split; auto.
Qed.

Lemma always_forM {A B} (l : list A) (f : A -> Proc B) :
  (forall x, always R (f x)) -> always R (forM l f).
Proof.
  intro Hf; induction l as [| x l IH]; simpl; auto.
  apply always_bind; auto. intro y.
  apply always_bind; auto. intro ys. exact I.
Qed.

Lemma always_forM_ {A} (l : list A) (f : A -> Proc unit) :
  (forall x, always R (f x)) -> always R (forM_ l f).
Proof.
  intro Hf; induction l as [| x l IH]; simpl; auto.
  apply always_bind; auto.
Qed.

Lemma always_run {A} (p : Proc A) (w : World) :
  always R p -> R w (snd (run p w)).
Proof.
  revert w; induction p as [a | | | k IH | C f k IH]; intro w; simpl; auto.
  intros [Hf Hk]. specialize (Hf w). destruct (f w) as [b w']; simpl in *.
  eapply R_trans; [exact Hf | apply IH, Hk].
Qed.

Lemma always_turn {A} (p : Proc A) (w : World) :
  always R p ->
  R w (snd (turn p w)) /\
  match fst (turn p w) with Suspended k => always R k | Finished _ => True end.
Proof.
  revert w; induction p as [a | | | k IH | C f k IH]; intro w; simpl; auto.
  intros [Hf Hk]. specialize (Hf w). destruct (f w) as [b w']; simpl in *.
  destruct (IH b w' (Hk b)) as [H1 H2]. split; auto.
  eapply R_trans; eauto.
Qed.

Lemma always_turns {A} (n : nat) (p : Proc A) (w : World) :
  always R p ->
  R w (snd (turns n p w)) /\
  match fst (turns n p w) with Suspended k => always R k | Finished _ => True end.
Proof.
  revert p w; induction n as [| n IH]; intros p w Hp; simpl; auto.
  destruct (always_turn p w Hp) as [H1 H2].
  destruct (turn p w) as [[o | k] w']; simpl in *; auto.
  destruct (IH k w' H2) as [H3 H4]. split; auto.
  eapply R_trans; eauto.
Qed.

(** Later turn boundaries are [R]-related to earlier ones. *)
Lemma always_between {A} (n d : nat) (p : Proc A) (w : World) :
  always R p -> R (snd (turns n p w)) (snd (turns (n + d) p w)).
Proof.
  revert p w; induction n as [| n IH]; intros p w Hp.
  - simpl. apply (always_turns d p w Hp).
  - simpl. destruct (always_turn p w Hp) as [_ H2].
    destruct (turn p w) as [[o | k] w']; simpl in *; auto.
Qed.
End Always.

(** ** Two procedures that take turns *)

Lemma interleave_app {A} (o1 o2 : list bool) (a b : Turn A) w :
  interleave (o1 ++ o2) a b w =
  let '(a', b', w') := interleave o1 a b w in interleave o2 a' b' w'.
Proof.
  revert a b w; induction o1 as [| [|] o1 IH]; intros a b w; simpl.
  - reflexivity.
  - destruct (resume b w) as [b' w']. apply IH.
  - destruct (resume a w) as [a' w']. apply IH.
Qed.

Lemma always_resume {A} (R : World -> World -> Prop) (t : Turn A) w :
  (forall w, R w w) -> (forall a b c, R a b -> R b c -> R a c) ->
  turn_always R t ->
  R w (snd (resume t w)) /\ turn_always R (fst (resume t w)).
Proof.
  intros Hr Ht H. destruct t as [o | k]; simpl.
  - split; [apply Hr | exact I].
  - apply (always_turn R Hr Ht k w H).
Qed.

(** What both procedures keep, every interleaving of their turns keeps. *)
Lemma always_interleave {A} (R : World -> World -> Prop)
    (order : list bool) (a b : Turn A) w :
  (forall w, R w w) -> (forall a b c, R a b -> R b c -> R a c) ->
  turn_always R a -> turn_always R b ->
  R w (snd (interleave order a b w)) /\
  turn_always R (fst (fst (interleave order a b w))) /\
  turn_always R (snd (fst (interleave order a b w))).
Proof.
  intros Hr Ht. revert a b w.
  induction order as [| [|] order IH]; intros a b w Ha Hb; simpl.
  - auto.
  - destruct (always_resume R b w Hr Ht Hb) as [H1 H2].
    destruct (resume b w) as [b' w']. simpl in H1, H2.
    destruct (IH a b' w' Ha H2) as (I1 & I2 & I3). eauto.
  - destruct (always_resume R a w Hr Ht Ha) as [H1 H2].
    destruct (resume a w) as [a' w']. simpl in H1, H2.
    destruct (IH a' b w' H2 Hb) as (I1 & I2 & I3). eauto.
Qed.

(** ** The relations are preorders *)

Lemma same_model_refl w : same_model w w.
Proof. reflexivity. Qed.
Lemma same_model_trans a b c : same_model a b -> same_model b c -> same_model a c.
Proof. unfold same_model; congruence. Qed.

Lemma run_frame_refl w : run_frame w w.
Proof. repeat split. Qed.
Lemma run_frame_trans a b c : run_frame a b -> run_frame b c -> run_frame a c.
Proof. unfold run_frame; intuition congruence. Qed.

Lemma history_grows_refl w : history_grows w w.
Proof. exists []. symmetry; apply app_nil_r. Qed.
Lemma history_grows_trans a b c :
  history_grows a b -> history_grows b c -> history_grows a c.
Proof.
  intros [m1 H1] [m2 H2]. exists (m1 ++ m2)%list.
  rewrite H2, H1. symmetry; apply app_assoc.
Qed.

Lemma not_ready_refl w : not_ready w w.
Proof. intro H; exact H. Qed.
Lemma not_ready_trans a b c : not_ready a b -> not_ready b c -> not_ready a c.
Proof. unfold not_ready; auto. Qed.

Lemma only_clock_refl w : only_clock w w.
Proof. repeat split. Qed.
Lemma only_clock_trans a b c : only_clock a b -> only_clock b c -> only_clock a c.
Proof. unfold only_clock; intuition congruence. Qed.

Lemma only_tensors_refl w : only_tensors w w.
Proof. unfold only_tensors. auto. Qed.
Lemma only_tensors_trans a b c :
  only_tensors a b -> only_tensors b c -> only_tensors a c.
Proof.
  unfold only_tensors. intros (A1 & A2 & A3) (B1 & B2 & B3).
  repeat split; try congruence. lia.
Qed.

Lemma keeps_clock_refl w : keeps_clock w w.
Proof. reflexivity. Qed.
Lemma keeps_clock_trans a b c :
  keeps_clock a b -> keeps_clock b c -> keeps_clock a c.
Proof. unfold keeps_clock; congruence. Qed.

Create HintDb frame.
#[local] Hint Resolve same_model_refl same_model_trans run_frame_refl
  run_frame_trans history_grows_refl history_grows_trans not_ready_refl
  not_ready_trans : frame.

(** ** Frames of the hook's building blocks *)

Ltac rel_leaf :=
  unfold same_model, run_frame, history_grows, not_ready, only_clock,
    only_tensors; simpl;
  first [ now auto
        | now (exists []; rewrite app_nil_r)
        | now (eexists; reflexivity)
        | now intuition congruence
        | now (repeat split; lia) ].

Ltac frame :=
  repeat (cbv beta; match goal with
  | |- always _ (bind _ _) => apply always_bind; [ | intro ]
  | |- always _ (try_catch _ _) => apply always_try_catch
  | |- always _ (forM _ _) => apply always_forM; intro
  | |- always _ (forM_ _ _) => apply always_forM_; intro
  | |- always _ (if ?c then _ else _) => destruct c
  | |- always _ (match ?c with _ => _ end) => destruct c
  | |- True => exact I
  | |- always _ (Ret _) => exact I
  | |- always _ Raise => exact I
  | |- always _ Hang => exact I
  | |- always _ (Await _) => simpl
  | |- always _ (Act _ _) => simpl; split; [intro; rel_leaf | intro]
  | |- always _ _ =>
      progress unfold setError, setModel, setTrainingStatus,
        setTrainingProgress, setTrainingHistory, clearError, tf, dispose,
        endScope, tidy, Date_now, setClock, modify, act, await, imageTensor,
        fit, trainModel, trainingFailed
  end).

(** If every action of [p] keeps [R], and [g] keeps it whenever it does not
    return, then so does [p] followed by [g]. *)
Lemma bind_fail_frame {A B} (R : World -> World -> Prop)
    (p : Proc A) (g : A -> Proc B) :
  (forall w, R w w) -> (forall a b c, R a b -> R b c -> R a c) ->
  always R p ->
  (forall a w, failed (fst (run (g a) w)) -> R w (snd (run (g a) w))) ->
  forall w, failed (fst (run (bind p g) w)) -> R w (snd (run (bind p g) w)).
Proof.
  intros Hr Ht Hp Hg w. rewrite run_bind.
  pose proof (always_run R Hr Ht p w Hp) as H.
  destruct (run p w) as [[a | |] w1]; simpl in *; auto.
  intro F. eapply Ht; [exact H | apply Hg, F].
Qed.

Lemma forM_done {A B} (l : list A) (f : A -> Proc B) :
  (forall x, In x l -> forall w, exists y, fst (run (f x) w) = Done y) ->
  forall w, exists ys,
    fst (run (forM l f) w) = Done ys /\ List.length ys = List.length l.
Proof.
  induction l as [| x l IH]; intros Hf w; simpl.
  - exists []. split; reflexivity.
  - rewrite run_bind.
    destruct (Hf x (or_introl eq_refl) w) as [y Hy].
    destruct (run (f x) w) as [o w1]. simpl in Hy. subst o.
    rewrite run_bind.
    destruct (IH (fun z Hz => Hf z (or_intror Hz)) w1) as [ys [Hys Hlen]].
    destruct (run (forM l f) w1) as [o w2]. simpl in Hys. subst o.
    simpl. exists (y :: ys). split; simpl; congruence.
Qed.

(* ================================================================== *)
(** * The parts of a training run *)
(* ================================================================== *)

Lemma filter_empty_nonempty (classes : list TrainingClass) :
  (exists cls, In cls classes /\ samples cls = []) ->
  (0 <? List.length
          (filter (fun cls => List.length (samples cls) =? 0) classes)) = true.
Proof.
  intros [cls [Hin Hs]]. apply Nat.ltb_lt.
  assert (In cls (filter (fun c => List.length (samples c) =? 0) classes)) as H.
  { apply filter_In. split; auto. rewrite Hs. reflexivity. }
  destruct (filter _ classes); [destruct H | simpl; lia].
Qed.

Lemma filter_empty_none (classes : list TrainingClass) :
  (forall cls, In cls classes -> samples cls <> []) ->
  filter (fun cls => List.length (samples cls) =? 0) classes = [].
Proof.
  intro H. induction classes as [| c l IH]; simpl; auto.
  destruct (samples c) eqn:E.
  - exfalso. apply (H c); simpl; auto.
  - simpl. apply IH. intros cls Hin. apply H. simpl; auto.
Qed.

(** With a head, two classes or more and no empty class, [startTraining] is
    its [try] statement. *)
Lemma startTraining_accepted env m classes epochs :
  2 <= List.length classes ->
  (forall cls, In cls classes -> samples cls <> []) ->
  startTraining env (Some m) classes epochs =
  try_catch (trainingRun env m classes epochs) trainingFailed.
Proof.
  intros H2 Hne. unfold startTraining.
  destruct (Nat.ltb_spec (List.length classes) 2) as [Hlt | _]; [lia |].
  rewrite filter_empty_none by assumption. reflexivity.
Qed.

Lemma loadImages_always R env i classes :
  (forall w t, R w (snd (run (setClock t) w))) ->
  always R (loadImages env i classes).
Proof.
  intro Hc. revert i; induction classes as [| c l IH]; intro i; simpl.
  - exact I.
  - apply always_bind.
    + apply always_forM. intro s. destruct (img_loads env (url s)); simpl; auto.
      repeat split; auto. intro w. apply (Hc w z).
    + intro here. apply always_bind; auto. intro; exact I.
Qed.

(** The data-preparation loop returns one image per sample when all images
    load, and moves nothing but the clock. *)
Lemma loadImages_done env i classes w :
  images_load env classes ->
  exists all,
    fst (run (loadImages env i classes) w) = Done all /\
    List.length all = total_samples classes.
Proof.
  revert i w; induction classes as [| c l IH]; intros i w Hload; simpl.
  - exists []. split; reflexivity.
  - rewrite run_bind.
    destruct (forM_done (samples c)
                (fun sample =>
                   match img_loads env (url sample) with
                   | Some t => await ;; setClock t ;; Ret (url sample, i)
                   | None => Hang
                   end)) with (w := w) as [here [Hhere Hlen]].
    { intros s Hs w0. specialize (Hload c s (or_introl eq_refl) Hs).
      destruct (img_loads env (url s)); [| congruence].
      simpl. eexists; reflexivity. }
    destruct (run (forM (samples c) _) w) as [o w1]. simpl in Hhere. subst o.
    rewrite run_bind.
    destruct (IH (S i) w1) as [others [Hothers Hlen']].
    { intros cls s Hc Hs. apply (Hload cls s); simpl; auto. }
    destruct (run (loadImages env (S i) l) w1) as [o w2].
    simpl in Hothers. subst o. simpl.
    exists (here ++ others)%list. split; [reflexivity |].
    unfold total_samples in *. simpl.
    rewrite !length_app. congruence.
Qed.

Lemma forM_awaitImage_done env i l w :
  (forall sample, In sample l -> img_loads env (url sample) <> None) ->
  fst (run (forM l (awaitImage env i)) w)
  = Done (map (fun sample => (url sample, i)) l).
Proof.
  revert w; induction l as [| s l IH]; intros w H; [reflexivity |].
  cbn [forM]. rewrite run_bind. unfold awaitImage at 1.
  destruct (img_loads env (url s)) as [t |] eqn:E;
    [| exfalso; apply (H s); simpl; auto].
  cbn [run await bind setClock modify act fst snd]. rewrite run_bind.
  match goal with |- context [run (forM l _) ?w1] =>
    specialize (IH w1 (fun x Hx => H x (or_intror Hx)));
    destruct (run (forM l (awaitImage env i)) w1) as [o w2] end.
  cbn [fst] in IH. subst o. reflexivity.
Qed.

Lemma forM_awaitImage_clock env i l w :
  (forall sample, In sample l -> img_loads env (url sample) <> None) ->
  clock (snd (run (forM l (awaitImage env i)) w))
  = fold_left (loadTime env) l (clock w).
Proof.
  revert w; induction l as [| s l IH]; intros w H; [reflexivity |].
  cbn [forM fold_left]. rewrite run_bind. unfold awaitImage at 1.
  unfold loadTime at 2.
  destruct (img_loads env (url s)) as [t |] eqn:E;
    [| exfalso; apply (H s); simpl; auto].
  cbn [run await bind setClock modify act fst snd]. rewrite run_bind.
  match goal with |- context [run (forM l _) ?w1] =>
    specialize (IH w1 (fun x Hx => H x (or_intror Hx)));
    destruct (run (forM l (awaitImage env i)) w1) as [[ys | |] w2] end;
    exact IH.
Qed.

Lemma loadImages_clock env i classes w :
  images_load env classes ->
  clock (snd (run (loadImages env i classes) w))
  = lastLoad env classes (clock w).
Proof.
  unfold lastLoad.
  revert i w; induction classes as [| c l IH]; intros i w Hload;
    [reflexivity |].
  cbn [loadImages flat_map]. fold (awaitImage env i).
  rewrite fold_left_app, run_bind.
  pose proof (forM_awaitImage_clock env i (samples c) w
                (fun s Hs => Hload c s (or_introl eq_refl) Hs)) as Hc.
  pose proof (forM_awaitImage_done env i (samples c) w
                (fun s Hs => Hload c s (or_introl eq_refl) Hs)) as Hd.
  destruct (run (forM (samples c) _) w) as [o w1]. cbn [fst snd] in Hc, Hd.
  subst o. rewrite <- Hc. rewrite run_bind.
  specialize (IH (S i) w1 (fun cls s Hc' Hs => Hload cls s (or_intror Hc') Hs)).
  destruct (run (loadImages env (S i) l) w1) as [[others | |] w2]; exact IH.
Qed.

Lemma imageTensor_keeps_clock env : always keeps_clock (imageTensor env).
Proof.
  unfold imageTensor, tidy, tf.
  destruct (tf_throws env FromPixels), (tf_throws env ResizeBilinear),
    (tf_throws env Cast), (tf_throws env Div); simpl;
    repeat split; intros; exact I.
Qed.

Lemma loadImages_only_clock env i classes :
  always only_clock (loadImages env i classes).
Proof. apply loadImages_always. intros; rel_leaf. Qed.

Lemma imageTensor_done env w :
  pipeline_throws env = false ->
  exists t, fst (run (imageTensor env) w) = Done t.
Proof.
  unfold pipeline_throws. intro H.
  repeat (apply orb_false_iff in H; destruct H as [H ?]).
  unfold imageTensor, tidy, tf.
  repeat match goal with E : tf_throws env _ = false |- _ =>
    rewrite E; clear E end.
  simpl. eexists; reflexivity.
Qed.

Lemma imageTensor_thrown env w :
  pipeline_throws env = true -> fst (run (imageTensor env) w) = Thrown.
Proof.
  unfold pipeline_throws, imageTensor, tidy, tf.
  destruct (tf_throws env FromPixels), (tf_throws env ResizeBilinear),
    (tf_throws env Cast), (tf_throws env Div); simpl;
    try discriminate; reflexivity.
Qed.

Lemma imageTensor_only_tensors env : always only_tensors (imageTensor env).
Proof. frame. Qed.

Lemma tf_done env op w :
  tf_throws env op = false -> run (tf env op) w = (Done (next_tid w), snd (allocate op w)).
Proof. intro H. unfold tf. rewrite H. reflexivity. Qed.

Lemma tf_thrown env op w :
  tf_throws env op = true -> run (tf env op) w = (Thrown, w).
Proof. intro H. unfold tf. rewrite H. reflexivity. Qed.

(** The epochs reported by [model.fit], as [startTraining] records them:
    each call that comes with logs appends its record to the stream and its
    entry to the history; nothing else moves but the clock. *)
Lemma fit_loop_done epochs startTime n (trace : list FitEvent) w :
  let body := fun ev : FitEvent =>
    await ;; setClock (fe_now ev) ;;
    match Some (onEpoch epochs startTime n), fe_logs ev with
    | Some cb, Some l => cb (fe_epoch ev) (logs_loss l) (logs_acc l)
    | _, _ => Ret tt
    end in
  let records := map (progress_of epochs startTime n) (reported trace) in
  let r := run (forM_ trace body) w in
  fst r = Done tt /\
  progress_stream (snd r) = (progress_stream w ++ records)%list /\
  trainingHistory (hook (snd r)) =
    (trainingHistory (hook w) ++ map entry_of records)%list /\
  run_frame w (snd r) /\
  live (snd r) = live w.
Proof.
  intros body records r. subst records r.
  revert w; induction trace as [| ev l IH]; intro w.
  - simpl. rewrite !app_nil_r. repeat split.
  - cbn [forM_]. rewrite run_bind. unfold reported. cbn [filter].
    fold (reported l).
    destruct (fe_logs ev) as [lg |] eqn:Elogs; cbn [isSome].
    + assert (run (body ev) w =
              (Done tt,
               {| hook :=
                    {| isInitialized := isInitialized (hook w);
                       mlmodel := mlmodel (hook w);
                       trainingStatus := trainingStatus (hook w);
                       trainingProgress :=
                         Some (progress_of epochs startTime n ev);
                       trainingHistory :=
                         (trainingHistory (hook w)
                          ++ [entry_of (progress_of epochs startTime n ev)])%list;
                       error := error (hook w) |};
                  live := live w; next_tid := next_tid w; clock := fe_now ev;
                  progress_stream :=
                    (progress_stream w
                     ++ [progress_of epochs startTime n ev])%list |})) as E.
      { subst body. unfold progress_of, entry_of. cbv beta.
        rewrite Elogs. reflexivity. }
      rewrite E. clear E.
      match goal with |- context [run (forM_ l body) ?w1] =>
        destruct (IH w1) as (H1 & H2 & H3 & H4 & H5) end.
      simpl in *. rewrite H1, H2, H3, H5. rewrite <- !app_assoc.
      repeat split; apply H4.
    + assert (run (body ev) w =
              (Done tt,
               {| hook := hook w; live := live w; next_tid := next_tid w;
                  clock := fe_now ev;
                  progress_stream := progress_stream w |})) as E.
      { subst body. cbv beta. rewrite Elogs. reflexivity. }
      rewrite E. clear E.
      match goal with |- context [run (forM_ l body) ?w1] =>
        destruct (IH w1) as (H1 & H2 & H3 & H4 & H5) end.
      simpl in *. rewrite H1, H2, H3, H5. repeat split; apply H4.
Qed.

(** [trainModel] with the callback of [startTraining]: it ends as
    [model.fit] does, after the reported epochs have been recorded. *)
Lemma trainModel_run env m xs ys epochs startTime n w :
  let records := map (progress_of epochs startTime n) (reported (fit_trace env epochs)) in
  let r := run (trainModel env m xs ys epochs
                  (Some (onEpoch epochs startTime n))) w in
  fst r = (if fit_ok env then Done tt else Thrown) /\
  progress_stream (snd r) = (progress_stream w ++ records)%list /\
  trainingHistory (hook (snd r)) =
    (trainingHistory (hook w) ++ map entry_of records)%list /\
  run_frame w (snd r) /\
  live (snd r) = live w.
Proof.
  intros records r. subst records r. unfold trainModel, fit.
  rewrite run_bind. cbv beta.
  pose proof (fit_loop_done epochs startTime n (fit_trace env epochs) w) as F.
  cbv zeta in F.
  match goal with |- context [run (forM_ (fit_trace env epochs) ?b) w] =>
    destruct (run (forM_ (fit_trace env epochs) b) w) as [o w9] end.
  destruct F as (H1 & H2 & H3 & H4 & H5). simpl in H1. subst o.
  destruct (fit_ok env); simpl; auto.
Qed.

(** When every image loads and no tensor call throws, the [try] block gets
    to [trainModel] with the model, the stream and the history untouched,
    and the time it reads as [startTime] is the time at which the last
    image has loaded. *)
Lemma trainingSteps_to_fit_at env m classes epochs w :
  images_load env classes ->
  (forall op, tf_throws env op = false) ->
  exists w5,
    only_tensors w w5 /\
    run (trainingSteps env m classes epochs) w =
    match run (trainModel env m (next_tid w5) (S (S (next_tid w5))) epochs
                 (Some (onEpoch epochs (clock w5) (total_samples classes))))
              (batched w5) with
    | (Done _, w9) =>
        run (cleanupAndMarkReady (next_tid w5) (S (S (next_tid w5)))) w9
    | (Thrown, w9) => (Thrown, w9)
    | (Hung, w9) => (Hung, w9)
    end /\
    clock w5 = lastLoad env classes (clock w).
Proof.
  intros Hload Htf. unfold trainingSteps.
  (* the images *)
  destruct (loadImages_done env 0 classes w Hload) as [all [Hall Hlen]].
  pose proof (always_run only_clock only_clock_refl only_clock_trans
                _ w (loadImages_only_clock env 0 classes)) as F4.
  pose proof (loadImages_clock env 0 classes w Hload) as C4.
  rewrite run_bind.
  destruct (run (loadImages env 0 classes) w) as [o w4].
  simpl in Hall, F4, C4. subst o.
  (* their tensors *)
  assert (pipeline_throws env = false) as Hp
    by (unfold pipeline_throws; rewrite !Htf; reflexivity).
  destruct (forM_done (map fst all) (fun _ => imageTensor env)
              (fun _ _ w0 => imageTensor_done env w0 Hp) w4) as [ts [Hts _]].
  pose proof (always_run only_tensors only_tensors_refl only_tensors_trans
                _ w4 (always_forM only_tensors (map fst all)
                        (fun _ => imageTensor env)
                        (fun _ => imageTensor_only_tensors env))) as F5.
  pose proof (always_run keeps_clock keeps_clock_refl keeps_clock_trans
                _ w4 (always_forM keeps_clock (map fst all)
                        (fun _ => imageTensor env)
                        (fun _ => imageTensor_keeps_clock env))) as C5.
  rewrite run_bind.
  destruct (run (forM (map fst all) _) w4) as [o w5].
  simpl in Hts, F5, C5. subst o.
  exists w5. split; [| split].
  { destruct F4 as (A & _ & N & B). destruct F5 as (C & D & M).
    repeat split; congruence. }
  - (* xs, labels, ys, startTime *)
    do 3 (rewrite run_bind, tf_done by apply Htf).
    rewrite run_bind. cbn [run Date_now act fst snd].
    rewrite run_bind. rewrite length_map, Hlen.
    reflexivity.
  - unfold keeps_clock in C5. congruence.
Qed.

Lemma trainingSteps_to_fit env m classes epochs w :
  images_load env classes ->
  (forall op, tf_throws env op = false) ->
  exists w5,
    only_tensors w w5 /\
    run (trainingSteps env m classes epochs) w =
    match run (trainModel env m (next_tid w5) (S (S (next_tid w5))) epochs
                 (Some (onEpoch epochs (clock w5) (total_samples classes))))
              (batched w5) with
    | (Done _, w9) =>
        run (cleanupAndMarkReady (next_tid w5) (S (S (next_tid w5)))) w9
    | (Thrown, w9) => (Thrown, w9)
    | (Hung, w9) => (Hung, w9)
    end.
Proof.
  intros Hload Htf.
  destruct (trainingSteps_to_fit_at env m classes epochs w Hload Htf)
    as (w5 & H & E & _).
  exists w5. split; assumption.
Qed.

(** A run that meets no fault, up to the point where it has ended. *)
Lemma trainingRun_completes env m classes epochs w :
  images_load env classes ->
  (forall op, tf_throws env op = false) ->
  fit_completes env epochs ->
  let records :=
    map (progress_of epochs (lastLoad env classes (clock w))
           (total_samples classes))
        (fit_trace env epochs) in
  let r := run (trainingRun env m classes epochs) w in
  fst r = Done tt /\
  trainingStatus (hook (snd r)) = st_completed /\
  isReady (mlmodel (hook (snd r))) = true /\
  error (hook (snd r)) = None /\
  progress_stream (snd r) = (progress_stream w ++ records)%list /\
  trainingHistory (hook (snd r)) = map entry_of records.
Proof.
  intros Hload Htf (Hseq & Hlogs & Hok).
  unfold trainingRun.
  do 3 (rewrite run_bind; cbn [run setTrainingStatus setError
                               setTrainingHistory modify act fst snd]).
  set (w3 := with_hook _ (with_hook _ (with_hook _ w))).
  destruct (trainingSteps_to_fit_at env m classes epochs w3 Hload Htf)
    as (w5 & (F5h & F5s & _) & E & C).
  rewrite E. clear E. change (clock w3) with (clock w) in C. rewrite <- C.
  match goal with |- context [run (trainModel env m ?xs ?ys epochs ?cb) ?w8] =>
    pose proof (trainModel_run env m xs ys epochs (clock w5)
                  (total_samples classes) w8) as F;
    cbv zeta in F;
    destruct (run (trainModel env m xs ys epochs cb) w8) as [o w9]
  end.
  destruct F as (H1 & H2 & H3 & (H4 & H5 & H6) & H7).
  simpl in H1, H2, H3, H4, H5, H6, H7.
  rewrite Hok in H1. subst o.
  assert (reported (fit_trace env epochs) = fit_trace env epochs) as Hrep.
  { unfold reported. clear - Hlogs.
    induction Hlogs as [| ev l Hev _ IH]; simpl; auto.
    destruct (fe_logs ev); [simpl; congruence | congruence]. }
  rewrite Hrep in *.
  simpl. rewrite H2, H3, H6, F5s, F5h. subst w3. simpl.
  repeat split.
Qed.

(** A run in which [model.fit] rejects: the [try] block throws, and the
    stacked tensor and the one-hot tensor made for the run are allocated
    when it does. *)
Lemma trainingRun_fit_rejects env m classes epochs w :
  images_load env classes ->
  (forall op, tf_throws env op = false) ->
  fit_ok env = false ->
  let r := run (trainingRun env m classes epochs) w in
  fst r = Thrown /\
  exists xs ys,
    next_tid w <= xs /\ next_tid w <= ys /\
    In {| tid := xs; producer := Stack |} (live (snd r)) /\
    In {| tid := ys; producer := OneHot |} (live (snd r)).
Proof.
  intros Hload Htf Hok r. subst r.
  unfold trainingRun.
  do 3 (rewrite run_bind; cbn [run setTrainingStatus setError
                               setTrainingHistory modify act fst snd]).
  set (w3 := with_hook _ (with_hook _ (with_hook _ w))).
  destruct (trainingSteps_to_fit env m classes epochs w3 Hload Htf)
    as (w5 & (_ & _ & Hmono) & E).
  rewrite E. clear E.
  match goal with |- context [run (trainModel env m ?xs ?ys epochs ?cb) ?w8] =>
    pose proof (trainModel_run env m xs ys epochs (clock w5)
                  (total_samples classes) w8) as F;
    cbv zeta in F;
    destruct (run (trainModel env m xs ys epochs cb) w8) as [o w9]
  end.
  destruct F as (H1 & _ & _ & _ & H7). simpl in H1, H7.
  rewrite Hok in H1. subst o. simpl. split; [reflexivity |].
  exists (next_tid w5), (S (S (next_tid w5))).
  change (next_tid w3) with (next_tid w) in Hmono.
  rewrite H7. unfold batched, allocate. cbn [snd live next_tid].
  repeat split; try lia; rewrite !in_app_iff; simpl; auto.
Qed.

(** A run in which a tensor-producing call throws: the [try] block
    throws. *)
Lemma trainingRun_tensor_call_throws env m classes epochs w :
  images_load env classes ->
  0 < total_samples classes ->
  (exists op, tf_throws env op = true) ->
  fst (run (trainingRun env m classes epochs) w) = Thrown.
Proof.
  intros Hload Hpos [op Hop].
  unfold trainingRun.
  do 3 (rewrite run_bind; cbn [run setTrainingStatus setError
                               setTrainingHistory modify act fst snd]).
  set (w3 := with_hook _ (with_hook _ (with_hook _ w))).
  unfold trainingSteps.
  destruct (loadImages_done env 0 classes w3 Hload) as [all [Hall Hlen]].
  rewrite run_bind.
  destruct (run (loadImages env 0 classes) w3) as [o w4].
  simpl in Hall. subst o.
  rewrite run_bind.
  destruct (pipeline_throws env) eqn:Hp.
  - (* the pipeline of the first image throws *)
    destruct all as [| a all]; [simpl in Hlen; lia |].
    cbn [map forM]. rewrite run_bind.
    pose proof (imageTensor_thrown env w4 Hp) as Ht.
    destruct (run (imageTensor env) w4) as [o w5]. simpl in Ht. subst o.
    reflexivity.
  - destruct (forM_done (map fst all) (fun _ => imageTensor env)
                (fun _ _ w0 => imageTensor_done env w0 Hp) w4) as [ts [Hts _]].
    destruct (run (forM (map fst all) _) w4) as [o w5].
    simpl in Hts. subst o.
    rewrite run_bind.
    destruct (tf_throws env Stack) eqn:H1;
      [rewrite tf_thrown by assumption; reflexivity |].
    rewrite tf_done by assumption. rewrite run_bind.
    destruct (tf_throws env Tensor1d) eqn:H2;
      [rewrite tf_thrown by assumption; reflexivity |].
    rewrite tf_done by assumption. rewrite run_bind.
    destruct (tf_throws env OneHot) eqn:H3;
      [rewrite tf_thrown by assumption; reflexivity |].
    exfalso. unfold pipeline_throws in Hp.
    repeat (apply orb_false_iff in Hp; destruct Hp as [Hp ?]).
    destruct op; congruence.
Qed.

(** The [try] block of a run whose images all load throws when a
    tensor-producing call throws or [model.fit] rejects. *)
Lemma trainingRun_throws env m classes epochs w :
  images_load env classes ->
  0 < total_samples classes ->
  (exists op, tf_throws env op = true) \/ fit_ok env = false ->
  fst (run (trainingRun env m classes epochs) w) = Thrown.
Proof.
  intros Hload Hpos H.
  destruct (pipeline_throws env || tf_throws env Stack
            || tf_throws env Tensor1d || tf_throws env OneHot) eqn:E.
  - apply trainingRun_tensor_call_throws; auto.
    unfold pipeline_throws in E.
    repeat (apply orb_true_iff in E; destruct E as [E | E]); eauto.
  - destruct H as [[op Hop] | Hok].
    + apply trainingRun_tensor_call_throws; eauto.
    + apply trainingRun_fit_rejects; auto.
      unfold pipeline_throws in E.
      repeat (apply orb_false_iff in E; destruct E as [E ?]).
      intro op; destruct op; assumption.
Qed.

(** A training run that does not complete leaves the model record as it
    found it. *)
Lemma trainingRun_fail_frame env m classes epochs w :
  failed (fst (run (trainingRun env m classes epochs) w)) ->
  same_model w (snd (run (trainingRun env m classes epochs) w)).
Proof.
  revert w. unfold trainingRun, trainingSteps.
  repeat (apply (bind_fail_frame same_model);
          [ exact same_model_refl | exact same_model_trans
          | first [ apply loadImages_always; intros; rel_leaf
                  | now frame
                  | frame; unfold onEpoch; now frame ]
          | intro ]).
  intros w F. simpl in F. contradiction.
Qed.

(** After the history has been reset, no action of a run shortens or
    rewrites it. *)
Lemma trainingSteps_history_grows env m classes epochs :
  always history_grows
    (try_catch (trainingSteps env m classes epochs) trainingFailed).
Proof.
  unfold trainingSteps.
  apply always_try_catch; [| now frame].
  apply always_bind; [apply loadImages_always; intros; rel_leaf | intro].
  frame. unfold onEpoch. frame.
Qed.

(** The first turn of an accepted call goes through the reset and on. *)
Lemma startTraining_turns env m classes epochs w n :
  2 <= List.length classes ->
  (forall cls, In cls classes -> samples cls <> []) ->
  turns (S n) (startTraining env (Some m) classes epochs) w =
  turns (S n) (try_catch (trainingSteps env m classes epochs) trainingFailed)
    (snd (run (setTrainingStatus st_training ;; setError None ;;
               setTrainingHistory (fun _ => [])) w)).
Proof.
  intros H2 Hne. rewrite startTraining_accepted by assumption. reflexivity.
Qed.

(** An accepted call whose [model.fit] rejects returns in the error state
    with the stacked tensor and the one-hot tensor of the run still
    allocated. *)
Lemma startTraining_leaks_when_fit_rejects env m classes epochs w :
  2 <= List.length classes ->
  (forall cls, In cls classes -> samples cls <> []) ->
  images_load env classes ->
  (forall op, tf_throws env op = false) ->
  fit_ok env = false ->
  let r := run (startTraining env (Some m) classes epochs) w in
  fst r = Done tt /\
  trainingStatus (hook (snd r)) = st_error /\
  exists xs ys,
    next_tid w <= xs /\ next_tid w <= ys /\
    In {| tid := xs; producer := Stack |} (live (snd r)) /\
    In {| tid := ys; producer := OneHot |} (live (snd r)).
Proof.
  intros H2 Hne Hload Htf Hok r. subst r.
  rewrite startTraining_accepted by assumption. rewrite run_try_catch.
  destruct (trainingRun_fit_rejects env m classes epochs w Hload Htf Hok)
    as (Ht & xs & ys & Hx & Hy & Ix & Iy).
  destruct (run (trainingRun env m classes epochs) w) as [o w1].
  simpl in Ht, Ix, Iy. subst o. simpl.
  split; [reflexivity |]. split; [reflexivity |].
  exists xs, ys. auto.
Qed.

(* ================================================================== *)
(** * C1: a second [startTraining] while a run is in flight *)
(* ================================================================== *)

(** C1 (amended).  [startTraining] does not consult the training status.
    Called while the status is ['training'], with a head, two classes or
    more and no empty class, it is accepted like any other call: within its
    first turn it sets the status to ['training'], clears the error and
    empties the training history, and it then waits for its first image
    (for ever if that image never loads).  Nothing else changes in that
    turn. *)
Theorem C1_second_start_is_accepted env m classes epochs w :
  trainingStatus (hook w) = st_training ->
  2 <= List.length classes ->
  (forall cls, In cls classes -> samples cls <> []) ->
  let r := turn (startTraining env (Some m) classes epochs) w in
  match fst r with
  | Suspended _ | Finished Hung => True
  | Finished _ => False
  end /\
  hook (snd r) =
    {| isInitialized := isInitialized (hook w);
       mlmodel := mlmodel (hook w);
       trainingStatus := st_training;
       trainingProgress := trainingProgress (hook w);
       trainingHistory := [];
       error := None |} /\
  live (snd r) = live w /\
  next_tid (snd r) = next_tid w /\
  progress_stream (snd r) = progress_stream w.
Proof.
  intros _ H2 Hne r. subst r.
  rewrite startTraining_accepted by assumption.
  destruct classes as [| c rest]; [simpl in H2; lia |].
  assert (samples c <> []) as Hc by (apply Hne; simpl; auto).
  unfold trainingRun, trainingSteps. simpl.
  destruct (samples c) as [| s ss]; [congruence |]. simpl.
  destruct (img_loads env (url s)); simpl; repeat split.
Qed.

Lemma C1_second_start_is_accepted_witness :
  let w := snd (interleave untilFirstEpoch (Suspended firstRun)
                           (Suspended secondRun) builtWorld) in
  let r := turn secondRun w in
  match fst r with
  | Suspended _ | Finished Hung => True
  | Finished _ => False
  end /\
  hook (snd r) =
    {| isInitialized := isInitialized (hook w);
       mlmodel := mlmodel (hook w);
       trainingStatus := st_training;
       trainingProgress := trainingProgress (hook w);
       trainingHistory := [];
       error := None |} /\
  live (snd r) = live w /\
  next_tid (snd r) = next_tid w /\
  progress_stream (snd r) = progress_stream w.
Proof.
  apply (C1_second_start_is_accepted (envOf [] false) (demoHead 2)
           [cats; dogs] 2
           (snd (interleave untilFirstEpoch (Suspended firstRun)
                            (Suspended secondRun) builtWorld))).
  - vm_compute; reflexivity.
  - simpl; lia.
  - intros cls [H | [H | []]]; subst cls; discriminate.
Defined.

(** C1 as stated fails.  A run for two epochs is in flight and has reported
    its first epoch; [startTraining] is called again.  The call is not
    rejected: it suspends with the status still ['training'] and no error,
    and it has emptied the history of the run in flight.  When both calls
    have ended, the history holds the second epoch only, where the first run
    alone leaves both epochs. *)
Lemma C1_counterexample :
  let at_ order := interleave order (Suspended firstRun) (Suspended secondRun)
                              builtWorld in
  let e1 := historyEntry 1 (7 # 10) ((1 # 2) * 100) in
  let e2 := historyEntry 2 (4 # 10) ((3 # 4) * 100) in
  (* the run in flight, before the second call *)
  trainingStatus (hook (snd (at_ untilFirstEpoch))) = st_training /\
  trainingHistory (hook (snd (at_ untilFirstEpoch))) = [e1] /\
  (* the first turn of the second call *)
  (exists a b, fst (at_ thenSecondCall) = (Suspended a, Suspended b)) /\
  trainingStatus (hook (snd (at_ thenSecondCall))) = st_training /\
  error (hook (snd (at_ thenSecondCall))) = None /\
  trainingHistory (hook (snd (at_ thenSecondCall))) = [] /\
  (* both calls at their end *)
  fst (at_ toTheEnd) = (Finished (Done tt), Finished (Done tt)) /\
  trainingHistory (hook (snd (at_ toTheEnd))) = [e2] /\
  trainingHistory (hook (snd (run firstRun builtWorld))) = [e1; e2].
Proof.
  intros at_ e1 e2. subst at_ e1 e2.
  repeat split; try (vm_compute; reflexivity).
  vm_compute. eexists. eexists. reflexivity.
Qed.

(* ================================================================== *)
(** * C2: the tensors of a run that fails *)
(* ================================================================== *)

(** C2 fails on the code.  When [model.fit] rejects, the [catch] block runs
    and the two [dispose] calls after [trainModel] are skipped: the stacked
    input tensor and the one-hot label tensor of the run stay allocated.
    (Two classes of three samples: the run allocates the handles 0 to 26,
    [xs] is 24 and [ys] is 26.)  When the same run completes, both are
    disposed. *)
Lemma C2_tensors_leak_when_fit_rejects :
  let failing := run (startTraining (envOf twoEpochs false)
                        (Some (demoHead 2)) [cats; dogs] 2) builtWorld in
  let passing := run (startTraining (envOf twoEpochs true)
                        (Some (demoHead 2)) [cats; dogs] 2) builtWorld in
  fst failing = Done tt /\
  trainingStatus (hook (snd failing)) = st_error /\
  live_of Stack (snd failing) = [24] /\
  live_of OneHot (snd failing) = [26] /\
  fst passing = Done tt /\
  trainingStatus (hook (snd passing)) = st_completed /\
  live_of Stack (snd passing) = [] /\
  live_of OneHot (snd passing) = [].
Proof. vm_compute. repeat split. Qed.

(** The same when [tf.oneHot] throws after [tf.stack] has returned: the
    stacked tensor stays allocated. *)
Lemma C2_stack_leaks_when_oneHot_throws :
  let env :=
    {| img_loads := fun _ => Some 10%Z;
       tf_throws := fun op => TensorOp_eqb op OneHot;
       fit_trace := fun _ => []; fit_ok := true; layers_throw := false;
       load_result := Loaded demoBase; save_ok := true |} in
  let r := run (startTraining env (Some (demoHead 2)) [cats; dogs] 2)
               builtWorld in
  fst r = Done tt /\
  trainingStatus (hook (snd r)) = st_error /\
  live_of Stack (snd r) = [24].
Proof. vm_compute. repeat split. Qed.

(* ================================================================== *)
(** * C3: a failed run ends in the error state and keeps readiness *)
(* ================================================================== *)

(** C3.  When the [try] block of an accepted [startTraining] throws (during
    data preparation, tensor creation or [model.fit]), the call returns with
    the status ['error'] and the one message [msg_training_failed], and the
    model record, its [isReady] flag included, is what it was before the
    call. *)
Theorem C3_failed_run_keeps_readiness env m classes epochs w :
  2 <= List.length classes ->
  (forall cls, In cls classes -> samples cls <> []) ->
  fst (run (trainingRun env m classes epochs) w) = Thrown ->
  let r := run (startTraining env (Some m) classes epochs) w in
  fst r = Done tt /\
  trainingStatus (hook (snd r)) = st_error /\
  error (hook (snd r)) = Some msg_training_failed /\
  isReady (mlmodel (hook (snd r))) = isReady (mlmodel (hook w)) /\
  mlmodel (hook (snd r)) = mlmodel (hook w).
Proof.
  intros H2 Hne Hthrown r. subst r.
  rewrite startTraining_accepted by assumption.
  rewrite run_try_catch.
  pose proof (trainingRun_fail_frame env m classes epochs w) as F.
  destruct (run (trainingRun env m classes epochs) w) as [o w1].
  simpl in Hthrown. subst o. simpl in F. specialize (F I).
  unfold same_model in F. simpl. rewrite <- F. repeat split.
Qed.

(** The fit of the witness below rejects after one reported epoch. *)
Lemma C3_failed_run_keeps_readiness_witness :
  let env := envOf [{| fe_epoch := 0; fe_logs := logsOf (7 # 10) (1 # 2);
                       fe_now := 1510 |}] false in
  let r := run (startTraining env (Some (demoHead 2)) [cats; dogs] 5)
               builtWorld in
  fst r = Done tt /\
  trainingStatus (hook (snd r)) = st_error /\
  error (hook (snd r)) = Some msg_training_failed /\
  isReady (mlmodel (hook (snd r))) = isReady (mlmodel (hook builtWorld)) /\
  mlmodel (hook (snd r)) = mlmodel (hook builtWorld).
Proof.
  apply (C3_failed_run_keeps_readiness
           (envOf [{| fe_epoch := 0; fe_logs := logsOf (7 # 10) (1 # 2);
                      fe_now := 1510 |}] false)
           (demoHead 2) [cats; dogs] 5 builtWorld).
  - simpl; lia.
  - intros cls [H | [H | []]]; subst cls; discriminate.
  - vm_compute; reflexivity.
Defined.

(* ================================================================== *)
(** * C6: an empty class stops [startTraining] before any tensor work *)
(* ================================================================== *)

(** C6 (amended).  When some class has no sample, [startTraining] returns in
    its first turn without suspending; it allocates no tensor, emits no
    progress record, and leaves status, history and model as they were.  The
    error it sets names the empty classes when a head exists and there are
    two classes or more, and is [msg_not_ready] otherwise. *)
Theorem C6_empty_class_fails_fast env model_model classes epochs w :
  (exists cls, In cls classes /\ samples cls = []) ->
  let p := startTraining env model_model classes epochs in
  let w' := snd (run p w) in
  turn p w = (Finished (Done tt), w') /\
  live w' = live w /\
  next_tid w' = next_tid w /\
  progress_stream w' = progress_stream w /\
  trainingStatus (hook w') = trainingStatus (hook w) /\
  trainingHistory (hook w') = trainingHistory (hook w) /\
  trainingProgress (hook w') = trainingProgress (hook w) /\
  mlmodel (hook w') = mlmodel (hook w) /\
  error (hook w') = Some (empty_class_error model_model classes).
Proof.
  intros Hempty p w'. subst p w'.
  unfold startTraining, empty_class_error.
  destruct model_model as [m |]; [| repeat split].
  rewrite Nat.ltb_antisym. cbn [isSome andb].
  destruct (2 <=? List.length classes); cbn [negb]; [| repeat split].
  rewrite (filter_empty_nonempty classes Hempty). repeat split.
Qed.

Lemma C6_empty_class_fails_fast_witness :
  let p := startTraining (envOf twoEpochs true) (Some (demoHead 3))
                         [cats; birds; dogs] 5 in
  let w' := snd (run p builtWorld) in
  turn p builtWorld = (Finished (Done tt), w') /\
  live w' = live builtWorld /\
  next_tid w' = next_tid builtWorld /\
  progress_stream w' = progress_stream builtWorld /\
  trainingStatus (hook w') = trainingStatus (hook builtWorld) /\
  trainingHistory (hook w') = trainingHistory (hook builtWorld) /\
  trainingProgress (hook w') = trainingProgress (hook builtWorld) /\
  mlmodel (hook w') = mlmodel (hook builtWorld) /\
  error (hook w') =
  Some (empty_class_error (Some (demoHead 3)) [cats; birds; dogs]).
Proof.
  apply (C6_empty_class_fails_fast (envOf twoEpochs true) (Some (demoHead 3))
           [cats; birds; dogs] 5 builtWorld).
  exists birds. split; [simpl; auto | reflexivity].
Defined.

(** The message about empty classes is never the message of the first
    guard. *)
Lemma msg_no_samples_not_msg_not_ready invalidClasses :
  msg_not_ready <> msg_no_samples invalidClasses.
Proof. unfold msg_not_ready, msg_no_samples. simpl. discriminate. Qed.

(** C6 as stated fails: with a single class, which is empty, the call
    reports [msg_not_ready] (model not ready or insufficient classes), not
    the empty-class error. *)
Lemma C6_counterexample :
  let classes := [birds] in
  let w' := snd (run (startTraining (envOf twoEpochs true) (Some (demoHead 2))
                                    classes 5) builtWorld) in
  (exists cls, In cls classes /\ samples cls = []) /\
  error (hook w') = Some msg_not_ready /\
  forall invalidClasses,
    error (hook w') <> Some (msg_no_samples invalidClasses).
Proof.
  intros classes w'.
  assert (error (hook w') = Some msg_not_ready) as E by reflexivity.
  split; [| split].
  - exists birds. split; [simpl; auto | reflexivity].
  - exact E.
  - intros l H. rewrite E in H.
    apply (msg_no_samples_not_msg_not_ready l). congruence.
Qed.

(* ================================================================== *)
(** * C9: the progress records and the history of a run *)
(* ================================================================== *)

Lemma map_epoch_progress_of epochs startTime n (trace : list FitEvent) :
  map epoch (map (progress_of epochs startTime n) trace) =
  map (fun e => e + 1) (map fe_epoch trace).
Proof. rewrite !map_map. reflexivity. Qed.

Lemma map_succ_seq (a n : nat) : map (fun e => e + 1) (seq a n) = seq (S a) n.
Proof.
  revert a; induction n as [| n IH]; intro a; simpl; auto.
  f_equal; [lia | apply IH].
Qed.

(** The other calls of the hook never shorten the history. *)
Lemma other_calls_keep_history env B i b classes m :
  always history_grows (initTensorFlow B) /\
  always history_grows (loadBaseModel env i) /\
  always history_grows (createModel env b classes) /\
  always history_grows (exportModel env m).
Proof.
  unfold initTensorFlow, loadBaseModel, createModel, createTransferModel,
    exportModel, setIsInitialized.
  repeat split; frame.
Qed.




(* ================================================================== *)
(** * Sorting by confidence *)
(* ================================================================== *)

Lemma byConfidence_Gt x y :
  (byConfidence x y ?= 0)%Q = Gt <-> (confidence x < confidence y)%Q.
Proof.
  unfold byConfidence. rewrite <- Qgt_alt. split; intro H.
  - apply Qlt_minus_iff. exact H.
  - apply Qlt_minus_iff in H. exact H.
Qed.

Lemma byConfidence_not_Gt x y :
  (byConfidence x y ?= 0)%Q <> Gt -> (confidence y <= confidence x)%Q.
Proof.
  intro H. apply Qnot_lt_le. intro L. apply H, byConfidence_Gt, L.
Qed.

Lemma insert_perm {A} (cmp : A -> A -> Q) x l :
  Permutation (insert cmp x l) (x :: l).
Proof.
  induction l as [| y l IH]; simpl; auto.
  destruct (cmp x y ?= 0)%Q; auto.
  rewrite IH. apply perm_swap.
Qed.

Lemma sort_perm {A} (cmp : A -> A -> Q) l : Permutation (sort cmp l) l.
Proof.
  induction l as [| x l IH]; simpl; auto.
  rewrite insert_perm. auto.
Qed.

Lemma ranked_before_le a b :
  ranked_before a b -> (confidence b <= confidence a)%Q.
Proof.
  intros [H | [H _]]; [apply Qlt_le_weak, H | rewrite H; apply Qle_refl].
Qed.

(** Inserting an element that came before all the others, by index, keeps
    the list ranked. *)
Lemma insert_ranked x l :
  StronglySorted ranked_before l ->
  Forall (fun y => classIndex x < classIndex y) l ->
  StronglySorted ranked_before (insert byConfidence x l).
Proof.
  intros Hs Hi. induction Hs as [| y l Hs IH Hy]; simpl.
  - repeat constructor.
  - inversion Hi as [| ? ? Hxy Hxl]; subst.
    assert ((byConfidence x y ?= 0)%Q <> Gt ->
            StronglySorted ranked_before (x :: y :: l)) as Hfirst.
    { (* y is not above x: x, the earlier one, stays first *)
      intro E. apply byConfidence_not_Gt in E.
      constructor; [constructor; assumption |].
      apply Forall_forall. intros z Hin.
      assert (confidence z <= confidence x)%Q as Hz.
      { destruct Hin as [Hz | Hz]; [subst; exact E |].
        eapply Qle_trans; [| exact E].
        apply ranked_before_le. eapply Forall_forall in Hy; eauto. }
      destruct (Qlt_le_dec (confidence z) (confidence x)) as [L | G].
      - left; exact L.
      - right. split; [apply Qle_antisym; auto |].
        eapply Forall_forall in Hi; eauto. }
    destruct (byConfidence x y ?= 0)%Q eqn:E;
      [apply Hfirst; discriminate | apply Hfirst; discriminate |].
    (* y has the higher confidence and goes first *)
    apply byConfidence_Gt in E.
    constructor; [apply IH; assumption |].
    apply Forall_forall. intros z Hin.
    apply (Permutation_in _ (insert_perm byConfidence x l)) in Hin.
    destruct Hin as [Hz | Hz]; [subst; left; exact E |].
    eapply Forall_forall in Hy; eauto.
Qed.

Lemma mapi_indices_above {A} (f : A -> nat -> Prediction) i l :
  (forall v k, classIndex (f v k) = k) ->
  Forall (fun p => i <= classIndex p) (mapi f i l).
Proof.
  intro Hf. revert i; induction l as [| v l IH]; intro i; simpl; constructor.
  - rewrite Hf; lia.
  - eapply Forall_impl; [| apply (IH (S i))]. simpl; intros; lia.
Qed.

Lemma sort_mapi_ranked (f : Q -> nat -> Prediction) i l :
  (forall v k, classIndex (f v k) = k) ->
  StronglySorted ranked_before (sort byConfidence (mapi f i l)).
Proof.
  intro Hf. revert i; induction l as [| v l IH]; intro i; simpl.
  - constructor.
  - apply insert_ranked; [apply IH |].
    apply Forall_forall. intros p Hin.
    apply (Permutation_in _ (sort_perm byConfidence _)) in Hin.
    pose proof (mapi_indices_above f (S i) l Hf) as H.
    eapply Forall_forall in H; eauto. rewrite Hf. lia.
Qed.

Lemma mapi_length {A B} (f : A -> nat -> B) i l :
  List.length (mapi f i l) = List.length l.
Proof. revert i; induction l; intro i; simpl; auto. Qed.

Lemma mapi_classIndex {A} (f : A -> nat -> Prediction) i l :
  (forall v k, classIndex (f v k) = k) ->
  map classIndex (mapi f i l) = seq i (List.length l).
Proof.
  intro Hf. revert i; induction l as [| v l IH]; intro i; simpl; auto.
  rewrite Hf, IH. reflexivity.
Qed.

(** What [makePrediction] returns for a ready model whose forward pass
    returns. *)
Lemma makePrediction_ready K m h imageElement classes predictionData :
  model m = Some h -> isReady m = true ->
  predict K h imageElement = Some predictionData ->
  makePrediction K m imageElement classes =
  inr (sort byConfidence
         (mapi (fun confidence index =>
                  {| className := classNameAt classes index;
                     confidence := (confidence * 100)%Q;
                     classIndex := index |}) 0 predictionData)).
Proof.
  intros Hm Hr Hp. unfold makePrediction. rewrite Hm, Hr, Hp. reflexivity.
Qed.

Lemma mapi_In {A B} (f : A -> nat -> B) i l p :
  In p (mapi f i l) <-> exists j v, nth_error l j = Some v /\ p = f v (i + j).
Proof.
  revert i; induction l as [| x l IH]; intro i; simpl.
  - split; [tauto |]. intros (j & v & H & _). destruct j; discriminate.
  - rewrite IH. split.
    + intros [H | (j & v & H & E)].
      * exists 0, x. rewrite Nat.add_0_r. auto.
      * exists (S j), v. split; auto. rewrite E. f_equal. lia.
    + intros (j & v & H & E). destruct j as [| j]; simpl in H.
      * left. inversion H; subst. rewrite Nat.add_0_r. reflexivity.
      * right. exists j, v. split; auto. rewrite E. f_equal. lia.
Qed.

(** The entries of the list [makePrediction] returns, read against the
    output of the forward pass. *)
Lemma makePrediction_entries K m h imageElement classes predictionData :
  model m = Some h -> isReady m = true ->
  predict K h imageElement = Some predictionData ->
  exists predictions,
    makePrediction K m imageElement classes = inr predictions /\
    StronglySorted ranked_before predictions /\
    forall p, In p predictions <->
      exists j v, nth_error predictionData j = Some v /\
                  p = {| className := classNameAt classes j;
                         confidence := (v * 100)%Q;
                         classIndex := j |}.
Proof.
  intros Hm Hr Hp. eexists. split; [| split].
  - apply (makePrediction_ready K m h imageElement classes predictionData);
      assumption.
  - apply sort_mapi_ranked. reflexivity.
  - intro p. split.
    + intro H. apply (Permutation_in _ (sort_perm byConfidence _)) in H.
      apply mapi_In in H. exact H.
    + intro H. apply (Permutation_in _ (Permutation_sym (sort_perm byConfidence _))).
      apply mapi_In. exact H.
Qed.

(** In a list sorted by a relation, what stands earlier is related to what
    stands later. *)
Lemma sorted_suffix {A} (R : A -> A -> Prop) (l1 l2 : list A) :
  StronglySorted R (l1 ++ l2) -> StronglySorted R l2.
Proof.
  induction l1 as [| x l1 IH]; simpl; auto.
  intro H. inversion H; subst. auto.
Qed.

Lemma sorted_occurs {A} (R : A -> A -> Prop) (a b : A) (l : list A) :
  StronglySorted R l -> occurs_before a b l -> R a b.
Proof.
  intros Hs (l1 & l2 & l3 & E). subst l.
  apply sorted_suffix in Hs. inversion Hs as [| ? ? _ Hall]; subst.
  rewrite Forall_forall in Hall. apply Hall.
  apply in_or_app. right. simpl. auto.
Qed.

(** Of two different members of a list, one stands before the other. *)
Lemma occurs_either {A} (a b : A) (l : list A) :
  In a l -> In b l -> a <> b -> occurs_before a b l \/ occurs_before b a l.
Proof.
  intros Ha Hb N. apply in_split in Ha. destruct Ha as (l1 & l2 & E). subst l.
  apply in_app_or in Hb. destruct Hb as [Hb | [Hb | Hb]]; [| congruence |].
  - right. apply in_split in Hb. destruct Hb as (l3 & l4 & E). subst l1.
    exists l3, l4, l2. rewrite <- app_assoc. reflexivity.
  - left. apply in_split in Hb. destruct Hb as (l3 & l4 & E). subst l2.
    exists l1, l3, l4. reflexivity.
Qed.

(* ================================================================== *)
(** * C4: predictions are ranked *)
(* ================================================================== *)

(** C4.  For a ready model and a frame on which the forward pass returns,
    [makePrediction] returns the entries built from the output of the
    forward pass, one for each output value and no other, in an order in
    which every entry is [ranked_before] every later entry: the later one
    has a lower confidence, or the same confidence and a larger class
    index.  So of two output values the entry of the larger one comes
    first; and of two equal ones, the entry of the smaller class index. *)
Theorem C4_predictions_ranked K m h imageElement classes predictionData :
  model m = Some h -> isReady m = true ->
  predict K h imageElement = Some predictionData ->
  exists predictions,
    makePrediction K m imageElement classes = inr predictions /\
    Permutation predictions (mapi (entryFor classes) 0 predictionData) /\
    StronglySorted ranked_before predictions /\
    forall i j vi vj,
      nth_error predictionData i = Some vi ->
      nth_error predictionData j = Some vj ->
      (vj < vi)%Q \/ ((vi == vj)%Q /\ i < j) ->
      occurs_before (entryFor classes vi i) (entryFor classes vj j) predictions.
Proof.
  intros Hm Hr Hp.
  exists (sort byConfidence (mapi (entryFor classes) 0 predictionData)).
  assert (StronglySorted ranked_before
            (sort byConfidence (mapi (entryFor classes) 0 predictionData)))
    as Hs by (apply sort_mapi_ranked; reflexivity).
  split; [| split; [| split]].
  - apply (makePrediction_ready K m h imageElement classes predictionData);
      assumption.
  - apply sort_perm.
  - exact Hs.
  - intros i j vi vj Hi Hj Hord.
    assert (forall k v, nth_error predictionData k = Some v ->
              In (entryFor classes v k)
                 (sort byConfidence (mapi (entryFor classes) 0 predictionData)))
      as Hin.
    { intros k v Hk.
      apply (Permutation_in _ (Permutation_sym (sort_perm byConfidence _))).
      apply mapi_In. exists k, v. auto. }
    assert (i <> j) as Nij.
    { intro E. subst j. rewrite Hi in Hj. inversion Hj; subst vj.
      destruct Hord as [L | [_ L]]; [apply (Qlt_irrefl _ L) | lia]. }
    destruct (occurs_either (entryFor classes vi i) (entryFor classes vj j) _
                (Hin i vi Hi) (Hin j vj Hj)) as [B | B].
    + intro E. apply Nij. apply (f_equal classIndex) in E. exact E.
    + exact B.
    + (* the other order contradicts the ranking *)
      exfalso. apply (sorted_occurs _ _ _ _ Hs) in B.
      unfold ranked_before, entryFor in B. cbn [confidence classIndex] in B.
      destruct B as [L | [E L]], Hord as [L' | [E' L']]; try lia; lra.
Qed.

(** The outputs 2/5, 1/5, 2/5: the classes 0 and 2 are equal, and class 0
    comes first. *)
Lemma C4_predictions_ranked_witness :
  exists predictions,
    makePrediction (kernelsOf [2 # 5; 1 # 5; 2 # 5])
      {| model := Some (demoHead 3); isReady := true;
         baseModel := Some demoBase |}
      frame2x1 [cats; dogs; birds] = inr predictions /\
    Permutation predictions
      (mapi (entryFor [cats; dogs; birds]) 0 [2 # 5; 1 # 5; 2 # 5]) /\
    StronglySorted ranked_before predictions /\
    forall i j vi vj,
      nth_error [2 # 5; 1 # 5; 2 # 5] i = Some vi ->
      nth_error [2 # 5; 1 # 5; 2 # 5] j = Some vj ->
      (vj < vi)%Q \/ ((vi == vj)%Q /\ i < j) ->
      occurs_before (entryFor [cats; dogs; birds] vi i)
                    (entryFor [cats; dogs; birds] vj j) predictions.
Proof.
  apply (C4_predictions_ranked (kernelsOf [2 # 5; 1 # 5; 2 # 5])
           {| model := Some (demoHead 3); isReady := true;
              baseModel := Some demoBase |}
           (demoHead 3) frame2x1 [cats; dogs; birds] [2 # 5; 1 # 5; 2 # 5]);
    reflexivity.
Defined.

(** The case the specification names: equal probabilities for the classes 0
    and 2 put class 0 before class 2. *)
Example predictions_tie_0_before_2 :
  match makePrediction (kernelsOf [2 # 5; 1 # 5; 2 # 5])
          {| model := Some (demoHead 3); isReady := true;
             baseModel := Some demoBase |}
          frame2x1 [cats; dogs; birds] with
  | inr predictions => map classIndex predictions = [0; 2; 1]
  | inl _ => False
  end.
Proof. reflexivity. Qed.

(* ================================================================== *)
(** * The reference kernel keeps its contract *)
(* ================================================================== *)

Lemma lerp_range a b f lo hi :
  (lo <= a <= hi)%Q -> (lo <= b <= hi)%Q -> (0 <= f <= 1)%Q ->
  (lo <= lerp a b f <= hi)%Q.
Proof.
  intros [A1 A2] [B1 B2] [F1 F2]. unfold lerp.
  setoid_replace (a + (b - a) * f)%Q with (a * (1 - f) + b * f)%Q by ring.
  assert (0 <= 1 - f)%Q as G by (apply (Qplus_le_r _ _ f); ring_simplify; exact F2).
  split.
  - setoid_replace lo with (lo * (1 - f) + lo * f)%Q by ring.
    apply Qplus_le_compat; apply Qmult_le_compat_r; assumption.
  - setoid_replace hi with (hi * (1 - f) + hi * f)%Q by ring.
    apply Qplus_le_compat; apply Qmult_le_compat_r; assumption.
Qed.

Lemma sourceFrac_nonneg old new i : (0 <= sourceFrac old new i)%Q.
Proof.
  unfold sourceFrac, natQ.
  apply Qmult_le_0_compat.
  - destruct new as [| n].
    + simpl. unfold Qdiv, Qinv. simpl. rewrite Qmult_0_r. apply Qle_refl.
    + apply Qle_shift_div_l.
      * change 0%Q with (inject_Z 0). rewrite <- Zlt_Qlt. lia.
      * rewrite Qmult_0_l. change 0%Q with (inject_Z 0). rewrite <- Zle_Qle. lia.
  - change 0%Q with (inject_Z 0). rewrite <- Zle_Qle. lia.
Qed.

Lemma sourceFrac_below old new i :
  i < new -> 0 < old -> (sourceFrac old new i < natQ old)%Q.
Proof.
  intros Hi Ho. unfold sourceFrac, natQ.
  assert (0 < inject_Z (Z.of_nat new))%Q as Hn.
  { change 0%Q with (inject_Z 0). rewrite <- Zlt_Qlt. lia. }
  assert (0 < inject_Z (Z.of_nat old))%Q as Hold.
  { change 0%Q with (inject_Z 0). rewrite <- Zlt_Qlt. lia. }
  setoid_replace (inject_Z (Z.of_nat old) / inject_Z (Z.of_nat new) * inject_Z (Z.of_nat i))%Q
    with (inject_Z (Z.of_nat old) * inject_Z (Z.of_nat i) / inject_Z (Z.of_nat new))%Q
    by (field; intro E; rewrite E in Hn; apply (Qlt_irrefl 0), Hn).
  apply Qlt_shift_div_r; [exact Hn |].
  apply Qmult_lt_l; [exact Hold |].
  rewrite <- Zlt_Qlt. lia.
Qed.

Lemma natQ_to_nat z : (0 <= z)%Z -> natQ (Z.to_nat z) = inject_Z z.
Proof. intro H. unfold natQ. rewrite Z2Nat.id by assumption. reflexivity. Qed.

Lemma Qfloor_nonneg x : (0 <= x)%Q -> (0 <= Qfloor x)%Z.
Proof.
  intro H. change 0%Z with (Qfloor (inject_Z 0)) at 1.
  apply Qfloor_resp_le. exact H.
Qed.

Lemma sourceFloor_bound old new i :
  i < new -> 0 < old -> sourceFloor old new i < old.
Proof.
  intros Hi Ho. unfold sourceFloor.
  pose proof (sourceFrac_nonneg old new i) as H0.
  pose proof (sourceFrac_below old new i Hi Ho) as H1.
  pose proof (Qfloor_nonneg _ H0) as F0.
  pose proof (Qfloor_le (sourceFrac old new i)) as F1.
  rewrite Z.max_r by assumption.
  assert (Qfloor (sourceFrac old new i) < Z.of_nat old)%Z.
  { rewrite Zlt_Qlt. eapply Qle_lt_trans; [exact F1 | exact H1]. }
  lia.
Qed.

Lemma sourceCeil_bound old new i : 0 < old -> sourceCeil old new i < old.
Proof. intro Ho. unfold sourceCeil. lia. Qed.

Lemma frac_range old new i : (0 <= frac old new i <= 1)%Q.
Proof.
  unfold frac, sourceFloor.
  pose proof (sourceFrac_nonneg old new i) as H0.
  pose proof (Qfloor_nonneg _ H0) as F0.
  rewrite Z.max_r by assumption. rewrite natQ_to_nat by assumption.
  pose proof (Qfloor_le (sourceFrac old new i)) as F1.
  pose proof (Qlt_floor (sourceFrac old new i)) as F2.
  split.
  - apply (Qplus_le_r _ _ (inject_Z (Qfloor (sourceFrac old new i)))).
    ring_simplify. exact F1.
  - apply (Qplus_le_r _ _ (inject_Z (Qfloor (sourceFrac old new i)))).
    ring_simplify. apply Qlt_le_weak.
    rewrite inject_Z_plus in F2. exact F2.
Qed.

Lemma entry_in (P : Q -> Prop) t height width channels r c d :
  List.length (data t) = height * width * channels ->
  Forall P (data t) ->
  r < height -> c < width -> d < channels ->
  P (entry t width channels r c d).
Proof.
  intros Hlen HP Hr Hc Hd. unfold entry.
  eapply Forall_forall; [exact HP |].
  apply nth_In. rewrite Hlen.
  assert (r * width + c < height * width) as H1 by nia.
  assert ((r * width + c) * channels + d < (r * width + c + 1) * channels)
    as H2 by lia.
  assert ((r * width + c + 1) * channels <= height * width * channels) as H3
    by (apply Nat.mul_le_mono_r; lia).
  lia.
Qed.

Lemma flat_map_length_const {A B} (f : A -> list B) (l : list A) k :
  (forall x, In x l -> List.length (f x) = k) ->
  List.length (flat_map f l) = List.length l * k.
Proof.
  induction l as [| x l IH]; intro H; simpl; auto.
  rewrite length_app. rewrite (H x) by (simpl; auto).
  rewrite IH by (intros; apply H; simpl; auto). reflexivity.
Qed.

(** The kernel keeps the contract [preprocessImage] relies on. *)
Lemma bilinear_contract t height width channels newHeight newWidth :
  shape t = [height; width; channels] ->
  List.length (data t) = height * width * channels ->
  0 < height -> 0 < width ->
  shape (bilinear t newHeight newWidth) = [newHeight; newWidth; channels] /\
  List.length (data (bilinear t newHeight newWidth))
  = newHeight * newWidth * channels /\
  forall lo hi,
    Forall (fun v => lo <= v <= hi)%Q (data t) ->
    Forall (fun v => lo <= v <= hi)%Q (data (bilinear t newHeight newWidth)).
Proof.
  intros Hs Hlen Hh Hw. unfold bilinear. rewrite Hs. cbn [shape data].
  split; [reflexivity |]. split.
  - rewrite (flat_map_length_const _ _ (newWidth * channels)).
    + rewrite length_seq. lia.
    + intros r _. rewrite (flat_map_length_const _ _ channels).
      * rewrite length_seq. reflexivity.
      * intros c _. rewrite length_map, length_seq. reflexivity.
  - intros lo hi Hrange.
    apply Forall_flat_map, Forall_forall. intros r Hr. apply in_seq in Hr.
    apply Forall_flat_map, Forall_forall. intros c Hc. apply in_seq in Hc.
    apply Forall_map, Forall_forall. intros d Hd. apply in_seq in Hd.
    assert (forall r' c', r' < height -> c' < width ->
              (lo <= entry t width channels r' c' d <= hi)%Q) as E.
    { intros r' c' Hr' Hc'.
      apply (entry_in (fun v => lo <= v <= hi)%Q t height width channels);
        auto; lia. }
    repeat apply lerp_range; try apply frac_range; apply E;
      first [ apply sourceFloor_bound; lia | apply sourceCeil_bound; lia ].
Qed.

(* ================================================================== *)
(** * C8: the image preprocessor *)
(* ================================================================== *)

Lemma byteQ_range b : (0 <= byteQ b <= 255 # 1)%Q.
Proof.
  unfold byteQ. pose proof (Byte.to_N_bounded b) as H.
  split.
  - change 0%Q with (inject_Z 0). rewrite <- Zle_Qle. lia.
  - change (255 # 1)%Q with (inject_Z 255). rewrite <- Zle_Qle. lia.
Qed.

Lemma fromPixels_range img :
  Forall (fun v => 0 <= v <= 255 # 1)%Q (data (fromPixels img)).
Proof.
  unfold fromPixels; simpl.
  induction (pixels img) as [| p l IH]; simpl; auto.
  repeat (constructor; [apply byteQ_range |]). exact IH.
Qed.

Lemma fromPixels_length img :
  List.length (pixels img) = img_height img * img_width img ->
  List.length (data (fromPixels img)) = img_height img * img_width img * 3.
Proof.
  intro H. unfold fromPixels; cbn [data]. rewrite <- H. clear H.
  induction (pixels img) as [| p l IH]; [reflexivity |].
  cbn [flat_map List.length app]. rewrite IH. lia.
Qed.

(** C8.  Let the resize kernel keep its contract: on a height x width x
    channels tensor with an entry for every position it returns a tensor of
    the requested height and width with the same channels, whose entries lie
    within any bounds the entries of its argument lie within.  Then for
    every image of positive width and height with one pixel per position,
    [preprocessImage] returns a tensor of shape 1 x 224 x 224 x 3, of
    224 * 224 * 3 entries, each the entry of the resized image divided by
    255 and each in [0, 1].  The result is a function of the image (and the
    kernel) alone. *)
Theorem C8_preprocessImage K img :
  (forall t h w c newH newW,
     shape t = [h; w; c] ->
     List.length (data t) = h * w * c ->
     0 < h -> 0 < w ->
     shape (resizeBilinear K t newH newW) = [newH; newW; c] /\
     List.length (data (resizeBilinear K t newH newW)) = newH * newW * c /\
     forall lo hi,
       Forall (fun v => lo <= v <= hi)%Q (data t) ->
       Forall (fun v => lo <= v <= hi)%Q
              (data (resizeBilinear K t newH newW))) ->
  0 < img_width img ->
  0 < img_height img ->
  List.length (pixels img) = img_height img * img_width img ->
  let out := preprocessImage K img in
  shape out = [1; 224; 224; 3] /\
  List.length (data out) = 224 * 224 * 3 /\
  data out =
    map (fun v => v / (255 # 1))%Q
        (data (resizeBilinear K (fromPixels img) 224 224)) /\
  Forall (fun v => 0 <= v <= 1)%Q (data out).
Proof.
  intros Hkernel Hw Hh Hpix out. subst out.
  unfold preprocessImage, expandDims0, div, cast_float32.
  cbn [shape data].
  destruct (Hkernel (fromPixels img) (img_height img) (img_width img) 3
              224 224 eq_refl (fromPixels_length img Hpix) Hh Hw)
    as (Hs & Hl & Hrange).
  split; [rewrite Hs; reflexivity |].
  split; [rewrite length_map; exact Hl |].
  split; [reflexivity |].
  pose proof (Hrange 0%Q (255 # 1)%Q (fromPixels_range img)) as H.
  apply Forall_forall. intros v Hin. apply in_map_iff in Hin.
  destruct Hin as [x [E Hx]]. subst v.
  eapply Forall_forall in H; eauto. destruct H as [H0 H255].
  split.
  - apply Qle_shift_div_l; [reflexivity |]. rewrite Qmult_0_l. exact H0.
  - apply Qle_shift_div_r; [reflexivity |]. rewrite Qmult_1_l. exact H255.
Qed.

Lemma C8_preprocessImage_witness :
  let K := kernelsOf [1 # 2; 1 # 2] in
  let out := preprocessImage K frame2x1 in
  shape out = [1; 224; 224; 3] /\
  List.length (data out) = 224 * 224 * 3 /\
  data out =
    map (fun v => v / (255 # 1))%Q
        (data (resizeBilinear K (fromPixels frame2x1) 224 224)) /\
  Forall (fun v => 0 <= v <= 1)%Q (data out).
Proof.
  apply (C8_preprocessImage (kernelsOf [1 # 2; 1 # 2]) frame2x1).
  - intros t h w c newH newW Hs Hl Hh Hw.
    exact (bilinear_contract t h w c newH newW Hs Hl Hh Hw).
  - simpl; lia.
  - simpl; lia.
  - reflexivity.
Defined.

(* ================================================================== *)
(** * The page: effects, readiness, identity numbers *)
(* ================================================================== *)

Lemma errorToastEffect_frame s :
  mlmodel (hook (world (errorToastEffect s))) = mlmodel (hook (world s)) /\
  error (hook (world (errorToastEffect s))) = None /\
  classes (errorToastEffect s) = classes s /\
  classes_ref (errorToastEffect s) = classes_ref s /\
  next_ref (errorToastEffect s) = next_ref s /\
  effect_deps (errorToastEffect s) = effect_deps s.
Proof.
  unfold errorToastEffect.
  destruct (error (hook (world s))) eqn:E; simpl; auto 10.
Qed.

Lemma createModel_not_ready env b classes :
  always not_ready (createModel env b classes).
Proof. unfold createModel, createTransferModel. frame. Qed.

Lemma createModel_sync env b classes : sync (createModel env b classes).
Proof.
  unfold createModel, createTransferModel.
  destruct b; simpl; auto.
  destruct (List.length classes <? 2); simpl; auto.
  destruct (layers_throw env); simpl; auto.
Qed.

(** [createModel] ends within the turn in which it is called, which is why
    the page can treat the effect that calls it as one step. *)
Lemma createModel_one_turn env b classes w :
  turn (createModel env b classes) w =
  (Finished (fst (run (createModel env b classes) w)),
   snd (run (createModel env b classes) w)).
Proof. apply turn_sync, createModel_sync. Qed.

Lemma loadBaseModel_not_ready env i : always not_ready (loadBaseModel env i).
Proof. unfold loadBaseModel. frame. Qed.

Lemma exportModel_not_ready env m : always not_ready (exportModel env m).
Proof. unfold exportModel. frame. Qed.

Lemma createModelEffect_frame env s :
  not_ready (world s) (world (createModelEffect env s)) /\
  classes (createModelEffect env s) = classes s /\
  classes_ref (createModelEffect env s) = classes_ref s /\
  next_ref (createModelEffect env s) = next_ref s /\
  (effect_deps (createModelEffect env s) = effect_deps s \/
   effect_deps (createModelEffect env s)
   = Some (baseModel (mlmodel (hook (world s))), classes_ref s)).
Proof.
  unfold createModelEffect.
  destruct (match effect_deps s with
            | Some seen => negb (deps_eqb seen _)
            | None => true
            end).
  - destruct (isSome _ && _); simpl; repeat split; auto with frame.
    apply (always_run not_ready not_ready_refl not_ready_trans).
    apply createModel_not_ready.
  - repeat split; auto with frame.
Qed.

Lemma commit_frame env s :
  (page_ready s = false -> page_ready (commit env s) = false) /\
  classes (commit env s) = classes s /\
  classes_ref (commit env s) = classes_ref s /\
  next_ref (commit env s) = next_ref s /\
  (effect_deps (commit env s) = effect_deps s \/
   exists b, effect_deps (commit env s) = Some (b, classes_ref s)).
Proof.
  unfold commit, page_ready.
  destruct (errorToastEffect_frame s) as (A1 & _ & A2 & A3 & A4 & A5).
  destruct (createModelEffect_frame env (errorToastEffect s))
    as (B1 & B2 & B3 & B4 & B5).
  destruct (errorToastEffect_frame (createModelEffect env (errorToastEffect s)))
    as (E1 & _ & E2 & E3 & E4 & E5).
  rewrite E1, E2, E3, E4, E5, B2, B3, B4, A2, A3, A4.
  repeat split.
  - intro H. apply B1. unfold not_ready in *. rewrite A1. exact H.
  - destruct B5 as [B5 | B5]; rewrite B5.
    + left; exact A5.
    + right. rewrite A3. eexists; reflexivity.
Qed.

Lemma page_wf_initial : page_wf initialPage.
Proof. unfold page_wf; simpl; auto. Qed.

(** Every state the page reaches from its first render is well formed
    ([page_wf_initial], [page_wf_step], [page_wf_steps]). *)
Lemma page_wf_step env ev s : page_wf s -> page_wf (step env ev s).
Proof.
  intros [H1 H2]. unfold step.
  match goal with |- page_wf (commit env ?x) =>
    assert (classes_ref x < next_ref x /\
            (next_ref s <= next_ref x) /\
            effect_deps x = effect_deps s) as (I1 & I2 & I3);
    [| destruct (commit_frame env x) as (_ & _ & J1 & J2 & J3);
       unfold page_wf; rewrite J1, J2; split; [exact I1 |];
       destruct J3 as [J3 | [b J3]]; rewrite J3;
       [rewrite I3; destruct (effect_deps s); auto; lia | simpl; exact I1] ]
  end.
  destruct ev; simpl; auto;
    try (destruct (isInitialized _ && _); simpl; auto);
    unfold handleStartTraining;
    repeat match goal with
           | |- context [if ?c then _ else _] => destruct c
           end; simpl; auto.
Qed.

Lemma page_wf_steps trace s : page_wf s -> page_wf (steps trace s).
Proof.
  revert s; induction trace as [| [env ev] rest IH]; intros s H; simpl; auto.
  apply IH, page_wf_step, H.
Qed.

(** A new array in the class-list state, of two classes or more, makes the
    `create model' effect run and rebuild the head. *)
Lemma new_classes_rebuild env s newClasses b :
  page_wf s ->
  baseModel (mlmodel (hook (world s))) = Some b ->
  2 <= List.length newClasses ->
  layers_throw env = false ->
  let s' := commit env (onClassesChange newClasses s) in
  classes s' = newClasses /\
  mlmodel (hook (world s')) = rebuilt b (List.length newClasses).
Proof.
  intros [W1 W2] Hb H2 Hl s'. subst s'.
  destruct (commit_frame env (onClassesChange newClasses s))
    as (_ & Hc & _).
  split; [exact Hc |].
  unfold commit.
  destruct (errorToastEffect_frame
              (createModelEffect env
                 (errorToastEffect (onClassesChange newClasses s))))
    as (E1 & _). rewrite E1. clear E1.
  destruct (errorToastEffect_frame (onClassesChange newClasses s))
    as (A1 & _ & A2 & A3 & _ & A5).
  set (s1 := errorToastEffect (onClassesChange newClasses s)) in *.
  simpl in A1, A2, A3, A5.
  unfold createModelEffect.
  rewrite A1, A2, A3, A5, Hb.
  assert (match effect_deps s with
          | Some seen => negb (deps_eqb seen (Some b, next_ref s))
          | None => true
          end = true) as Hchanged.
  { destruct (effect_deps s) as [seen |]; [| reflexivity].
    unfold deps_eqb. cbn [snd].
    destruct (Nat.eqb_spec (snd seen) (next_ref s)) as [E | _]; [lia |].
    rewrite andb_false_r. reflexivity. }
  rewrite Hchanged.
  destruct (Nat.leb_spec 2 (List.length newClasses)) as [_ | Hlt]; [| lia].
  cbn [isSome andb with_world world].
  unfold createModel.
  destruct (Nat.ltb_spec (List.length newClasses) 2) as [Hlt | _]; [lia |].
  unfold createTransferModel. rewrite Hl.
  cbn. rewrite A1, Hb. reflexivity.
Qed.

Lemma accepted_guards m classes :
  accepted (Some m) classes = false ->
  (List.length classes <? 2) = true \/
  (0 <? List.length
          (filter (fun cls => List.length (samples cls) =? 0) classes)) = true.
Proof.
  unfold accepted. cbn [isSome andb]. rewrite Nat.ltb_antisym.
  destruct (2 <=? List.length classes); cbn [andb negb]; auto.
  intro H. right. apply Nat.ltb_lt.
  induction classes as [| c l IH]; simpl in *; [discriminate |].
  destruct (List.length (samples c) =? 0); simpl in *; [lia | auto].
Qed.

(** [startTraining] leaves the model record alone unless it is accepted and
    its [try] block returns. *)
Lemma startTraining_keeps_model env mm classes epochs w :
  match mm with
  | Some m =>
      accepted (Some m) classes
      && match fst (run (trainingRun env m classes epochs) w) with
         | Done _ => true
         | _ => false
         end
  | None => false
  end = false ->
  same_model w (snd (run (startTraining env mm classes epochs) w)).
Proof.
  unfold startTraining. destruct mm as [m |]; [| reflexivity].
  intro H. apply andb_false_iff in H. destruct H as [H | H].
  - destruct (accepted_guards m classes H) as [G | G]; rewrite G.
    + reflexivity.
    + destruct (List.length classes <? 2); reflexivity.
  - destruct (List.length classes <? 2); [reflexivity |].
    destruct (0 <? _); [reflexivity |].
    rewrite run_try_catch.
    pose proof (trainingRun_fail_frame env m classes epochs w) as F.
    destruct (run (trainingRun env m classes epochs) w) as [[[] | |] w1];
      simpl in *; try discriminate; unfold same_model in *;
      rewrite <- (F I); reflexivity.
Qed.

(** One event keeps an unready model unready, unless it is a training run
    that completes. *)
Lemma step_not_ready env ev s :
  completes env ev s = false ->
  page_ready s = false -> page_ready (step env ev s) = false.
Proof.
  intros Hc Hr. unfold step. apply commit_frame.
  destruct ev; try exact Hr.
  - (* the base model loads *)
    destruct (isInitialized _ && _); [| exact Hr].
    unfold page_ready in *. cbn [with_world world].
    apply (always_run not_ready not_ready_refl not_ready_trans);
      [apply loadBaseModel_not_ready | exact Hr].
  - (* a training run that does not complete *)
    unfold handleStartTraining.
    destruct (_ <? 2); [exact Hr |].
    destruct (_ <? 3); [exact Hr |].
    unfold page_ready in *. cbn [with_world world].
    rewrite startTraining_keeps_model; [exact Hr |].
    unfold completes in Hc.
    destruct (model (mlmodel (hook (world s)))); auto.
  - (* an export *)
    unfold page_ready in *. cbn [with_world world].
    apply (always_run not_ready not_ready_refl not_ready_trans);
      [apply exportModel_not_ready | exact Hr].
Qed.

(** A completed run makes the model ready. *)
Lemma completed_run_is_ready :
  page_ready (steps [(envOf twoEpochs true, EvStartTraining 2)]
                (steps [(quiet, EvAddSample "class-1" (sampleOf "a4"))]
                       trainedPage)) = true.
Proof. vm_compute. reflexivity. Qed.

(* ================================================================== *)
(** * C10: any edit of the class list rebuilds the head *)
(* ================================================================== *)

Lemma updateClassName_length classId newName classes :
  List.length (updateClassName classId newName classes) = List.length classes.
Proof. apply length_map. Qed.

Lemma addSample_length classId newSample classes :
  List.length (addSample classId newSample classes) = List.length classes.
Proof. apply length_map. Qed.

Lemma removeSample_length classId sampleId classes :
  List.length (removeSample classId sampleId classes) = List.length classes.
Proof. apply length_map. Qed.

(** C10.  While a base model is loaded, every edit made through the class
    manager (a class added, renamed or removed, a sample added or removed)
    that leaves two classes or more makes the page rebuild the head, if
    assembling its layers does not throw: the class list is the edited one,
    the model record holds a new head with one unit per class, and
    [isReady] is false, whatever it was.  A rename or a change of the
    samples leaves the count as it is, so for these two classes before the
    edit suffice. *)
Theorem C10_any_edit_resets_readiness env ev s b :
  is_class_edit ev = true ->
  page_wf s ->
  baseModel (mlmodel (hook (world s))) = Some b ->
  2 <= List.length (edited ev s) ->
  layers_throw env = false ->
  classes (step env ev s) = edited ev s /\
  mlmodel (hook (world (step env ev s)))
  = rebuilt b (List.length (edited ev s)) /\
  page_ready (step env ev s) = false /\
  match ev with
  | EvUpdateClassName _ _ | EvAddSample _ _ | EvRemoveSample _ _ =>
      List.length (edited ev s) = List.length (classes s)
  | _ => True
  end.
Proof.
  intros Hev Hwf Hb H2 Hl.
  assert (step env ev s = commit env (onClassesChange (edited ev s) s)) as E
    by (destruct ev; try discriminate; reflexivity).
  rewrite E.
  destruct (new_classes_rebuild env s (edited ev s) b Hwf Hb H2 Hl) as [Hc Hm].
  split; [exact Hc |]. split; [exact Hm |].
  split; [unfold page_ready; rewrite Hm; reflexivity |].
  destruct ev; auto; simpl.
  - apply updateClassName_length.
  - apply addSample_length.
  - apply removeSample_length.
Qed.

(** In the trained session, where the model is ready, the second class is
    renamed. *)
Lemma C10_any_edit_resets_readiness_witness :
  let ev := EvUpdateClassName "class-2" "Dogs" in
  page_ready trainedPage = true /\
  classes (step quiet ev trainedPage) = edited ev trainedPage /\
  mlmodel (hook (world (step quiet ev trainedPage)))
  = rebuilt demoBase (List.length (edited ev trainedPage)) /\
  page_ready (step quiet ev trainedPage) = false /\
  List.length (edited ev trainedPage) = List.length (classes trainedPage).
Proof.
  split; [vm_compute; reflexivity |].
  apply (C10_any_edit_resets_readiness quiet
           (EvUpdateClassName "class-2" "Dogs") trainedPage demoBase).
  - reflexivity.
  - vm_compute. split; repeat constructor.
  - vm_compute. reflexivity.
  - vm_compute. repeat constructor.
  - reflexivity.
Defined.

(* ================================================================== *)
(** * The edits of the class list *)
(* ================================================================== *)

Lemma filter_all {A} (f : A -> bool) (l : list A) :
  (forall x, In x l -> f x = true) -> filter f l = l.
Proof.
  induction l as [| x l IH]; intro H; simpl; auto.
  rewrite (H x) by (simpl; auto). f_equal. apply IH. intros; apply H; simpl; auto.
Qed.

Lemma map_unchanged {A} (f : A -> A) (l : list A) :
  (forall x, In x l -> f x = x) -> map f l = l.
Proof.
  induction l as [| x l IH]; intro H; simpl; auto.
  rewrite (H x) by (simpl; auto). f_equal. apply IH. intros; apply H; simpl; auto.
Qed.

(** Adding a sample to a class and removing it again gives the class list
    back, when the id of the sample is new in the classes addressed. *)
Theorem removeSample_addSample classId newSample classes :
  (forall cls s, In cls classes -> id cls = classId -> In s (samples cls) ->
                 sample_id s <> sample_id newSample) ->
  removeSample classId (sample_id newSample) (addSample classId newSample classes)
  = classes.
Proof.
  intro Hfresh. unfold removeSample, addSample. rewrite map_map.
  apply map_unchanged. intros cls Hin.
  destruct (String.eqb_spec (id cls) classId) as [E | N]; cbn [id samples name color].
  - rewrite (proj2 (String.eqb_eq _ _) E).
    rewrite filter_app. cbn [filter]. rewrite String.eqb_refl. cbn [negb].
    rewrite app_nil_r, filter_all.
    + destruct cls; reflexivity.
    + intros s Hs. apply negb_true_iff, String.eqb_neq.
      apply (Hfresh cls s Hin E Hs).
  - rewrite (proj2 (String.eqb_neq _ _) N). reflexivity.
Qed.

Lemma removeSample_addSample_witness :
  removeSample "class-1" (sample_id (sampleOf "x"))
    (addSample "class-1" (sampleOf "x") [cats; dogs])
  = [cats; dogs].
Proof.
  apply (removeSample_addSample "class-1" (sampleOf "x") [cats; dogs]).
  intros cls s [H | [H | []]] _ Hs; subst cls; simpl in Hs;
    repeat (destruct Hs as [Hs | Hs]; [subst s; discriminate |]); destruct Hs.
Defined.

(** A class added and removed again leaves the class list as it was, when no
    other class has the id made from the clock. *)
Theorem removeClass_addNewClass now classes :
  (forall cls, In cls classes -> id cls <> newClassId now) ->
  removeClass (newClassId now) (addNewClass now classes) = classes /\
  List.length (addNewClass now classes) = S (List.length classes).
Proof.
  intro Hfresh. unfold removeClass, addNewClass. split.
  - rewrite filter_app. cbn [filter id]. fold (newClassId now).
    rewrite String.eqb_refl. cbn [negb]. rewrite app_nil_r.
    apply filter_all. intros cls Hin.
    apply negb_true_iff, String.eqb_neq, Hfresh, Hin.
  - rewrite length_app. simpl. lia.
Qed.

Lemma removeClass_addNewClass_witness :
  removeClass (newClassId 5000) (addNewClass 5000 [cats; dogs]) = [cats; dogs] /\
  List.length (addNewClass 5000 [cats; dogs]) = S (List.length [cats; dogs]).
Proof.
  apply (removeClass_addNewClass 5000 [cats; dogs]).
  intros cls [H | [H | []]]; subst cls; vm_compute; discriminate.
Defined.

(** Two classes made within the same millisecond share their id: removing
    one removes both. *)
Theorem removeClass_same_millisecond now classes :
  removeClass (newClassId now) (addNewClass now (addNewClass now classes))
  = removeClass (newClassId now) classes.
Proof.
  unfold removeClass, addNewClass.
  rewrite !filter_app. cbn [filter id]. fold (newClassId now).
  rewrite String.eqb_refl. cbn [negb]. rewrite !app_nil_r. reflexivity.
Qed.

(** An operation on an id that no class has leaves the list as it is. *)
Theorem unknown_class_id classId classes newName newSample sampleId :
  (forall cls, In cls classes -> id cls <> classId) ->
  updateClassName classId newName classes = classes /\
  removeClass classId classes = classes /\
  addSample classId newSample classes = classes /\
  removeSample classId sampleId classes = classes.
Proof.
  intros H.
  assert (forall cls, In cls classes -> String.eqb (id cls) classId = false) as E.
  { intros cls Hin. apply String.eqb_neq, H, Hin. }
  repeat split.
  - apply map_unchanged. intros cls Hin. rewrite (E cls Hin). reflexivity.
  - apply filter_all. intros cls Hin. rewrite (E cls Hin). reflexivity.
  - apply map_unchanged. intros cls Hin. rewrite (E cls Hin). reflexivity.
  - apply map_unchanged. intros cls Hin. rewrite (E cls Hin). reflexivity.
Qed.

Lemma unknown_class_id_witness :
  updateClassName "class-9" "Fish" [cats; dogs] = [cats; dogs] /\
  removeClass "class-9" [cats; dogs] = [cats; dogs] /\
  addSample "class-9" (sampleOf "x") [cats; dogs] = [cats; dogs] /\
  removeSample "class-9" "sample-c1" [cats; dogs] = [cats; dogs].
Proof.
  apply (unknown_class_id "class-9" [cats; dogs] "Fish" (sampleOf "x")
           "sample-c1").
  intros cls [H | [H | []]]; subst cls; vm_compute; discriminate.
Defined.

Lemma addSample_total classId newSample classes :
  total_samples (addSample classId newSample classes)
  = total_samples classes
    + List.length (filter (fun cls => String.eqb (id cls) classId) classes).
Proof.
  unfold total_samples, addSample.
  induction classes as [| c l IH]; simpl; auto.
  rewrite !length_app, IH.
  destruct (String.eqb (id c) classId); simpl; rewrite ?length_app; simpl; lia.
Qed.

(** What the edits keep.  A rename keeps the ids, the colours and the
    samples of all classes, in order.  Adding or removing a sample keeps the
    ids, the names and the colours; adding gives one sample more to each
    class of that id, removing never adds one.  [removeClass] removes every
    class of that id and no other. *)
Theorem edits_keep_the_rest classId classes :
  (forall newName,
     map id (updateClassName classId newName classes) = map id classes /\
     map color (updateClassName classId newName classes) = map color classes /\
     map samples (updateClassName classId newName classes)
     = map samples classes) /\
  (forall newSample,
     map id (addSample classId newSample classes) = map id classes /\
     map name (addSample classId newSample classes) = map name classes /\
     map color (addSample classId newSample classes) = map color classes /\
     total_samples (addSample classId newSample classes)
     = total_samples classes
       + List.length (filter (fun cls => String.eqb (id cls) classId) classes)) /\
  (forall sampleId,
     map id (removeSample classId sampleId classes) = map id classes /\
     map name (removeSample classId sampleId classes) = map name classes /\
     map color (removeSample classId sampleId classes) = map color classes /\
     total_samples (removeSample classId sampleId classes)
     <= total_samples classes) /\
  (forall cls, In cls (removeClass classId classes) <->
               In cls classes /\ id cls <> classId).
Proof.
  split; [| split; [| split]].
  - intro newName. unfold updateClassName. rewrite !map_map.
    repeat split; apply map_ext; intro c;
      destruct (String.eqb _ _); reflexivity.
  - intro newSample. split; [| split; [| split]];
      [| | | apply addSample_total];
      unfold addSample; rewrite !map_map; apply map_ext; intro c;
      destruct (String.eqb _ _); reflexivity.
  - intro sampleId. unfold removeSample. rewrite !map_map.
    split; [| split; [| split]];
      try (apply map_ext; intro c; destruct (String.eqb _ _); reflexivity).
    unfold total_samples. induction classes as [| c l IH]; simpl; auto.
    rewrite !length_app.
    destruct (String.eqb (id c) classId); simpl; [| lia].
    pose proof (filter_length_le
                  (fun sample => negb (String.eqb (sample_id sample) sampleId))
                  (samples c)). lia.
  - intro cls. unfold removeClass. rewrite filter_In.
    rewrite negb_true_iff, String.eqb_neq. reflexivity.
Qed.

(* ================================================================== *)
(** * The prediction display *)
(* ================================================================== *)

(** The prediction shown on top is the class of the largest output of the
    forward pass, the one of the smallest index among equals. *)
Theorem topPrediction_is_argmax K m h imageElement classes predictionData :
  model m = Some h -> isReady m = true ->
  predict K h imageElement = Some predictionData ->
  predictionData <> [] ->
  exists predictions top v,
    makePrediction K m imageElement classes = inr predictions /\
    topPrediction predictions = Some top /\
    nth_error predictionData (classIndex top) = Some v /\
    confidence top = (v * 100)%Q /\
    className top = classNameAt classes (classIndex top) /\
    forall j w, nth_error predictionData j = Some w ->
      (w <= v)%Q /\ ((w == v)%Q -> classIndex top <= j).
Proof.
  intros Hm Hr Hp Hne.
  destruct (makePrediction_entries K m h imageElement classes predictionData
              Hm Hr Hp) as (predictions & E & Hs & Hin).
  destruct predictions as [| top rest].
  - exfalso. destruct predictionData as [| v l]; [congruence |].
    apply (proj2 (Hin {| className := classNameAt classes 0;
                         confidence := (v * 100)%Q; classIndex := 0 |})).
    exists 0, v. split; reflexivity.
  - destruct (proj1 (Hin top) (or_introl eq_refl)) as (i & v & Hi & Et).
    exists (top :: rest), top, v. subst top. cbn [classIndex confidence className].
    split; [exact E |]. split; [reflexivity |]. split; [exact Hi |].
    split; [reflexivity |]. split; [reflexivity |].
    intros j w Hw.
    assert (In {| className := classNameAt classes j;
                  confidence := (w * 100)%Q; classIndex := j |}
               ({| className := classNameAt classes i;
                   confidence := (v * 100)%Q; classIndex := i |} :: rest)) as Hj.
    { apply Hin. exists j, w. auto. }
    destruct Hj as [Hj | Hj].
    + assert (i = j) as Eij by (inversion Hj; reflexivity). subst j.
      rewrite Hi in Hw. inversion Hw; subst w.
      split; [apply Qle_refl | intro; apply Nat.le_refl].
    + inversion Hs as [| ? ? _ Hall]; subst.
      eapply Forall_forall in Hall; [| exact Hj]. split.
      * apply ranked_before_le in Hall. cbn [confidence] in Hall.
        apply Qmult_le_r in Hall; [exact Hall | reflexivity].
      * intro Ewv.
        destruct Hall as [Hlt | [_ Hidx]]; cbn [confidence classIndex] in *.
        -- exfalso. rewrite Ewv in Hlt. apply (Qlt_irrefl _ Hlt).
        -- lia.
Qed.

Lemma topPrediction_is_argmax_witness :
  exists predictions top v,
    makePrediction (kernelsOf [2 # 5; 1 # 5; 2 # 5])
      {| model := Some (demoHead 3); isReady := true;
         baseModel := Some demoBase |}
      frame2x1 [cats; dogs; birds] = inr predictions /\
    topPrediction predictions = Some top /\
    nth_error [2 # 5; 1 # 5; 2 # 5] (classIndex top) = Some v /\
    confidence top = (v * 100)%Q /\
    className top = classNameAt [cats; dogs; birds] (classIndex top) /\
    forall j w, nth_error [2 # 5; 1 # 5; 2 # 5] j = Some w ->
      (w <= v)%Q /\ ((w == v)%Q -> classIndex top <= j).
Proof.
  apply (topPrediction_is_argmax (kernelsOf [2 # 5; 1 # 5; 2 # 5])
           {| model := Some (demoHead 3); isReady := true;
              baseModel := Some demoBase |}
           (demoHead 3) frame2x1 [cats; dogs; birds] [2 # 5; 1 # 5; 2 # 5]);
    try reflexivity.
  discriminate.
Defined.

Lemma NoDup_map_eq {A B} (f : A -> B) (l : list A) x y :
  NoDup (map f l) -> In x l -> In y l -> f x = f y -> x = y.
Proof.
  induction l as [| a l IH]; simpl; intros Hnd Hx Hy E; [destruct Hx |].
  inversion Hnd as [| ? ? Hnotin Hnd']; subst.
  destruct Hx as [Hx | Hx], Hy as [Hy | Hy]; subst; auto.
  - exfalso. apply Hnotin. rewrite E. apply in_map, Hy.
  - exfalso. apply Hnotin. rewrite <- E. apply in_map, Hx.
Qed.

(** With class names that are non-empty and pairwise different, the colour
    shown with a prediction is the colour of the class at its index. *)
Theorem getClassColor_of_prediction K m h imageElement classes predictionData :
  model m = Some h -> isReady m = true ->
  predict K h imageElement = Some predictionData ->
  NoDup (map name classes) ->
  (forall cls, In cls classes -> name cls <> "") ->
  exists predictions,
    makePrediction K m imageElement classes = inr predictions /\
    forall p cls, In p predictions ->
      nth_error classes (classIndex p) = Some cls ->
      className p = name cls /\ getClassColor classes p = color cls.
Proof.
  intros Hm Hr Hp Hnd Hne.
  destruct (makePrediction_entries K m h imageElement classes predictionData
              Hm Hr Hp) as (predictions & E & _ & Hin).
  exists predictions. split; [exact E |].
  intros p cls Hp' Hcls.
  apply Hin in Hp'. destruct Hp' as (j & v & _ & Ep). subst p.
  cbn [classIndex className] in *.
  assert (In cls classes) as Hc by (eapply nth_error_In; eauto).
  assert (classNameAt classes j = name cls) as En.
  { unfold classNameAt. rewrite Hcls.
    destruct (String.eqb_spec (name cls) ""); [| reflexivity].
    exfalso. apply (Hne cls Hc). assumption. }
  split; [exact En |].
  unfold getClassColor. cbn [className]. rewrite En.
  destruct (find _ classes) as [found |] eqn:F.
  - apply find_some in F. destruct F as [Hf Ef].
    apply String.eqb_eq in Ef.
    rewrite (NoDup_map_eq name classes found cls Hnd Hf Hc Ef). reflexivity.
  - exfalso. apply (find_none _ _ F cls) in Hc.
    rewrite String.eqb_refl in Hc. discriminate.
Qed.

Lemma getClassColor_of_prediction_witness :
  exists predictions,
    makePrediction (kernelsOf [2 # 5; 1 # 5; 2 # 5])
      {| model := Some (demoHead 3); isReady := true;
         baseModel := Some demoBase |}
      frame2x1 [cats; dogs; birds] = inr predictions /\
    forall p cls, In p predictions ->
      nth_error [cats; dogs; birds] (classIndex p) = Some cls ->
      className p = name cls /\ getClassColor [cats; dogs; birds] p = color cls.
Proof.
  apply (getClassColor_of_prediction (kernelsOf [2 # 5; 1 # 5; 2 # 5])
           {| model := Some (demoHead 3); isReady := true;
              baseModel := Some demoBase |}
           (demoHead 3) frame2x1 [cats; dogs; birds] [2 # 5; 1 # 5; 2 # 5]);
    try reflexivity.
  - repeat constructor; simpl; intuition discriminate.
  - intros cls [H | [H | [H | []]]]; subst cls; discriminate.
Defined.

(* ================================================================== *)
(** * Loading the base model, cutting it, resizing a file *)
(* ================================================================== *)

Section Binary64.
Local Open Scope Q_scope.

Lemma pow2_pos e : 0 < 2 ^ e.
Proof. apply Qpower_0_lt. reflexivity. Qed.

Lemma pow2_add a b : 2 ^ (a + b) == 2 ^ a * 2 ^ b.
Proof. apply Qpower_plus. discriminate. Qed.

Lemma pow2_le a b : (a <= b)%Z -> 2 ^ a <= 2 ^ b.
Proof. intro H. apply Qpower_le_compat_l; [exact H | discriminate]. Qed.

Lemma pow2_lt_inv a b : 2 ^ a < 2 ^ b -> (a < b)%Z.
Proof. intro H. apply (Qpower_lt_compat_l_inv 2); [exact H | reflexivity]. Qed.

Lemma pow2_Z n : (0 <= n)%Z -> 2 ^ n == inject_Z (2 ^ n).
Proof. intro H. rewrite Zpower_Qpower by exact H. reflexivity. Qed.

(** The binade of a positive number holds it. *)
Lemma binade_spec x : 0 < x -> 2 ^ binade x <= x /\ x < 2 ^ (binade x + 1).
Proof.
  intro Hx.
  set (n := Qnum x). set (d := Zpos (Qden x)).
  assert (0 < n)%Z as Hn.
  { unfold Qlt in Hx. simpl in Hx. subst n. lia. }
  assert (0 < d)%Z as Hd by (subst d; lia).
  assert (x == inject_Z n / inject_Z d) as Ex.
  { subst n d. destruct x as [a b]. simpl. apply Qmake_Qdiv. }
  assert (0 < inject_Z d) as HD.
  { change 0 with (inject_Z 0). rewrite <- Zlt_Qlt. exact Hd. }
  destruct (Z.log2_spec n Hn) as [Ln Un].
  destruct (Z.log2_spec d Hd) as [Ld Ud].
  pose proof (Z.log2_nonneg n) as An. pose proof (Z.log2_nonneg d) as Ad.
  set (a := Z.log2 n) in *. set (b := Z.log2 d) in *.
  assert (2 ^ a <= inject_Z n) as Ln'
    by (rewrite pow2_Z by lia; rewrite <- Zle_Qle; exact Ln).
  assert (inject_Z n < 2 ^ (a + 1)) as Un'.
  { rewrite pow2_Z by lia. rewrite <- Zlt_Qlt.
    replace (a + 1)%Z with (Z.succ a) by lia. exact Un. }
  assert (2 ^ b <= inject_Z d) as Ld'
    by (rewrite pow2_Z by lia; rewrite <- Zle_Qle; exact Ld).
  assert (inject_Z d < 2 ^ (b + 1)) as Ud'.
  { rewrite pow2_Z by lia. rewrite <- Zlt_Qlt.
    replace (b + 1)%Z with (Z.succ b) by lia. exact Ud. }
  (* x lies between 2^(a-b-1) and 2^(a-b+1) *)
  assert (x * inject_Z d == inject_Z n) as Em.
  { rewrite Ex. field. intro E. rewrite E in HD. apply (Qlt_irrefl _ HD). }
  assert (2 ^ (a - b - 1) < x) as Lo.
  { assert (2 ^ (a - b - 1) * 2 ^ (b + 1) == 2 ^ a) as E.
    { rewrite <- pow2_add. replace (a - b - 1 + (b + 1))%Z with a by lia.
      reflexivity. }
    pose proof (pow2_pos (a - b - 1)) as P.
    apply Qnot_le_lt. intro C.
    assert (x * inject_Z d <= 2 ^ (a - b - 1) * inject_Z d) as C1
      by (apply Qmult_le_compat_r; [exact C | apply Qlt_le_weak, HD]).
    assert (2 ^ (a - b - 1) * inject_Z d < 2 ^ (a - b - 1) * 2 ^ (b + 1)) as C2
      by (apply Qmult_lt_l; assumption).
    rewrite Em in C1. rewrite E in C2. lra. }
  assert (x < 2 ^ (a - b + 1)) as Up.
  { assert (2 ^ (a - b + 1) * 2 ^ b == 2 ^ (a + 1)) as E.
    { rewrite <- pow2_add. replace (a - b + 1 + b)%Z with (a + 1)%Z by lia.
      reflexivity. }
    pose proof (pow2_pos (a - b + 1)) as P.
    apply Qnot_le_lt. intro C.
    assert (2 ^ (a - b + 1) * inject_Z d <= x * inject_Z d) as C1
      by (apply Qmult_le_compat_r; [exact C | apply Qlt_le_weak, HD]).
    assert (2 ^ (a - b + 1) * 2 ^ b <= 2 ^ (a - b + 1) * inject_Z d) as C2
      by (apply Qmult_le_l; assumption).
    rewrite Em in C1. rewrite E in C2. lra. }
  unfold binade. fold n d. fold a b.
  destruct (Qle_bool (2 ^ (a - b)) x) eqn:T.
  - apply Qle_bool_iff in T. split; assumption.
  - assert (x < 2 ^ (a - b)) as Lt.
    { apply Qnot_le_lt. intro C. apply Qle_bool_iff in C. congruence. }
    replace (a - b - 1 + 1)%Z with (a - b)%Z by lia.
    split; [apply Qlt_le_weak, Lo | exact Lt].
Qed.

(** ... and is the only one that does. *)
Lemma binade_unique x k :
  0 < x -> 2 ^ k <= x -> x < 2 ^ (k + 1) -> binade x = k.
Proof.
  intros Hx L U. destruct (binade_spec x Hx) as [L' U'].
  assert (binade x < k + 1)%Z
    by (apply pow2_lt_inv; eapply Qle_lt_trans; eauto).
  assert (k < binade x + 1)%Z
    by (apply pow2_lt_inv; eapply Qle_lt_trans; eauto).
  lia.
Qed.

Lemma nearestEven_near q :
  inject_Z (nearestEven q) - (1 # 2) <= q /\
  q <= inject_Z (nearestEven q) + (1 # 2).
Proof.
  unfold nearestEven.
  pose proof (Qfloor_le q) as L. pose proof (Qlt_floor q) as U.
  rewrite inject_Z_plus in U. change (inject_Z 1) with 1 in U.
  set (f := Qfloor q) in *.
  destruct (Qcompare_spec (q - inject_Z f) (1 # 2)) as [E | Lt | Gt].
  - destruct (Z.even f); [| rewrite inject_Z_plus; change (inject_Z 1) with 1];
      split; lra.
  - split; lra.
  - rewrite inject_Z_plus. change (inject_Z 1) with 1. split; lra.
Qed.

Lemma nearestEven_wd q q' : q == q' -> nearestEven q = nearestEven q'.
Proof.
  intro E. unfold nearestEven.
  assert (Qfloor q' = Qfloor q) as F by (symmetry; apply Qfloor_comp, E).
  rewrite F.
  assert (Qcompare (q - inject_Z (Qfloor q)) (1 # 2)
          = Qcompare (q' - inject_Z (Qfloor q)) (1 # 2)) as C.
  { apply Qcompare_comp; [| reflexivity].
    unfold Qminus. apply Qplus_comp; [exact E | reflexivity]. }
  rewrite C. reflexivity.
Qed.

Lemma nearestEven_Z z : nearestEven (inject_Z z) = z.
Proof.
  unfold nearestEven. rewrite Qfloor_Z.
  destruct (Qcompare_spec (inject_Z z - inject_Z z) (1 # 2)) as [E | Lt | Gt];
    try reflexivity; exfalso; lra.
Qed.

Lemma nearestEven_mono q q' : q <= q' -> (nearestEven q <= nearestEven q')%Z.
Proof.
  intro H.
  pose proof (Qfloor_resp_le _ _ H) as Hf.
  pose proof (Qfloor_le q) as L. pose proof (Qlt_floor q) as U.
  pose proof (Qfloor_le q') as L'. pose proof (Qlt_floor q') as U'.
  rewrite inject_Z_plus in U, U'. change (inject_Z 1) with 1 in U, U'.
  unfold nearestEven.
  set (f := Qfloor q) in *. set (f' := Qfloor q') in *.
  destruct (Z.eq_dec f f') as [E | N].
  - rewrite <- E in *. 
    destruct (Qcompare_spec (q - inject_Z f) (1 # 2)) as [A | A | A];
      destruct (Qcompare_spec (q' - inject_Z f) (1 # 2)) as [B | B | B];
      try lia; try (exfalso; lra);
      destruct (Z.even f); lia.
  - assert (f + 1 <= f')%Z by lia.
    destruct (Qcompare (q - inject_Z f) (1 # 2));
      destruct (Qcompare (q' - inject_Z f') (1 # 2));
      destruct (Z.even f); destruct (Z.even f'); lia.
Qed.

(** A positive number rounded: the result stays in the closure of the
    binade, and is off by half a unit of the last place at most. *)
Lemma roundPos_spec x :
  0 < x ->
  2 ^ binade x <= roundPos x /\ roundPos x <= 2 ^ (binade x + 1) /\
  roundPos x - 2 ^ (binade x - 53) <= x /\
  x <= roundPos x + 2 ^ (binade x - 53).
Proof.
  intro Hx. destruct (binade_spec x Hx) as [L U].
  unfold roundPos. set (k := binade x) in *. set (e := (k - 52)%Z).
  pose proof (pow2_pos e) as P.
  assert (2 ^ k == 2 ^ 52 * 2 ^ e) as Ek.
  { rewrite <- pow2_add. replace (52 + e)%Z with k by (subst e; lia).
    reflexivity. }
  assert (2 ^ (k + 1) == 2 ^ 53 * 2 ^ e) as Ek1.
  { rewrite <- pow2_add. replace (53 + e)%Z with (k + 1)%Z by (subst e; lia).
    reflexivity. }
  assert (2 ^ (k - 53) == (1 # 2) * 2 ^ e) as Eh.
  { replace (k - 53)%Z with (-1 + e)%Z by (subst e; lia).
    rewrite pow2_add. reflexivity. }
  set (s := x / 2 ^ e).
  assert (s * 2 ^ e == x) as Es.
  { subst s. field. intro E. rewrite E in P. apply (Qlt_irrefl _ P). }
  rewrite Ek in L. rewrite Ek1 in U. rewrite Ek, Ek1, Eh.
  assert (2 ^ 52 <= s) as Ls.
  { apply Qnot_lt_le. intro C.
    apply (Qmult_lt_r _ _ (2 ^ e) P) in C. rewrite Es in C. lra. }
  assert (s <= 2 ^ 53) as Us.
  { apply Qnot_lt_le. intro C.
    apply (Qmult_lt_r _ _ (2 ^ e) P) in C. rewrite Es in C. lra. }
  pose proof (nearestEven_mono _ _ Ls) as Ln.
  pose proof (nearestEven_mono _ _ Us) as Un.
  rewrite (nearestEven_wd (2 ^ 52) (inject_Z (2 ^ 52))) in Ln
    by (apply pow2_Z; lia).
  rewrite (nearestEven_wd (2 ^ 53) (inject_Z (2 ^ 53))) in Un
    by (apply pow2_Z; lia).
  rewrite nearestEven_Z in Ln, Un.
  rewrite Zle_Qle in Ln, Un.
  rewrite <- pow2_Z in Ln, Un by lia.
  destruct (nearestEven_near s) as [Nl Nu].
  set (N := inject_Z (nearestEven s)) in *.
  rewrite <- Es.
  set (p := 2 ^ e) in *. set (a := 2 ^ 52) in *. set (b := 2 ^ 53) in *.
  clearbody N s p a b.
  repeat split; nra.
Qed.

Lemma binade_wd x y : 0 < x -> x == y -> binade y = binade x.
Proof.
  intros Hx E. destruct (binade_spec x Hx) as [L U].
  apply binade_unique; rewrite <- E; assumption.
Qed.

Lemma roundPos_wd x y : 0 < x -> x == y -> roundPos x == roundPos y.
Proof.
  intros Hx E. unfold roundPos. rewrite (binade_wd x y Hx E).
  assert (nearestEven (y / 2 ^ (binade x - 52))
          = nearestEven (x / 2 ^ (binade x - 52))) as F.
  { apply nearestEven_wd. unfold Qdiv.
    apply Qmult_comp; [symmetry; exact E | reflexivity]. }
  rewrite F. reflexivity.
Qed.

Lemma binade_mono x y : 0 < x -> x <= y -> (binade x <= binade y)%Z.
Proof.
  intros Hx H.
  destruct (binade_spec x Hx) as [L _].
  destruct (binade_spec y) as [_ U]; [lra |].
  assert (binade x < binade y + 1)%Z; [| lia].
  apply pow2_lt_inv. lra.
Qed.

Lemma roundPos_mono x y : 0 < x -> x <= y -> roundPos x <= roundPos y.
Proof.
  intros Hx H. assert (0 < y) as Hy by lra.
  pose proof (binade_mono x y Hx H) as Hk.
  destruct (Z.eq_dec (binade x) (binade y)) as [E | N].
  - unfold roundPos. rewrite <- E.
    pose proof (pow2_pos (binade x - 52)) as P.
    apply Qmult_le_compat_r; [| apply Qlt_le_weak, P].
    rewrite <- Zle_Qle. apply nearestEven_mono.
    apply Qmult_le_compat_r; [exact H |].
    apply Qlt_le_weak, Qinv_lt_0_compat, P.
  - destruct (roundPos_spec x Hx) as (_ & U & _).
    destruct (roundPos_spec y Hy) as (L & _).
    assert (2 ^ (binade x + 1) <= 2 ^ binade y) by (apply pow2_le; lia).
    lra.
Qed.

Lemma binary64_pos x : 0 < x -> binary64 x = roundPos x.
Proof.
  intro Hx. unfold binary64. destruct x as [[| p | p] d]; try reflexivity;
    unfold Qlt in Hx; simpl in Hx; lia.
Qed.

(** Rounding to binary64 is a rounding in the sense of [rounding]. *)
Lemma binary64_rounds : rounding binary64 eps64.
Proof.
  unfold rounding.
  split; [split; [discriminate | reflexivity] |].
  split; [| split].
  - intros x y Hx E. assert (0 < y) as Hy by (rewrite <- E; exact Hx).
    rewrite !binary64_pos by assumption. apply roundPos_wd; assumption.
  - intros x y Hx H. assert (0 < y) as Hy by lra.
    rewrite !binary64_pos by assumption. apply roundPos_mono; assumption.
  - intros x Hx. rewrite binary64_pos by assumption.
    destruct (binade_spec x Hx) as [L _].
    destruct (roundPos_spec x Hx) as (_ & _ & A & B).
    assert (2 ^ (binade x - 53) == eps64 * 2 ^ binade x) as E.
    { unfold eps64. rewrite <- pow2_add.
      replace (-53 + binade x)%Z with (binade x - 53)%Z by lia. reflexivity. }
    rewrite E in A, B.
    assert (0 <= eps64) as He by discriminate.
    set (p := 2 ^ binade x) in *. clearbody p.
    generalize dependent eps64. intros e A B He.
    split; nra.
Qed.

End Binary64.

Lemma Qfloor_zero x : (Qfloor x = 0)%Z <-> (0 <= x /\ x < 1)%Q.
Proof.
  split.
  - intro E. pose proof (Qfloor_le x) as L. pose proof (Qlt_floor x) as U.
    rewrite E in L, U. split; [exact L | exact U].
  - intros [L U].
    assert (0 <= Qfloor x)%Z as A.
    { change 0%Z with (Qfloor (inject_Z 0)). apply Qfloor_resp_le. exact L. }
    assert (Qfloor x < 1)%Z as B.
    { rewrite Zlt_Qlt. eapply Qle_lt_trans; [apply Qfloor_le | exact U]. }
    lia.
Qed.

(** With the square box [resizeImage] is called with, the image is scaled
    (up or down) so that its longer side fills the box: both sides are
    positive and at most [m], one of them is [m], and the ratio of the
    sides is kept up to the error of the two roundings.  The canvas gets a
    side of 0 exactly when a side comes out below 1. *)
Theorem resizedDimensions_fill_the_box rnd eps width height m :
  rounding rnd eps ->
  (rnd 1 == 1)%Q -> (rnd m == m)%Q ->
  (0 < width)%Q -> (0 < height)%Q -> (0 < m)%Q ->
  let d := resizedDimensions rnd width height m m in
  (0 < fst d /\ fst d <= m)%Q /\
  (0 < snd d /\ snd d <= m)%Q /\
  (fst d == m \/ snd d == m)%Q /\
  ((1 - eps) * (1 - eps) * (snd d * width) <= (1 + eps) * (fst d * height) /\
   (1 - eps) * (fst d * height) <= (1 + eps) * (1 + eps) * (snd d * width))%Q /\
  ((fst (canvasSize d) = 0 \/ snd (canvasSize d) = 0)%Z <->
   (fst d < 1 \/ snd d < 1)%Q).
Proof.
  intros ((He0 & He1) & Heq & Hmono & Herr) H1 Hm Hw Hh Hpos d. subst d.
  unfold resizedDimensions, canvasSize.
  set (q := (width / height)%Q).
  assert (0 < q)%Q as Hq.
  { subst q. apply Qlt_shift_div_l; [exact Hh | lra]. }
  assert (q * height == width)%Q as Eq.
  { subst q. field. lra. }
  destruct (Herr q Hq) as [Rl Ru].
  set (r := rnd q) in *.
  assert (0 < r)%Q as Hr by nra.
  destruct (Qlt_le_dec height width) as [L | G]; cbn [fst snd].
  - (* landscape: the width fills the box *)
    assert (1 <= q)%Q as Q1.
    { subst q. apply Qle_shift_div_l; [exact Hh | lra]. }
    assert (1 <= r)%Q as R1.
    { subst r. rewrite <- H1. apply Hmono; [lra | exact Q1]. }
    set (x := (m / r)%Q).
    assert (x * r == m)%Q as Ex by (subst x; field; lra).
    assert (0 < x)%Q as Hx.
    { subst x. apply Qlt_shift_div_l; [exact Hr | lra]. }
    assert (x <= m)%Q as Xm by nra.
    destruct (Herr x Hx) as [Xl Xu].
    assert (rnd x <= m)%Q as B.
    { rewrite <- Hm. apply Hmono; assumption. }
    assert (0 < rnd x)%Q as P by nra.
    split; [split; [exact Hpos | apply Qle_refl] |].
    split; [split; [exact P | exact B] |].
    split; [left; reflexivity |].
    split.
    + (* x * q lies within (1 - eps) and (1 + eps) of m *)
      assert ((1 - eps) * (x * q) <= m)%Q as A1 by nra.
      assert (m <= (1 + eps) * (x * q))%Q as A2 by nra.
      assert (rnd x * q <= (1 + eps) * (x * q))%Q as S1 by nra.
      assert ((1 - eps) * (x * q) <= rnd x * q)%Q as S2 by nra.
      assert (0 < rnd x * q)%Q as Prq by nra.
      assert (rnd x * width == rnd x * q * height)%Q as Ew
        by (rewrite <- Eq; ring).
      rewrite Ew.
      generalize dependent (rnd x * q)%Q. intros b S1 S2 Pb.
      generalize dependent (x * q)%Q. intros a A1 A2 S1 S2.
      assert ((1 - eps) * b <= (1 + eps) * m)%Q as S3 by nra.
      assert ((1 - eps) * m <= (1 + eps) * b)%Q as S4 by nra.
      clear - He0 He1 Hh Hpos Pb S3 S4.
      split.
      * assert ((1 - eps) * (1 - eps) * b <= (1 + eps) * m)%Q by nra. nra.
      * assert ((1 - eps) * m <= (1 + eps) * (1 + eps) * b)%Q by nra. nra.
    + rewrite !Qfloor_zero. split.
      * intros [[_ H] | [_ H]]; auto.
      * intros [H | H]; [left | right]; split; lra.
  - (* portrait or square: the height fills the box *)
    assert (q <= 1)%Q as Q1.
    { subst q. apply Qle_shift_div_r; [exact Hh | lra]. }
    assert (r <= 1)%Q as R1.
    { subst r. rewrite <- H1. apply Hmono; [exact Hq | exact Q1]. }
    set (x := (m * r)%Q).
    assert (0 < x)%Q as Hx by (subst x; nra).
    assert (x <= m)%Q as Xm by (subst x; nra).
    destruct (Herr x Hx) as [Xl Xu].
    assert (rnd x <= m)%Q as B.
    { rewrite <- Hm. apply Hmono; assumption. }
    assert (0 < rnd x)%Q as P by nra.
    split; [split; [exact P | exact B] |].
    split; [split; [exact Hpos | apply Qle_refl] |].
    split; [right; reflexivity |].
    split.
    + assert ((1 - eps) * (1 - eps) * (m * q) <= rnd x)%Q as S1.
      { assert ((1 - eps) * (m * q) <= x)%Q by (subst x; nra). nra. }
      assert (rnd x <= (1 + eps) * (1 + eps) * (m * q))%Q as S2.
      { assert (x <= (1 + eps) * (m * q))%Q by (subst x; nra). nra. }
      assert (m * width == m * q * height)%Q as Ew by (rewrite <- Eq; ring).
      rewrite Ew.
      assert (0 < m * q)%Q as Pa by nra.
      generalize dependent (m * q)%Q. intros a S1 S2 _ Pa.
      generalize dependent (rnd x). intros b _ _ _ Pb S1 S2.
      clear - He0 He1 Hh Pa Pb S1 S2.
      assert (0 < b * height)%Q as Pbh by nra.
      assert ((1 - eps) * (1 - eps) * a * height <= b * height)%Q as T1 by nra.
      assert (b * height <= (1 + eps) * (1 + eps) * a * height)%Q as T2 by nra.
      generalize dependent (b * height)%Q. intros c Pc T1 T2.
      split; nra.
    + rewrite !Qfloor_zero. split.
      * intros [[_ H] | [_ H]]; auto.
      * intros [H | H]; [left | right]; split; lra.
Qed.

(** An image of 448 x 400, in binary64: the height comes out just below
    200. *)
Lemma resizedDimensions_fill_the_box_witness :
  let d := resizedDimensions binary64 448 400 224 224 in
  (0 < fst d /\ fst d <= 224)%Q /\
  (0 < snd d /\ snd d <= 224)%Q /\
  (fst d == 224 \/ snd d == 224)%Q /\
  ((1 - eps64) * (1 - eps64) * (snd d * 448) <= (1 + eps64) * (fst d * 400) /\
   (1 - eps64) * (fst d * 400) <= (1 + eps64) * (1 + eps64) * (snd d * 448))%Q /\
  ((fst (canvasSize d) = 0 \/ snd (canvasSize d) = 0)%Z <->
   (fst d < 1 \/ snd d < 1)%Q).
Proof.
  apply (resizedDimensions_fill_the_box binary64 eps64 448 400 224);
    try reflexivity.
  apply binary64_rounds.
Defined.

(** In binary64 an image of 640 x 480 is drawn 224 wide and 168 high, and
    one of 448 x 400 is drawn 224 wide and 199 high: 224 / (448 / 400)
    rounds to the number below 200. *)
Example resizedDimensions_in_binary64 :
  canvasSize (resizedDimensions binary64 640 480 224 224) = (224, 168)%Z /\
  canvasSize (resizedDimensions binary64 448 400 224 224) = (224, 199)%Z /\
  canvasSize (resizedDimensions (fun x => x) 448 400 224 224) = (224, 200)%Z.
Proof. repeat split; vm_compute; reflexivity. Qed.

(** [loadMobileNet] never rejects and never resolves to nothing: it
    resolves to the first of the WebGL load, the CPU load and the fallback
    model.  So [loadBaseModel], which awaits it in an initialised hook, ends
    with that base model in the model record and no error, whatever the
    error was; the head and the readiness flag stay as they were. *)
Theorem loadBaseModel_always_loads env L w :
  load_result env = loadMobileNet L ->
  let r := run (loadBaseModel env true) w in
  let b := match webgl_model L, cpu_model L with
           | Some mobilenet, _ => mobilenet
           | None, Some mobilenet => mobilenet
           | None, None => fallback_model L
           end in
  fst r = Done tt /\
  baseModel (mlmodel (hook (snd r))) = Some b /\
  error (hook (snd r)) = None /\
  model (mlmodel (hook (snd r))) = model (mlmodel (hook w)) /\
  isReady (mlmodel (hook (snd r))) = isReady (mlmodel (hook w)) /\
  trainingStatus (hook (snd r)) = trainingStatus (hook w) /\
  live (snd r) = live w.
Proof.
  intros E r b. subst r b. unfold loadBaseModel. cbn [negb].
  rewrite E. unfold loadMobileNet.
  destruct (webgl_model L) as [x |]; [| destruct (cpu_model L) as [y |]];
    simpl; repeat split.
Qed.

Lemma loadBaseModel_always_loads_witness :
  let L := {| webgl_model := None; cpu_model := None;
              fallback_model := demoBase |} in
  let r := run (loadBaseModel quiet true) initialWorld in
  fst r = Done tt /\
  baseModel (mlmodel (hook (snd r))) = Some demoBase /\
  error (hook (snd r)) = None /\
  model (mlmodel (hook (snd r))) = model (mlmodel (hook initialWorld)) /\
  isReady (mlmodel (hook (snd r))) = isReady (mlmodel (hook initialWorld)) /\
  trainingStatus (hook (snd r)) = trainingStatus (hook initialWorld) /\
  live (snd r) = live initialWorld.
Proof.
  apply (loadBaseModel_always_loads quiet
           {| webgl_model := None; cpu_model := None;
              fallback_model := demoBase |} initialWorld).
  reflexivity.
Defined.

Lemma find_first {A} (f : A -> bool) (l : list A) x :
  find f l = Some x ->
  exists pre post, l = (pre ++ x :: post)%list /\ f x = true /\
                   Forall (fun y => f y = false) pre.
Proof.
  induction l as [| a l IH]; simpl; [discriminate |].
  destruct (f a) eqn:E.
  - intro H; inversion H; subst. exists [], l. auto.
  - intro H. destruct (IH H) as (pre & post & E1 & E2 & E3).
    exists (a :: pre), post. subst l. auto.
Qed.

Lemma find_nothing {A} (f : A -> bool) (l : list A) :
  find f l = None -> Forall (fun y => f y = false) l.
Proof.
  intro H. apply Forall_forall. intros y Hy. apply (find_none _ _ H y Hy).
Qed.

(** Where [createTransferModel] cuts the base model: at the first layer, in
    layer order, whose name contains one of the three patterns; without such
    a layer, at the second-last layer; and with fewer than two layers the
    whole base model is the extractor.  The head has one unit per class. *)
Theorem createTransferModel_cut env b numClasses w :
  layers_throw env = false ->
  exists transferModel,
    run (createTransferModel env b numClasses) w = (Done transferModel, w) /\
    head_units transferModel = numClasses /\
    head_base transferModel = b /\
    match head_extractor transferModel with
    | CutAt layerName =>
        exists pre post,
          layers b = (pre ++ layerName :: post)%list /\
          namesFeatureLayer layerName = true /\
          Forall (fun l => namesFeatureLayer l = false) pre
    | CutAtLayer index =>
        Forall (fun l => namesFeatureLayer l = false) (layers b) /\
        index + 2 = List.length (layers b)
    | FullModel =>
        Forall (fun l => namesFeatureLayer l = false) (layers b) /\
        List.length (layers b) < 2
    end.
Proof.
  intro H. unfold createTransferModel. rewrite H.
  eexists. split; [reflexivity |]. cbn [head_units head_base head_extractor].
  split; [reflexivity |]. split; [reflexivity |].
  unfold featureExtractor. fold namesFeatureLayer.
  change (fun l : string => includes l "global_average_pooling"
                            || includes l "flatten" || includes l "dense")
    with namesFeatureLayer.
  destruct (find namesFeatureLayer (layers b)) as [l |] eqn:F.
  - apply find_first in F. exact F.
  - apply find_nothing in F.
    destruct (Nat.leb_spec 2 (List.length (layers b))); split; auto; lia.
Qed.

Lemma createTransferModel_cut_witness :
  exists transferModel,
    run (createTransferModel quiet demoBase 3) initialWorld
    = (Done transferModel, initialWorld) /\
    head_units transferModel = 3 /\
    head_base transferModel = demoBase /\
    match head_extractor transferModel with
    | CutAt layerName =>
        exists pre post,
          layers demoBase = (pre ++ layerName :: post)%list /\
          namesFeatureLayer layerName = true /\
          Forall (fun l => namesFeatureLayer l = false) pre
    | CutAtLayer index =>
        Forall (fun l => namesFeatureLayer l = false) (layers demoBase) /\
        index + 2 = List.length (layers demoBase)
    | FullModel =>
        Forall (fun l => namesFeatureLayer l = false) (layers demoBase) /\
        List.length (layers demoBase) < 2
    end.
Proof.
  apply (createTransferModel_cut quiet demoBase 3 initialWorld). reflexivity.
Defined.

(* ================================================================== *)
(** * More on training runs *)
(* ================================================================== *)


Lemma forM_awaitImage_hangs env i l w :
  (exists sample, In sample l /\ img_loads env (url sample) = None) ->
  fst (run (forM l (awaitImage env i)) w) = Hung.
Proof.
  revert w; induction l as [| s l IH]; intros w [x [Hin Hx]]; [destruct Hin |].
  cbn [forM]. rewrite run_bind. unfold awaitImage at 1.
  destruct (img_loads env (url s)) as [t |] eqn:E.
  - cbn [run await bind setClock modify act fst snd]. rewrite run_bind.
    destruct Hin as [Hin | Hin]; [subst x; congruence |].
    match goal with |- context [run (forM l _) ?w1] =>
      specialize (IH w1 (ex_intro _ x (conj Hin Hx)));
      destruct (run (forM l (awaitImage env i)) w1) as [o w2] end.
    simpl in IH. subst o. reflexivity.
  - reflexivity.
Qed.

Lemma forM_awaitImage_no_throw env i l w :
  fst (run (forM l (awaitImage env i)) w) <> Thrown.
Proof.
  revert w; induction l as [| s l IH]; intro w; [discriminate |].
  cbn [forM]. rewrite run_bind. unfold awaitImage at 1.
  destruct (img_loads env (url s)) as [t |]; [| discriminate].
  cbn [run await bind setClock modify act fst snd]. rewrite run_bind.
  match goal with |- context [run (forM l _) ?w1] =>
    specialize (IH w1);
    destruct (run (forM l (awaitImage env i)) w1) as [[ys | |] w2] end;
    simpl in *; congruence.
Qed.

Lemma loadImages_hangs env i classes w :
  (exists cls sample, In cls classes /\ In sample (samples cls) /\
                      img_loads env (url sample) = None) ->
  fst (run (loadImages env i classes) w) = Hung.
Proof.
  revert i w; induction classes as [| c l IH]; intros i w (cls & s & Hc & Hs & E);
    [destruct Hc |].
  cbn [loadImages]. fold (awaitImage env i). rewrite run_bind.
  destruct Hc as [Hc | Hc].
  - subst cls.
    pose proof (forM_awaitImage_hangs env i (samples c) w
                  (ex_intro _ s (conj Hs E))) as H.
    destruct (run (forM (samples c) _) w) as [o w1]. simpl in H. subst o.
    reflexivity.
  - pose proof (forM_awaitImage_no_throw env i (samples c) w) as H.
    destruct (run (forM (samples c) _) w) as [[here | |] w1]; simpl in H;
      [| congruence | reflexivity].
    rewrite run_bind.
    specialize (IH (S i) w1 (ex_intro _ cls (ex_intro _ s (conj Hc (conj Hs E))))).
    destruct (run (loadImages env (S i) l) w1) as [o w2]. simpl in IH. subst o.
    reflexivity.
Qed.

(** A sample whose image never fires [onload] (the loop sets no [onerror]
    handler) keeps an accepted [startTraining] waiting for ever: the status
    stays ['training'], with the error cleared and the history emptied, and
    no tensor has been made. *)
Theorem startTraining_waits_for_ever env m classes epochs w :
  2 <= List.length classes ->
  (forall cls, In cls classes -> samples cls <> []) ->
  (exists cls sample, In cls classes /\ In sample (samples cls) /\
                      img_loads env (url sample) = None) ->
  let r := run (startTraining env (Some m) classes epochs) w in
  fst r = Hung /\
  trainingStatus (hook (snd r)) = st_training /\
  error (hook (snd r)) = None /\
  trainingHistory (hook (snd r)) = [] /\
  mlmodel (hook (snd r)) = mlmodel (hook w) /\
  live (snd r) = live w /\
  next_tid (snd r) = next_tid w /\
  progress_stream (snd r) = progress_stream w.
Proof.
  intros H2 Hne Hex r. subst r.
  rewrite startTraining_accepted by assumption. rewrite run_try_catch.
  unfold trainingRun.
  do 3 (rewrite run_bind; cbn [run setTrainingStatus setError
                               setTrainingHistory modify act fst snd]).
  set (w3 := with_hook _ (with_hook _ (with_hook _ w))).
  unfold trainingSteps. rewrite run_bind.
  pose proof (loadImages_hangs env 0 classes w3 Hex) as H.
  pose proof (always_run only_clock only_clock_refl only_clock_trans
                _ w3 (loadImages_only_clock env 0 classes)) as F.
  destruct (run (loadImages env 0 classes) w3) as [o w4].
  simpl in H, F. subst o. cbn [fst snd].
  destruct F as (Fh & Fl & Fn & Fs). rewrite Fh, Fl, Fn, Fs.
  subst w3. simpl. repeat split.
Qed.

Lemma startTraining_waits_for_ever_witness :
  let env := {| img_loads := fun u => if String.eqb u "blob:d2" then None
                                      else Some 10%Z;
                tf_throws := fun _ => false;
                fit_trace := fun _ => twoEpochs;
                fit_ok := true; layers_throw := false;
                load_result := Loaded demoBase; save_ok := true |} in
  let r := run (startTraining env (Some (demoHead 2)) [cats; dogs] 2)
               builtWorld in
  fst r = Hung /\
  trainingStatus (hook (snd r)) = st_training /\
  error (hook (snd r)) = None /\
  trainingHistory (hook (snd r)) = [] /\
  mlmodel (hook (snd r)) = mlmodel (hook builtWorld) /\
  live (snd r) = live builtWorld /\
  next_tid (snd r) = next_tid builtWorld /\
  progress_stream (snd r) = progress_stream builtWorld.
Proof.
  intro env.
  apply (startTraining_waits_for_ever env (demoHead 2) [cats; dogs] 2
           builtWorld).
  - simpl; lia.
  - intros cls [H | [H | []]]; subst cls; discriminate.
  - exists dogs, (sampleOf "d2"). simpl. auto.
Defined.

(** What an accepted [startTraining] records, whatever [model.fit] reports:
    one progress record and one history entry for each [onEpochEnd] call
    that comes with logs, in the order of the calls, and none for a call
    without logs.  When [model.fit] resolves the call ends ['completed']
    with a ready model, however many epochs were reported; when it rejects
    the call ends in the error state, and the history keeps the epochs
    reported before. *)
Theorem startTraining_records_reported_epochs env m classes epochs w :
  2 <= List.length classes ->
  (forall cls, In cls classes -> samples cls <> []) ->
  images_load env classes ->
  (forall op, tf_throws env op = false) ->
  let r := run (startTraining env (Some m) classes epochs) w in
  exists startTime,
    let records :=
      map (progress_of epochs startTime (total_samples classes))
          (reported (fit_trace env epochs)) in
    fst r = Done tt /\
    progress_stream (snd r) = (progress_stream w ++ records)%list /\
    trainingHistory (hook (snd r)) = map entry_of records /\
    trainingStatus (hook (snd r))
    = (if fit_ok env then st_completed else st_error) /\
    isReady (mlmodel (hook (snd r)))
    = (if fit_ok env then true else isReady (mlmodel (hook w))) /\
    error (hook (snd r))
    = (if fit_ok env then None else Some msg_training_failed).
Proof.
  intros H2 Hne Hload Htf r. subst r.
  rewrite startTraining_accepted by assumption. rewrite run_try_catch.
  unfold trainingRun.
  do 3 (rewrite run_bind; cbn [run setTrainingStatus setError
                               setTrainingHistory modify act fst snd]).
  set (w3 := with_hook _ (with_hook _ (with_hook _ w))).
  destruct (trainingSteps_to_fit env m classes epochs w3 Hload Htf)
    as (w5 & (F5h & F5s & _) & E).
  rewrite E. clear E. exists (clock w5).
  match goal with |- context [run (trainModel env m ?xs ?ys epochs ?cb) ?w8] =>
    pose proof (trainModel_run env m xs ys epochs (clock w5)
                  (total_samples classes) w8) as F;
    cbv zeta in F;
    destruct (run (trainModel env m xs ys epochs cb) w8) as [o w9]
  end.
  destruct F as (H1 & H3 & H4 & (H5 & H6 & H7) & H8).
  simpl in H1, H3, H4, H5, H6, H7, H8.
  cbv zeta.
  destruct (fit_ok env); subst o; simpl;
    rewrite ?H3, ?H4, ?H5, ?H6, ?H7, ?F5s, ?F5h; subst w3; simpl;
    repeat split.
Qed.

Lemma startTraining_records_reported_epochs_witness :
  let trace :=
    [{| fe_epoch := 0; fe_logs := logsOf (7 # 10) (1 # 2); fe_now := 1510 |};
     {| fe_epoch := 1; fe_logs := None; fe_now := 3020 |};
     {| fe_epoch := 2;
        fe_logs := Some {| logs_loss := 1 # 10; logs_acc := None |};
        fe_now := 4530 |}] in
  let r := run (startTraining (envOf trace false) (Some (demoHead 2))
                  [cats; dogs] 3) builtWorld in
  exists startTime,
    let records :=
      map (progress_of 3 startTime (total_samples [cats; dogs]))
          (reported (fit_trace (envOf trace false) 3)) in
    fst r = Done tt /\
    progress_stream (snd r) = (progress_stream builtWorld ++ records)%list /\
    trainingHistory (hook (snd r)) = map entry_of records /\
    trainingStatus (hook (snd r))
    = (if fit_ok (envOf trace false) then st_completed else st_error) /\
    isReady (mlmodel (hook (snd r)))
    = (if fit_ok (envOf trace false) then true
       else isReady (mlmodel (hook builtWorld))) /\
    error (hook (snd r))
    = (if fit_ok (envOf trace false) then None else Some msg_training_failed).
Proof.
  intro trace.
  apply (startTraining_records_reported_epochs (envOf trace false)
           (demoHead 2) [cats; dogs] 3 builtWorld).
  - simpl; lia.
  - intros cls [H | [H | []]]; subst cls; discriminate.
  - intros cls s _ _. simpl. discriminate.
  - intro op. reflexivity.
Defined.

(** The two errors of [makePrediction], and when each is thrown: ["Model not
    ready for predictions"] exactly when there is no head or the model is
    not ready, in which case the forward pass is not run; ["Failed to make
    prediction"] exactly when the forward pass of a ready model throws.
    There is no other error. *)
Theorem makePrediction_errors K m imageElement classes :
  (makePrediction K m imageElement classes = inl msg_predict_not_ready <->
   model m = None \/ isReady m = false) /\
  (makePrediction K m imageElement classes = inl msg_predict_failed <->
   exists h, model m = Some h /\ isReady m = true /\
             predict K h imageElement = None) /\
  (forall e, makePrediction K m imageElement classes = inl e ->
             e = msg_predict_not_ready \/ e = msg_predict_failed).
Proof.
  unfold makePrediction.
  destruct (model m) as [h |] eqn:Hm.
  - destruct (isReady m) eqn:Hr; cbn [negb].
    + destruct (predict K h imageElement) as [d |] eqn:Hp.
      * repeat split; try discriminate.
        -- intros [H | H]; discriminate.
        -- intros (h' & E & _ & Hp'). inversion E; subst. congruence.
      * repeat split; try discriminate; auto.
        -- intros [H | H]; discriminate.
        -- intros _. exists h. auto.
        -- intros e E. inversion E. auto.
    + repeat split; auto; try discriminate.
      * intros (h' & _ & E & _). discriminate.
      * intros e E. inversion E. auto.
  - repeat split; auto; try discriminate.
    + intros (h' & E & _). discriminate.
    + intros e E. inversion E. auto.
Qed.

Lemma imageTensor_run env w :
  (forall op, tf_throws env op = false) ->
  handles_wf w ->
  run (imageTensor env) w =
  (Done (next_tid w + 3),
   {| hook := hook w;
      live := live w ++ [{| tid := next_tid w + 3; producer := Div |}];
      next_tid := next_tid w + 4; clock := clock w;
      progress_stream := progress_stream w |}).
Proof.
  intros Htf Hwf. unfold imageTensor, tidy, tf. rewrite !Htf.
  replace (next_tid w + 3) with (S (S (S (next_tid w)))) by lia.
  replace (next_tid w + 4) with (S (S (S (S (next_tid w))))) by lia.
  simpl. do 2 f_equal.
  rewrite !filter_app. cbn [filter tid].
  rewrite filter_all.
  - repeat match goal with
    | |- context [?a <? ?b] => destruct (Nat.ltb_spec a b); [lia |]
    | |- context [?a =? ?b] =>
        destruct (Nat.eqb_spec a b); [try lia | try lia]
    end; cbn [orb]; rewrite ?app_nil_r; reflexivity.
  - intros i Hi. apply orb_true_iff. left. apply Nat.ltb_lt.
    unfold handles_wf in Hwf. eapply Forall_forall in Hwf; eauto.
Qed.

Lemma forM_imageTensor_run env {A} (l : list A) w :
  (forall op, tf_throws env op = false) ->
  handles_wf w ->
  exists ts,
    run (forM l (fun _ => imageTensor env)) w =
    (Done ts,
     {| hook := hook w;
        live := live w ++ imageTensors (next_tid w) (List.length l);
        next_tid := next_tid w + 4 * List.length l; clock := clock w;
        progress_stream := progress_stream w |}).
Proof.
  intros Htf. revert w; induction l as [| x l IH]; intros w Hwf.
  - exists []. simpl. rewrite app_nil_r, Nat.add_0_r. destruct w; reflexivity.
  - cbn [forM]. rewrite run_bind, imageTensor_run by assumption.
    rewrite run_bind.
    match goal with |- context [run (forM l _) ?w1] =>
      destruct (IH w1) as [ts E] end.
    { unfold handles_wf in *. cbn [live next_tid].
      apply Forall_app. split.
      - eapply Forall_impl; [| exact Hwf]. simpl; intros; lia.
      - repeat constructor. simpl; lia. }
    rewrite E. cbn [run hook live next_tid clock progress_stream].
    eexists. do 2 f_equal.
    + rewrite <- app_assoc. reflexivity.
    + cbn [List.length]. lia.
Qed.

Lemma imageTensors_below start n :
  Forall (fun i => tid i < start + 4 * n) (imageTensors start n).
Proof.
  revert start; induction n as [| n IH]; intro start; simpl; constructor.
  - simpl; lia.
  - eapply Forall_impl; [| apply (IH (start + 4))]. simpl; intros; lia.
Qed.

Lemma imageTensors_producer op start n :
  op <> Div ->
  filter (fun i => TensorOp_eqb (producer i) op) (imageTensors start n) = [].
Proof.
  intro N. revert start; induction n as [| n IH]; intro start; simpl; auto.
  rewrite IH. destruct op; simpl; congruence.
Qed.

Lemma imageTensors_length start n : List.length (imageTensors start n) = n.
Proof. revert start; induction n; intro; simpl; auto. Qed.

Lemma filter_other_handles (l : list TensorInfo) t :
  Forall (fun i => tid i <> t) l ->
  filter (fun i => negb (tid i =? t)) l = l.
Proof.
  intro H. apply filter_all. intros i Hi.
  apply negb_true_iff, Nat.eqb_neq. eapply Forall_forall in H; eauto.
Qed.

Lemma trainModel_keeps_handles env m xs ys epochs startTime n :
  always (fun w w' => next_tid w' = next_tid w)
         (trainModel env m xs ys epochs (Some (onEpoch epochs startTime n))).
Proof.
  unfold trainModel, fit.
  apply always_bind; [| intro; apply always_bind; [exact I | intro]].
  - apply always_forM_. intro ev. simpl. repeat split; auto.
    destruct (fe_logs ev); simpl; repeat split; auto.
  - destruct (fit_ok env); exact I.
Qed.

(** The tensors of the [try] block of a run that completes. *)
Lemma trainingSteps_tensors env m classes epochs w :
  images_load env classes ->
  (forall op, tf_throws env op = false) ->
  fit_ok env = true ->
  handles_wf w ->
  let r := run (trainingSteps env m classes epochs) w in
  fst r = Done tt /\
  trainingStatus (hook (snd r)) = st_completed /\
  live (snd r)
  = (live w ++ tensorsLeft (next_tid w) (total_samples classes))%list /\
  next_tid (snd r) = next_tid w + 4 * total_samples classes + 3.
Proof.
  intros Hload Htf Hok Hwf r. subst r. unfold trainingSteps.
  destruct (loadImages_done env 0 classes w Hload) as [all [Hall Hlen]].
  pose proof (always_run only_clock only_clock_refl only_clock_trans
                _ w (loadImages_only_clock env 0 classes)) as F4.
  rewrite run_bind.
  destruct (run (loadImages env 0 classes) w) as [o w4].
  cbn [fst snd] in Hall, F4. subst o. destruct F4 as (_ & Fl & Fn & _).
  assert (handles_wf w4) as Hwf4 by (unfold handles_wf; rewrite Fl, Fn; exact Hwf).
  destruct (forM_imageTensor_run env (map fst all) w4 Htf Hwf4) as [ts E].
  rewrite run_bind, E. clear E.
  rewrite length_map, Hlen, Fl, Fn.
  set (n := total_samples classes).
  set (X := next_tid w + 4 * n).
  do 3 (rewrite run_bind, tf_done by apply Htf).
  rewrite run_bind. cbn [run Date_now act fst snd allocate next_tid clock live].
  rewrite run_bind.
  match goal with |- context [run (trainModel env m ?xs ?ys epochs ?cb) ?w8] =>
    pose proof (trainModel_run env m xs ys epochs (clock w4) n w8) as F;
    pose proof (always_run (fun w w' => next_tid w' = next_tid w)
                  (fun _ => eq_refl)
                  (fun a b c H1 H2 => eq_trans H2 H1) _ w8
                  (trainModel_keeps_handles env m xs ys epochs (clock w4) n))
      as G;
    cbv zeta in F;
    destruct (run (trainModel env m xs ys epochs cb) w8) as [o w9]
  end.
  destruct F as (H1 & _ & _ & _ & H8). cbn [fst snd live next_tid] in H1, H8, G.
  rewrite Hok in H1. subst o.
  cbn [run dispose setModel setTrainingStatus modify act bind fst snd
       with_hook live next_tid].
  split; [reflexivity |]. split; [reflexivity |]. split; [| rewrite G; lia].
  rewrite H8, !filter_app. cbn [filter tid].
  assert (Forall (fun i => tid i < X) (live w)) as A.
  { eapply Forall_impl; [| exact Hwf]. simpl. intros; subst X; lia. }
  pose proof (imageTensors_below (next_tid w) n) as B. fold X in B.
  assert (forall l t, Forall (fun i => tid i < X) l -> X <= t ->
            filter (fun i : TensorInfo => negb (tid i =? t)) l = l) as Keep.
  { intros l t Hl Ht. apply filter_other_handles.
    eapply Forall_impl; [| exact Hl]. simpl. intros; lia. }
  rewrite (Keep (live w) X), (Keep (live w) (S (S X))),
    (Keep (imageTensors (next_tid w) n) X),
    (Keep (imageTensors (next_tid w) n) (S (S X))) by (auto; lia).
  repeat match goal with
  | |- context [?a =? ?b] =>
      destruct (Nat.eqb_spec a b); [try lia | try lia]
  end; cbn [negb app filter tid].
  repeat match goal with
  | |- context [?a =? ?b] =>
      destruct (Nat.eqb_spec a b); [try lia | try lia]
  end; cbn [negb app filter tid].
  unfold tensorsLeft. rewrite ?app_nil_r, <- !app_assoc. cbn [app].
  replace (S X) with (next_tid w + 4 * n + 1) by (subst X; lia). reflexivity.
Qed.

Lemma imageTensors_all_div start n :
  filter (fun i => TensorOp_eqb (producer i) Div) (imageTensors start n)
  = imageTensors start n.
Proof.
  revert start; induction n as [| n IH]; intro start; simpl; auto.
  rewrite IH. reflexivity.
Qed.

(** Of the tensors it makes through the calls of [TensorOp], a run that
    completes disposes of the stacked inputs and of the one-hot labels, and
    of nothing else: the normalised tensor of every image and the tensor of
    the labels stay allocated.  So each completed run leaves one such
    tensor per sample, and one more (besides what the engine keeps of its
    own: the variables of the optimizer made for the run are not counted
    here). *)
Theorem completed_run_leaves_tensors env m classes epochs w :
  2 <= List.length classes ->
  (forall cls, In cls classes -> samples cls <> []) ->
  images_load env classes ->
  (forall op, tf_throws env op = false) ->
  fit_ok env = true ->
  handles_wf w ->
  let r := run (startTraining env (Some m) classes epochs) w in
  fst r = Done tt /\
  trainingStatus (hook (snd r)) = st_completed /\
  List.length (live_of Div (snd r))
  = List.length (live_of Div w) + total_samples classes /\
  List.length (live_of Tensor1d (snd r))
  = List.length (live_of Tensor1d w) + 1 /\
  (forall op, op <> Div -> op <> Tensor1d ->
     live_of op (snd r) = live_of op w) /\
  handles_wf (snd r).
Proof.
  intros H2 Hne Hload Htf Hok Hwf r. subst r.
  rewrite startTraining_accepted by assumption. rewrite run_try_catch.
  unfold trainingRun.
  do 3 (rewrite run_bind; cbn [run setTrainingStatus setError
                               setTrainingHistory modify act fst snd]).
  set (w3 := with_hook _ (with_hook _ (with_hook _ w))).
  destruct (trainingSteps_tensors env m classes epochs w3 Hload Htf Hok Hwf)
    as (Hd & Hs & Hl & Hn).
  destruct (run (trainingSteps env m classes epochs) w3) as [o w9].
  cbn [fst snd] in *. subst o.
  change (live w3) with (live w) in Hl.
  change (next_tid w3) with (next_tid w) in Hl, Hn.
  clearbody w3.
  split; [reflexivity |]. split; [exact Hs |].
  cbn [fst snd].
  split; [| split; [| split]].
  - unfold live_of. rewrite Hl, filter_app, map_app, length_app.
    unfold tensorsLeft. rewrite filter_app, imageTensors_all_div.
    cbn [filter producer TensorOp_eqb]. rewrite app_nil_r.
    rewrite !length_map, imageTensors_length. reflexivity.
  - unfold live_of. rewrite Hl, filter_app, map_app, length_app.
    unfold tensorsLeft. rewrite filter_app.
    rewrite (imageTensors_producer Tensor1d) by discriminate.
    reflexivity.
  - intros op N1 N2. unfold live_of. rewrite Hl, filter_app, map_app.
    unfold tensorsLeft. rewrite filter_app. cbn [filter producer].
    rewrite (imageTensors_producer op _ _ N1).
    destruct op; simpl; try congruence; apply app_nil_r.
  - unfold handles_wf. rewrite Hl, Hn. apply Forall_app. split.
    + eapply Forall_impl; [| exact Hwf]. simpl; intros; lia.
    + unfold tensorsLeft. apply Forall_app. split.
      * eapply Forall_impl; [| apply imageTensors_below]. simpl; intros; lia.
      * repeat constructor. simpl; lia.
Qed.

Lemma completed_run_leaves_tensors_witness :
  let r := run (startTraining (envOf twoEpochs true) (Some (demoHead 2))
                  [cats; dogs] 2) builtWorld in
  fst r = Done tt /\
  trainingStatus (hook (snd r)) = st_completed /\
  List.length (live_of Div (snd r))
  = List.length (live_of Div builtWorld) + total_samples [cats; dogs] /\
  List.length (live_of Tensor1d (snd r))
  = List.length (live_of Tensor1d builtWorld) + 1 /\
  (forall op, op <> Div -> op <> Tensor1d ->
     live_of op (snd r) = live_of op builtWorld) /\
  handles_wf (snd r).
Proof.
  apply (completed_run_leaves_tensors (envOf twoEpochs true) (demoHead 2)
           [cats; dogs] 2 builtWorld).
  - simpl; lia.
  - intros cls [H | [H | []]]; subst cls; discriminate.
  - intros cls s _ _. simpl. discriminate.
  - intro op. reflexivity.
  - reflexivity.
  - constructor.
Defined.

(** The images and the labels of a run: the images of the first class in
    the order of its samples, then those of the second class, and so on;
    the label of an image is the position of its class in the list, so it
    lies below the number of classes, which is the depth of the one-hot
    encoding. *)
Theorem loadImages_labels env classes w :
  images_load env classes ->
  exists all,
    fst (run (loadImages env 0 classes) w) = Done all /\
    map fst all = map url (flat_map samples classes) /\
    map snd all = labelsOf 0 classes /\
    Forall (fun label => label < List.length classes) (map snd all) /\
    forall k cls, nth_error classes k = Some cls ->
      count_occ Nat.eq_dec (map snd all) k = List.length (samples cls).
Proof.
  intro Hload.
  assert (forall i cs w0, images_load env cs ->
            exists all,
              fst (run (loadImages env i cs) w0) = Done all /\
              map fst all = map url (flat_map samples cs) /\
              map snd all = labelsOf i cs) as Hrun.
  { intros i cs. revert i. induction cs as [| c l IH]; intros i w0 Hl.
    - exists []. repeat split.
    - cbn [loadImages]. fold (awaitImage env i). rewrite run_bind.
      pose proof (forM_awaitImage_done env i (samples c) w0
                    (fun s Hs => Hl c s (or_introl eq_refl) Hs)) as Hh.
      destruct (run (forM (samples c) _) w0) as [o w1]. cbn [fst] in Hh. subst o.
      rewrite run_bind.
      destruct (IH (S i) w1) as (others & Ho & Hf & Hs).
      { intros cls s Hc Hs. apply (Hl cls s); simpl; auto. }
      destruct (run (loadImages env (S i) l) w1) as [o w2]. cbn [fst] in Ho.
      subst o. eexists. split; [reflexivity |].
      cbn [flat_map labelsOf]. rewrite !map_app, Hf, Hs, !map_map. cbn [fst snd].
      split; [reflexivity |]. f_equal.
      clear. induction (samples c); simpl; congruence. }
  destruct (Hrun 0 classes w Hload) as (all & Hd & Hf & Hs).
  exists all. rewrite Hs. repeat split; auto.
  - assert (forall i cs, Forall (fun label => label < i + List.length cs)
                                (labelsOf i cs)) as Hb.
    { intros i cs. revert i. induction cs as [| c l IH]; intro i; simpl; auto.
      apply Forall_app. split.
      - apply Forall_forall. intros x Hx. apply repeat_spec in Hx. lia.
      - eapply Forall_impl; [| apply (IH (S i))]. simpl; intros; lia. }
    apply (Hb 0 classes).
  - assert (forall i cs k cls, nth_error cs k = Some cls ->
              count_occ Nat.eq_dec (labelsOf i cs) (i + k)
              = List.length (samples cls)) as Hc.
    { intros i cs. revert i. induction cs as [| c l IH]; intros i k cls Hk.
      - destruct k; discriminate.
      - cbn [labelsOf]. rewrite count_occ_app.
        assert (forall j, i < j -> count_occ Nat.eq_dec (labelsOf j l) i = 0) as Z.
        { clear. revert i. induction l as [| c l IH]; intros i j Hj; simpl; auto.
          rewrite count_occ_app, (IH i (S j)) by lia.
          rewrite Nat.add_0_r. apply count_occ_not_In. intro Hin.
          apply repeat_spec in Hin. lia. }
        destruct k as [| k]; simpl in Hk.
        + inversion Hk; subst. rewrite Nat.add_0_r, Z by lia.
          rewrite Nat.add_0_r. clear.
          induction (samples cls); simpl; auto.
          destruct (Nat.eq_dec i i); [lia | congruence].
        + replace (i + S k) with (S i + k) by lia.
          rewrite (IH (S i) k cls Hk).
          replace (count_occ Nat.eq_dec (repeat i (List.length (samples c)))
                     (S i + k)) with 0; [reflexivity |].
          symmetry. apply count_occ_not_In. intro Hin.
          apply repeat_spec in Hin. lia. }
    intros k cls Hk. apply (Hc 0 classes k cls Hk).
Qed.

Lemma loadImages_labels_witness :
  exists all,
    fst (run (loadImages quiet 0 [cats; dogs]) builtWorld) = Done all /\
    map fst all = map url (flat_map samples [cats; dogs]) /\
    map snd all = labelsOf 0 [cats; dogs] /\
    Forall (fun label => label < List.length [cats; dogs]) (map snd all) /\
    forall k cls, nth_error [cats; dogs] k = Some cls ->
      count_occ Nat.eq_dec (map snd all) k = List.length (samples cls).
Proof.
  apply (loadImages_labels quiet [cats; dogs] builtWorld).
  intros cls s _ _. simpl. discriminate.
Defined.

(* ================================================================== *)
(** * What the page keeps, in every state it reaches *)
(* ================================================================== *)

Lemma same_head_refl w : same_head w w.
Proof. split; reflexivity. Qed.
Lemma same_head_trans a b c : same_head a b -> same_head b c -> same_head a c.
Proof. unfold same_head. intuition congruence. Qed.

Ltac head_leaf := unfold same_head; simpl; now auto.

Lemma startTraining_same_head env mm classes epochs :
  always same_head (startTraining env mm classes epochs).
Proof.
  unfold startTraining.
  destruct mm as [m |]; [| simpl; split; [intro; head_leaf | intro; exact I]].
  destruct (_ <? 2); [simpl; split; [intro; head_leaf | intro; exact I] |].
  destruct (0 <? _); [simpl; split; [intro; head_leaf | intro; exact I] |].
  apply always_try_catch;
    [| simpl; split; [intro; head_leaf | intro; split;
                                          [intro; head_leaf | intro; exact I]]].
  unfold trainingRun, trainingSteps.
  repeat first
    [ apply always_bind; [| intro]
    | apply loadImages_always; intros; head_leaf
    | apply always_forM; intro
    | apply always_forM_; intro
    | apply always_try_catch
    | exact I
    | match goal with
      | |- always _ (if ?c then _ else _) => destruct c
      | |- always _ (match ?c with _ => _ end) => destruct c
      | |- always _ (Act _ _) => simpl; split; [intro; head_leaf | intro]
      | |- always _ (Await _) => simpl
      | |- always _ _ =>
          progress unfold setError, setModel, setTrainingStatus,
            setTrainingProgress, setTrainingHistory, clearError, tf, dispose,
            endScope, tidy, Date_now, setClock, modify, act, await,
            imageTensor, fit, trainModel, trainingFailed, onEpoch
      end ].
Qed.

Lemma exportModel_same_model env m : always same_model (exportModel env m).
Proof. unfold exportModel. frame. Qed.

(** What [createModel] leaves in the model record. *)
Lemma createModel_result env b classes w :
  2 <= List.length classes ->
  mlmodel (hook (snd (run (createModel env (Some b) classes) w)))
  = if layers_throw env then mlmodel (hook w)
    else {| model := Some {| head_base := b;
                             head_extractor := featureExtractor b;
                             head_dropout := 2 # 10;
                             head_units := List.length classes;
                             head_activation := "softmax" |};
            isReady := false;
            baseModel := baseModel (mlmodel (hook w)) |}.
Proof.
  intro H. unfold createModel, createTransferModel.
  destruct (Nat.ltb_spec (List.length classes) 2) as [Hlt | _]; [lia |].
  destruct (layers_throw env); reflexivity.
Qed.

Lemma createModelEffect_model_inv env s :
  model_inv (mlmodel (hook (world s))) ->
  model_inv (mlmodel (hook (world (createModelEffect env s)))).
Proof.
  intro H. unfold createModelEffect.
  destruct (match effect_deps s with
            | Some seen => negb (deps_eqb seen _)
            | None => true
            end); [| exact H].
  destruct (baseModel (mlmodel (hook (world s)))) as [b |] eqn:Hb;
    cbn [isSome andb]; [| exact H].
  destruct (Nat.leb_spec 2 (List.length (classes s))) as [H2 | _]; [| exact H].
  cbn [with_world world]. rewrite createModel_result by assumption.
  destruct (layers_throw env); [exact H |].
  split; cbn [isReady model baseModel]; [discriminate |].
  intros h E. inversion E; subst h. cbn [head_base head_units head_extractor].
  auto.
Qed.

Lemma commit_model_inv env s :
  model_inv (mlmodel (hook (world s))) ->
  model_inv (mlmodel (hook (world (commit env s)))).
Proof.
  intro H. unfold commit.
  destruct (errorToastEffect_frame
              (createModelEffect env (errorToastEffect s))) as (E1 & _).
  rewrite E1. apply createModelEffect_model_inv.
  destruct (errorToastEffect_frame s) as (E2 & _). rewrite E2. exact H.
Qed.

Lemma step_model_inv env ev s :
  model_inv (mlmodel (hook (world s))) ->
  model_inv (mlmodel (hook (world (step env ev s)))).
Proof.
  intro H. unfold step. apply commit_model_inv.
  destruct ev; try exact H.
  - (* the base model loads *)
    destruct (isInitialized _ && negb _) eqn:G; [| exact H].
    apply andb_true_iff in G. destruct G as [Gi Gb].
    destruct (baseModel (mlmodel (hook (world s)))) eqn:Hb; [discriminate |].
    destruct H as [H1 H2].
    assert (model (mlmodel (hook (world s))) = None) as Hm.
    { destruct (model (mlmodel (hook (world s)))) as [h |] eqn:Hm; auto.
      destruct (H2 h eq_refl) as [Hbase _]. congruence. }
    assert (isReady (mlmodel (hook (world s))) = false) as Hr.
    { destruct (isReady (mlmodel (hook (world s)))); auto.
      exfalso. apply H1; auto. }
    cbn [with_world world]. rewrite Gi. unfold loadBaseModel. cbn [negb].
    destruct (load_result env); simpl; rewrite ?Hm, ?Hr;
      first [ split; cbn [isReady model]; [discriminate | discriminate]
            | split; [rewrite Hr; discriminate | rewrite Hm; discriminate] ].
  - (* a training run *)
    unfold handleStartTraining.
    destruct (_ <? 2); [exact H |].
    destruct (_ <? 3); [exact H |].
    cbn [with_world world].
    pose proof (always_run same_head same_head_refl same_head_trans _ (world s)
                  (startTraining_same_head env
                     (model (mlmodel (hook (world s)))) (classes s) epochs))
      as [Fm Fb].
    destruct H as [H1 H2]. split.
    + intro Hr. rewrite Fm.
      destruct (model (mlmodel (hook (world s)))) as [h |] eqn:Hm;
        [discriminate |].
      (* without a head the call only sets the error *)
      exfalso. simpl in Hr. apply H1; auto.
    + intros h Hh. rewrite Fb. rewrite Fm in Hh. apply H2, Hh.
  - (* an export *)
    cbn [with_world world].
    pose proof (always_run same_model same_model_refl same_model_trans _ (world s)
                  (exportModel_same_model env (mlmodel (hook (world s))))) as F.
    unfold same_model in F. rewrite F. exact H.
Qed.

Lemma steps_model_inv trace s :
  model_inv (mlmodel (hook (world s))) ->
  model_inv (mlmodel (hook (world (steps trace s)))).
Proof.
  revert s; induction trace as [| [env ev] rest IH]; intros s H; simpl; auto.
  apply IH, step_model_inv, H.
Qed.

Lemma initialPage_model_inv : model_inv (mlmodel (hook (world initialPage))).
Proof. split; simpl; [discriminate | discriminate]. Qed.

(** In every state the page reaches, a ready model has a head, and a head
    is built on the loaded base model for two classes or more. *)
Theorem ready_model_has_a_head trace :
  let m := mlmodel (hook (world (steps trace initialPage))) in
  (isReady m = true -> exists h, model m = Some h) /\
  (forall h, model m = Some h ->
     baseModel m = Some (head_base h) /\ 2 <= head_units h /\
     head_extractor h = featureExtractor (head_base h)).
Proof.
  intro m. destruct (steps_model_inv trace initialPage initialPage_model_inv)
    as [H1 H2]. fold m in H1, H2. split; [| exact H2].
  intro Hr. destruct (model m) as [h |] eqn:E; [eauto |].
  exfalso. apply H1; auto.
Qed.

(** In no state the page reaches does [handlePredict] show the hook's
    ["Model not ready for predictions"]: it shows its own message when the
    model is not ready, and for a ready model it stores the predictions or
    shows ["Failed to make prediction"]. *)
Theorem handlePredict_outcomes K trace element :
  let s := steps trace initialPage in
  handlePredict K s element <> inl msg_predict_not_ready /\
  (page_ready s = false -> handlePredict K s element = inl msg_train_first) /\
  (page_ready s = true ->
   exists h, model (mlmodel (hook (world s))) = Some h /\
     match predict K h element with
     | Some predictionData =>
         exists predictions,
           handlePredict K s element = inr predictions /\
           StronglySorted ranked_before predictions /\
           List.length predictions = List.length predictionData
     | None => handlePredict K s element = inl msg_predict_failed
     end).
Proof.
  intro s.
  destruct (steps_model_inv trace initialPage initialPage_model_inv)
    as [H1 _]. fold s in H1.
  unfold handlePredict, page_ready.
  destruct (isReady (mlmodel (hook (world s)))) eqn:Hr; cbn [negb].
  - destruct (model (mlmodel (hook (world s)))) as [h |] eqn:Hm;
      [| exfalso; apply H1; auto].
    assert (forall d, predict K h element = Some d ->
              makePrediction K (mlmodel (hook (world s))) element (classes s)
              = inr (sort byConfidence
                       (mapi (fun confidence index =>
                                {| className := classNameAt (classes s) index;
                                   confidence := (confidence * 100)%Q;
                                   classIndex := index |}) 0 d))) as Hmp.
    { intros d Hd. apply (makePrediction_ready K _ h); assumption. }
    split; [| split; [discriminate |]].
    + unfold makePrediction. rewrite Hm, Hr. cbn [negb].
      destruct (predict K h element); discriminate.
    + intros _. exists h. split; [reflexivity |].
      destruct (predict K h element) as [d |] eqn:Hp.
      * rewrite (Hmp d eq_refl). eexists. split; [reflexivity |]. split.
        -- apply sort_mapi_ranked. reflexivity.
        -- rewrite (Permutation_length (sort_perm byConfidence _)).
           apply mapi_length.
      * unfold makePrediction. rewrite Hm, Hr, Hp. reflexivity.
  - split; [discriminate |]. split; [reflexivity | discriminate].
Qed.

(** [handleExportModel] reports success whatever happened: the hook's
    [exportModel] catches its own failures, so the page's ["Export Failed"]
    toast is never shown.  When there is no trained model, or when saving
    fails, the hook's error is set besides; the model record is not touched
    in any case. *)
Theorem handleExportModel_reports_success env s :
  let s' := handleExportModel env s in
  let m := mlmodel (hook (world s)) in
  toasts s' = (toasts s ++ [msg_export_ok])%list /\
  mlmodel (hook (world s')) = m /\
  classes s' = classes s /\
  error (hook (world s'))
  = (if negb (isSome (model m)) || negb (isReady m) then Some msg_no_export
     else if save_ok env then error (hook (world s))
     else Some msg_export_failed).
Proof.
  unfold handleExportModel, exportModel.
  destruct (negb (isSome (model (mlmodel (hook (world s)))))
            || negb (isReady (mlmodel (hook (world s)))));
    [simpl; auto |].
  destruct (save_ok env); simpl; auto.
Qed.

Lemma BaseModel_eqb_refl b : BaseModel_eqb b b = true.
Proof.
  unfold BaseModel_eqb.
  destruct (list_eq_dec string_dec (layers b) (layers b)); congruence.
Qed.

Lemma deps_eqb_refl d : deps_eqb d d = true.
Proof.
  unfold deps_eqb. rewrite Nat.eqb_refl.
  destruct (fst d); [rewrite BaseModel_eqb_refl |]; reflexivity.
Qed.

(** The effect does not run again for dependencies it has seen. *)
Lemma createModelEffect_seen env s :
  effect_deps s = Some (baseModel (mlmodel (hook (world s))), classes_ref s) ->
  createModelEffect env s = s.
Proof.
  intro H. unfold createModelEffect. rewrite H, deps_eqb_refl. reflexivity.
Qed.

(** When it runs, it records the dependencies, and with a base model and two
    classes or more it calls [createModel]. *)
Lemma createModelEffect_runs env s :
  match effect_deps s with
  | Some seen =>
      deps_eqb seen (baseModel (mlmodel (hook (world s))), classes_ref s) = false
  | None => True
  end ->
  let s' := createModelEffect env s in
  effect_deps s' = Some (baseModel (mlmodel (hook (world s))), classes_ref s) /\
  classes s' = classes s /\ classes_ref s' = classes_ref s /\
  next_ref s' = next_ref s /\
  baseModel (mlmodel (hook (world s'))) = baseModel (mlmodel (hook (world s))) /\
  match baseModel (mlmodel (hook (world s))) with
  | Some b =>
      if 2 <=? List.length (classes s) then
        mlmodel (hook (world s'))
        = if layers_throw env then mlmodel (hook (world s))
          else rebuilt b (List.length (classes s))
      else world s' = world s
  | None => world s' = world s
  end.
Proof.
  intros H s'. subst s'. unfold createModelEffect.
  assert (match effect_deps s with
          | Some seen =>
              negb (deps_eqb seen
                      (baseModel (mlmodel (hook (world s))), classes_ref s))
          | None => true
          end = true) as E.
  { destruct (effect_deps s); [rewrite H |]; reflexivity. }
  rewrite E. clear E H.
  destruct (baseModel (mlmodel (hook (world s)))) as [b |] eqn:Hb;
    cbn [isSome andb]; [| repeat split; auto].
  destruct (Nat.leb_spec 2 (List.length (classes s))) as [H2 | _];
    [| repeat split; auto].
  cbn [with_world world effect_deps classes classes_ref next_ref].
  rewrite createModel_result by assumption.
  destruct (layers_throw env); repeat split; auto.
  unfold rebuilt. cbn [baseModel]. rewrite Hb. reflexivity.
Qed.

Lemma errorToastEffect_keeps s :
  let s' := errorToastEffect s in
  mlmodel (hook (world s')) = mlmodel (hook (world s)) /\
  classes s' = classes s /\ classes_ref s' = classes_ref s /\
  next_ref s' = next_ref s /\ effect_deps s' = effect_deps s.
Proof.
  destruct (errorToastEffect_frame s) as (A1 & _ & A2 & A3 & A4 & A5).
  cbv zeta. auto.
Qed.

(** The state after the effects, from the state the `create model' effect
    starts in. *)
Lemma commit_fits env s :
  layers_throw env = false ->
  page_wf s ->
  (* the effect has seen the state, and the head fits *)
  (deps_seen s /\ head_fits s) \/
  (* or the state differs from what the effect saw *)
  match effect_deps s with
  | Some seen =>
      deps_eqb seen (baseModel (mlmodel (hook (world s))), classes_ref s) = false
  | None => True
  end ->
  page_wf (commit env s) /\ deps_seen (commit env s) /\ head_fits (commit env s).
Proof.
  intros Hl Hwf H. unfold commit.
  set (s1 := errorToastEffect s).
  destruct (errorToastEffect_keeps s) as (A1 & A2 & A3 & A4 & A5). fold s1 in A1, A2, A3, A4, A5.
  set (s2 := createModelEffect env s1).
  destruct (errorToastEffect_keeps s2) as (B1 & B2 & B3 & B4 & B5).
  assert (forall x y,
            mlmodel (hook (world y)) = mlmodel (hook (world x)) ->
            classes y = classes x -> classes_ref y = classes_ref x ->
            next_ref y = next_ref x -> effect_deps y = effect_deps x ->
            page_wf x /\ deps_seen x /\ head_fits x ->
            page_wf y /\ deps_seen y /\ head_fits y) as Move.
  { intros x y E1 E2 E3 E4 E5 (W & D & Fi).
    unfold page_wf, deps_seen, head_fits in *.
    rewrite E1, E2, E3, E4, E5. auto. }
  apply (Move s2 _ B1 B2 B3 B4 B5). clear B1 B2 B3 B4 B5.
  assert (page_wf s1) as Hwf1.
  { unfold page_wf in *. rewrite A3, A4, A5. exact Hwf. }
  assert ((deps_seen s1 /\ head_fits s1) \/
          match effect_deps s1 with
          | Some seen =>
              deps_eqb seen (baseModel (mlmodel (hook (world s1))),
                             classes_ref s1) = false
          | None => True
          end) as H1.
  { destruct H as [[D Fi] | H]; [left | right].
    - unfold deps_seen, head_fits in *. rewrite A1, A2, A3, A5. auto.
    - rewrite A1, A3, A5. exact H. }
  clearbody s1. clear H A1 A2 A3 A4 A5 Hwf s. subst s2.
  destruct H1 as [[D Fi] | H].
  - (* seen: the effect does not run, or it runs for the first time with no
       base model *)
    unfold deps_seen in D.
    destruct (effect_deps s1) as [seen |] eqn:Ed.
    + rewrite createModelEffect_seen by (rewrite Ed, D; reflexivity).
      unfold deps_seen. rewrite Ed. auto.
    + pose proof (createModelEffect_runs env s1) as R. rewrite Ed in R.
      specialize (R I). cbv zeta in R.
      destruct R as (R1 & R2 & R3 & R4 & R5 & R6). rewrite D in R6.
      unfold page_wf, deps_seen, head_fits.
      rewrite R1, R2, R3, R4, R5, R6, D. cbn [snd].
      destruct Hwf1 as [W _]. repeat split; auto. intros b Hb. discriminate.
  - pose proof (createModelEffect_runs env s1 H) as R. cbv zeta in R.
    destruct R as (R1 & R2 & R3 & R4 & R5 & R6).
    unfold page_wf, deps_seen, head_fits.
    rewrite R1, R2, R3, R4, R5. cbn [snd].
    destruct Hwf1 as [W _]. repeat split; auto.
    intros b Hb H2. rewrite Hb in R6.
    destruct (Nat.leb_spec 2 (List.length (classes s1))) as [_ | Hlt]; [| lia].
    rewrite Hl in R6. rewrite R6. unfold rebuilt. cbn [model].
    eexists. repeat split.
Qed.

Lemma loadBaseModel_result env w :
  mlmodel (hook (snd (run (loadBaseModel env true) w)))
  = match load_result env with
    | Loaded b => {| model := model (mlmodel (hook w));
                     isReady := isReady (mlmodel (hook w));
                     baseModel := Some b |}
    | _ => mlmodel (hook w)
    end.
Proof. unfold loadBaseModel. destruct (load_result env); reflexivity. Qed.

Lemma step_fits env ev s :
  layers_throw env = false ->
  page_wf s /\ deps_seen s /\ head_fits s ->
  page_wf (step env ev s) /\ deps_seen (step env ev s) /\
  head_fits (step env ev s).
Proof.
  intros Hl (Hwf & D & Fi).
  assert (forall x,
            world x = world s \/ same_head (world s) (world x) ->
            classes x = classes s -> classes_ref x = classes_ref s ->
            next_ref x = next_ref s -> effect_deps x = effect_deps s ->
            page_wf x /\ deps_seen x /\ head_fits x) as Same.
  { intros x Hw E2 E3 E4 E5.
    assert (same_head (world s) (world x)) as [Em Eb].
    { destruct Hw as [Hw | Hw]; [rewrite Hw; apply same_head_refl | exact Hw]. }
    unfold page_wf, deps_seen, head_fits in *.
    rewrite Em, Eb, E2, E3, E4, E5. auto. }
  assert (forall newClasses,
            let x := onClassesChange newClasses s in
            page_wf x /\
            match effect_deps x with
            | Some seen =>
                deps_eqb seen (baseModel (mlmodel (hook (world x))),
                               classes_ref x) = false
            | None => True
            end) as Edit.
  { intros newClasses x. subst x. unfold page_wf, onClassesChange in *.
    cbn [classes_ref next_ref effect_deps world].
    destruct Hwf as [W1 W2].
    destruct (effect_deps s) as [seen |]; split; auto; try lia.
    unfold deps_eqb. cbn [snd].
    destruct (Nat.eqb_spec (snd seen) (next_ref s)) as [E | _]; [lia |].
    apply andb_false_r. }
  unfold step.
  destruct ev as [| | classId newName | classId | classId newSample
                  | classId sampleId | epochs |];
    try match goal with |- context [onClassesChange ?n s] =>
          destruct (Edit n) as [W X];
          apply commit_fits; [exact Hl | exact W | right; exact X]
        end.
  - (* the base model effect *)
    destruct (isInitialized _ && negb _) eqn:G;
      [| apply commit_fits; auto].
    apply andb_true_iff in G. destruct G as [Gi Gb].
    destruct (baseModel (mlmodel (hook (world s)))) eqn:Hb; [discriminate |].
    set (x := with_world _ s).
    assert (mlmodel (hook (world x))
            = match load_result env with
              | Loaded b => {| model := model (mlmodel (hook (world s)));
                               isReady := isReady (mlmodel (hook (world s)));
                               baseModel := Some b |}
              | _ => mlmodel (hook (world s))
              end) as Hx.
    { subst x. cbn [with_world world]. rewrite Gi. apply loadBaseModel_result. }
    assert (page_wf x) as Wx by exact Hwf.
    apply commit_fits; [exact Hl | exact Wx |].
    destruct (load_result env) as [b | |] eqn:Hload.
    + right. change (effect_deps x) with (effect_deps s).
      change (classes_ref x) with (classes_ref s).
      unfold deps_seen in D. rewrite Hb in D.
      destruct (effect_deps s) as [seen |]; [| exact I].
      rewrite D, Hx. reflexivity.
    + left. unfold deps_seen, head_fits in *.
      change (effect_deps x) with (effect_deps s).
      change (classes_ref x) with (classes_ref s).
      change (classes x) with (classes s). rewrite Hx. auto.
    + left. unfold deps_seen, head_fits in *.
      change (effect_deps x) with (effect_deps s).
      change (classes_ref x) with (classes_ref s).
      change (classes x) with (classes s). rewrite Hx. auto.
  - (* a training run *)
    assert (page_wf (handleStartTraining env epochs s) /\
            deps_seen (handleStartTraining env epochs s) /\
            head_fits (handleStartTraining env epochs s)) as (W & D' & F').
    { unfold handleStartTraining.
      destruct (_ <? 2); [apply Same; auto |].
      destruct (_ <? 3); [apply Same; auto |].
      apply Same; auto. right. cbn [with_world world].
      apply (always_run same_head same_head_refl same_head_trans).
      apply startTraining_same_head. }
    apply commit_fits; auto.
  - (* an export *)
    set (x := with_world _ s).
    assert (page_wf x /\ deps_seen x /\ head_fits x) as (W & D' & F').
    { apply Same; auto. right. subst x. cbn [with_world world].
      pose proof (always_run same_model same_model_refl same_model_trans _
                    (world s)
                    (exportModel_same_model env (mlmodel (hook (world s)))))
        as F.
      unfold same_model in F. unfold same_head. rewrite F. auto. }
    apply commit_fits; auto.
Qed.

Lemma steps_fits trace s :
  Forall (fun p => layers_throw (fst p) = false) trace ->
  page_wf s /\ deps_seen s /\ head_fits s ->
  page_wf (steps trace s) /\ deps_seen (steps trace s) /\
  head_fits (steps trace s).
Proof.
  revert s; induction trace as [| [env ev] rest IH]; intros s Hl H; simpl; auto.
  inversion Hl; subst. apply IH; auto. apply step_fits; auto.
Qed.

(** As long as assembling the layers of a head does not throw, the head
    follows the class list: in every state the page reaches with a base
    model and two classes or more, the model has a head on that base model
    with exactly one output unit per class. *)
Theorem head_has_one_unit_per_class trace b :
  Forall (fun p => layers_throw (fst p) = false) trace ->
  let s := steps trace initialPage in
  baseModel (mlmodel (hook (world s))) = Some b ->
  2 <= List.length (classes s) ->
  exists h, model (mlmodel (hook (world s))) = Some h /\
            head_base h = b /\
            head_units h = List.length (classes s).
Proof.
  intros Hl s.
  destruct (steps_fits trace initialPage Hl) as (_ & _ & F).
  - split; [apply page_wf_initial |]. split.
    + reflexivity.
    + intros b' Hb. discriminate.
  - apply F.
Qed.

Lemma head_has_one_unit_per_class_witness :
  let s := steps (trainedSession ++ [(quiet, EvAddNewClass)]) initialPage in
  List.length (classes s) = 3 /\
  exists h, model (mlmodel (hook (world s))) = Some h /\
            head_base h = demoBase /\
            head_units h = List.length (classes s).
Proof.
  split; [vm_compute; reflexivity |].
  apply (head_has_one_unit_per_class
           (trainedSession ++ [(quiet, EvAddNewClass)]) demoBase).
  - repeat constructor.
  - vm_compute. reflexivity.
  - vm_compute. lia.
Defined.

(* ================================================================== *)
(** * Starting a run, failed rebuilds, uploads, backends *)
(* ================================================================== *)

Lemma fold_min_ge k n ns :
  k <= fold_right Nat.min n ns <-> k <= n /\ Forall (fun x => k <= x) ns.
Proof.
  induction ns as [| x ns IH]; simpl.
  - split; [auto | tauto].
  - rewrite Nat.min_glb_iff, IH. split.
    + intros (A & B & C). auto.
    + intros (A & B). inversion B; subst. auto.
Qed.

Lemma no_invalid_classes (classes : list TrainingClass) :
  (0 <? List.length
          (filter (fun cls => List.length (samples cls) =? 0) classes)) = false ->
  forall cls, In cls classes -> samples cls <> [].
Proof.
  intros H cls Hin E.
  assert ((0 <? List.length
                  (filter (fun c => List.length (samples c) =? 0) classes))
          = true) as T.
  { apply filter_empty_nonempty. eauto. }
  congruence.
Qed.

(** The page's check and the hook's check together: [handleStartTraining]
    starts a run exactly when there is a head, there are two classes or
    more, and every class has three samples or more.  Otherwise it does one
    thing only: it shows one toast, or it sets the hook's error. *)
Theorem handleStartTraining_starts_iff env epochs s :
  let s' := handleStartTraining env epochs s in
  if canStartTraining s then
    exists m,
      model (mlmodel (hook (world s))) = Some m /\
      s' = with_world (fun w =>
             snd (run (try_catch (trainingRun env m (classes s) epochs)
                                 trainingFailed) w)) s
  else
    exists msg,
      (s' = toast msg s /\
       (msg = msg_two_classes \/ msg = msg_three_samples)) \/
      (s' = with_world (fun w => snd (run (setError (Some msg)) w)) s /\
       (msg = msg_not_ready \/
        msg = msg_no_samples
                (filter (fun cls => List.length (samples cls) =? 0)
                        (classes s)))).
Proof.
  intro s'. subst s'. unfold canStartTraining, handleStartTraining.
  set (withSamples := filter (fun cls => 0 <? List.length (samples cls))
                             (classes s)).
  destruct (isSome (model (mlmodel (hook (world s))))
            && (2 <=? List.length (classes s))
            && forallb (fun cls => 3 <=? List.length (samples cls)) (classes s))
    eqn:Go.
  - (* every check passes *)
    apply andb_true_iff in Go. destruct Go as [Go H3].
    apply andb_true_iff in Go. destruct Go as [Hm H2].
    apply Nat.leb_le in H2.
    destruct (model (mlmodel (hook (world s)))) as [m |] eqn:Em;
      [| discriminate].
    assert (forall cls, In cls (classes s) -> 3 <= List.length (samples cls))
      as Hall.
    { intros cls Hin. apply Nat.leb_le.
      rewrite forallb_forall in H3. apply H3, Hin. }
    assert (withSamples = classes s) as Ew.
    { subst withSamples. apply filter_all. intros cls Hin.
      apply Nat.ltb_lt. specialize (Hall cls Hin). lia. }
    rewrite Ew.
    destruct (Nat.ltb_spec (List.length (classes s)) 2) as [Hlt | _]; [lia |].
    assert ((match map (fun cls => List.length (samples cls)) (classes s) with
             | n :: ns => fold_right Nat.min n ns
             | [] => 0
             end <? 3) = false) as Emin.
    { apply Nat.ltb_ge.
      destruct (classes s) as [| c l]; [simpl in H2; lia |].
      cbn [map]. apply fold_min_ge. split.
      - apply Hall. simpl; auto.
      - apply Forall_forall. intros x Hx. apply in_map_iff in Hx.
        destruct Hx as [cls [Ex Hin]]. subst x. apply Hall. simpl; auto. }
    rewrite Emin. exists m. split; [reflexivity |].
    unfold with_world. rewrite Em.
    rewrite startTraining_accepted; [reflexivity | exact H2 |].
    intros cls Hin E. specialize (Hall cls Hin). rewrite E in Hall.
    simpl in Hall. lia.
  - (* some check fails *)
    destruct (List.length withSamples <? 2) eqn:E2;
      [exists msg_two_classes; left; auto |].
    destruct (_ <? 3) eqn:E3;
      [exists msg_three_samples; left; auto |].
    unfold startTraining. unfold with_world.
    destruct (model (mlmodel (hook (world s)))) as [m |] eqn:Em;
      [| exists msg_not_ready; right; auto].
    destruct (List.length (classes s) <? 2) eqn:E4;
      [exists msg_not_ready; right; auto |].
    destruct (0 <? _) eqn:E5; [eexists; right; split; [reflexivity | auto] |].
    (* all four checks pass: then every class has three samples *)
    exfalso.
    apply Nat.ltb_ge in E2, E3, E4.
    pose proof (no_invalid_classes (classes s) E5) as Hne.
    assert (withSamples = classes s) as Ew.
    { subst withSamples. apply filter_all. intros cls Hin.
      apply Nat.ltb_lt. specialize (Hne cls Hin).
      destruct (samples cls); [congruence | simpl; lia]. }
    rewrite Ew in E3.
    assert (forallb (fun cls => 3 <=? List.length (samples cls)) (classes s)
            = true) as H3.
    { destruct (classes s) as [| c l] eqn:Ec; [reflexivity |].
      cbn [map] in E3. apply fold_min_ge in E3. destruct E3 as [A B].
      apply forallb_forall. intros cls [Hin | Hin]; apply Nat.leb_le.
      - subst cls. exact A.
      - rewrite Forall_forall in B. apply B. apply in_map_iff. eauto. }
    cbn [isSome andb] in Go. rewrite H3 in Go.
    apply Nat.leb_le in E4. rewrite E4 in Go. discriminate.
Qed.

(** When assembling the layers throws during an edit of the class list, the
    page shows ["Failed to create training model"] and keeps the model
    record as it was: a model that was ready stays ready, with the head it
    had for the classes before the edit. *)
Theorem failed_rebuild_keeps_the_model env ev s b :
  is_class_edit ev = true ->
  page_wf s ->
  baseModel (mlmodel (hook (world s))) = Some b ->
  2 <= List.length (edited ev s) ->
  layers_throw env = true ->
  error (hook (world s)) = None ->
  let s' := step env ev s in
  classes s' = edited ev s /\
  mlmodel (hook (world s')) = mlmodel (hook (world s)) /\
  toasts s' = (toasts s ++ [msg_create_failed])%list /\
  error (hook (world s')) = None.
Proof.
  intros Hev Hwf Hb H2 Hl He s'. subst s'.
  assert (step env ev s = commit env (onClassesChange (edited ev s) s)) as E
    by (destruct ev; try discriminate; reflexivity).
  rewrite E. clear E. set (x := onClassesChange (edited ev s) s).
  unfold commit.
  assert (errorToastEffect x = x) as E1.
  { unfold errorToastEffect. change (world x) with (world s). rewrite He.
    reflexivity. }
  rewrite E1.
  (* the effect calls createModel, which throws and sets the error *)
  assert (createModelEffect env x =
          {| world := snd (run (setError (Some msg_create_failed))
                             (snd (run (setError None) (world s))));
             classes := edited ev s; classes_ref := next_ref s;
             next_ref := S (next_ref s);
             effect_deps := Some (Some b, next_ref s);
             toasts := toasts s |}) as E2.
  { unfold createModelEffect.
    change (world x) with (world s). change (classes x) with (edited ev s).
    change (classes_ref x) with (next_ref s).
    change (effect_deps x) with (effect_deps s). rewrite Hb.
    assert (match effect_deps s with
            | Some seen => negb (deps_eqb seen (Some b, next_ref s))
            | None => true
            end = true) as Hc.
    { destruct Hwf as [_ W]. destruct (effect_deps s) as [seen |]; auto.
      unfold deps_eqb. cbn [snd].
      destruct (Nat.eqb_spec (snd seen) (next_ref s)) as [E | _]; [lia |].
      rewrite andb_false_r. reflexivity. }
    rewrite Hc.
    destruct (Nat.leb_spec 2 (List.length (edited ev s))) as [_ | Hlt]; [| lia].
    cbn [isSome andb]. unfold with_world. cbn [world classes classes_ref
      next_ref effect_deps toasts]. f_equal.
    unfold createModel, createTransferModel.
    destruct (Nat.ltb_spec (List.length (edited ev s)) 2) as [Hlt | _]; [lia |].
    rewrite Hl. reflexivity. }
  rewrite E2. unfold errorToastEffect. simpl.
  repeat split.
Qed.

Lemma failed_rebuild_keeps_the_model_witness :
  let env := {| img_loads := fun _ => Some 10%Z; tf_throws := fun _ => false;
                fit_trace := fun _ => []; fit_ok := true; layers_throw := true;
                load_result := Loaded demoBase; save_ok := true |} in
  let ev := EvAddNewClass in
  let s' := step env ev trainedPage in
  page_ready trainedPage = true /\
  classes s' = edited ev trainedPage /\
  mlmodel (hook (world s')) = mlmodel (hook (world trainedPage)) /\
  toasts s' = (toasts trainedPage ++ [msg_create_failed])%list /\
  error (hook (world s')) = None.
Proof.
  intros env ev. split; [vm_compute; reflexivity |].
  apply (failed_rebuild_keeps_the_model env ev trainedPage demoBase).
  - reflexivity.
  - vm_compute. split; repeat constructor.
  - vm_compute. reflexivity.
  - vm_compute. repeat constructor.
  - reflexivity.
  - vm_compute. reflexivity.
Defined.

(** Files handed over together are added against the same class list, so
    each sample replaces the one added before it: however many images
    load, the list ends with the last one only, and the class has gained one
    sample. *)
Theorem handleFileUpload_keeps_the_last env classId loaded newSample s :
  let s' := handleFileUpload env classId (loaded ++ [newSample]) s in
  classes s' = addSample classId newSample (classes s) /\
  total_samples (classes s')
  = total_samples (classes s)
    + List.length (filter (fun cls => String.eqb (id cls) classId) (classes s)).
Proof.
  intro s'. subst s'. unfold handleFileUpload.
  rewrite fold_left_app. cbn [fold_left].
  destruct (commit_frame env
              (onClassesChange (addSample classId newSample (classes s))
                 (fold_left
                    (fun st sample =>
                       commit env
                         (onClassesChange (addSample classId sample (classes s))
                            st)) loaded s))) as (_ & Hc & _).
  rewrite Hc. cbn [classes onClassesChange].
  split; [reflexivity | apply addSample_total].
Qed.

Lemma initTensorFlow_run B w :
  run (initTensorFlow B) w
  = (Done tt,
     if webgl_ready B || cpu_ready B then snd (run (setIsInitialized true) w)
     else snd (run (setError (Some msg_init_failed)) w)).
Proof.
  unfold initTensorFlow. destruct (webgl_ready B), (cpu_ready B); reflexivity.
Qed.

Lemma dormant_setError e w :
  dormant w -> dormant (snd (run (setError e) w)).
Proof. unfold dormant. simpl. tauto. Qed.

Lemma errorToastEffect_dormant s :
  dormant (world s) -> dormant (world (errorToastEffect s)).
Proof.
  intro H. unfold errorToastEffect.
  destruct (error (hook (world s))); [| exact H].
  cbn [with_world world toast]. apply dormant_setError, H.
Qed.

Lemma createModelEffect_dormant env s :
  dormant (world s) -> world (createModelEffect env s) = world s.
Proof.
  intros (_ & Hm & _). unfold createModelEffect. rewrite Hm.
  cbn [baseModel isSome andb].
  destruct (match effect_deps s with
            | Some seen => negb (deps_eqb seen (None, classes_ref s))
            | None => true
            end); reflexivity.
Qed.

Lemma step_dormant env ev s :
  dormant (world s) -> dormant (world (step env ev s)).
Proof.
  intro H.
  assert (forall x, dormant (world x) -> dormant (world (commit env x))) as Hc.
  { intros x Hx. unfold commit. apply errorToastEffect_dormant.
    rewrite createModelEffect_dormant; apply errorToastEffect_dormant, Hx. }
  unfold step. apply Hc.
  destruct ev; try exact H.
  - pose proof H as (Hi & _). rewrite Hi. exact H.
  - unfold handleStartTraining.
    destruct (_ <? 2); [exact H |].
    destruct (_ <? 3); [exact H |].
    cbn [with_world world].
    pose proof H as (_ & Hm & _). rewrite Hm. cbn [model].
    unfold startTraining. apply dormant_setError, H.
  - cbn [with_world world].
    pose proof H as (_ & Hm & _). rewrite Hm.
    unfold exportModel. cbn [model isSome negb orb].
    apply dormant_setError, H.
Qed.

Lemma steps_dormant trace s :
  dormant (world s) -> dormant (world (steps trace s)).
Proof.
  revert s; induction trace as [| [env ev] rest IH]; intros s H; simpl; auto.
  apply IH, step_dormant, H.
Qed.

(** When one of the two backends is ready, [initTensorFlow] takes the
    mounted page to the initialised page the sessions start from.  When
    neither is, it sets the error, and from then on nothing the page can do
    loads a base model, builds a head, starts a run or makes a tensor. *)
Theorem without_a_backend_nothing_happens B trace :
  let s0 := initialise B mountedPage in
  let s := steps trace s0 in
  if webgl_ready B || cpu_ready B then s0 = initialPage
  else
    error (hook (world s0)) = Some msg_init_failed /\
    isInitialized (hook (world s)) = false /\
    mlmodel (hook (world s))
    = {| model := None; isReady := false; baseModel := None |} /\
    trainingStatus (hook (world s)) = st_idle /\
    live (world s) = [] /\
    forall K element, handlePredict K s element = inl msg_train_first.
Proof.
  intros s0 s. subst s s0. unfold initialise.
  destruct (webgl_ready B || cpu_ready B) eqn:H.
  - unfold with_world. rewrite initTensorFlow_run, H. reflexivity.
  - set (s := steps trace _).
    assert (dormant (world s)) as (D1 & D2 & D3 & D4 & D5 & D6).
    { subst s. apply steps_dormant. unfold with_world.
      rewrite initTensorFlow_run, H. repeat split. }
    split; [unfold with_world; rewrite initTensorFlow_run, H; reflexivity |].
    repeat split; auto.
    intros K element. unfold handlePredict. rewrite D2. reflexivity.
Qed.

(* ================================================================== *)
(** * An edit of the class list while a run is in flight *)
(* ================================================================== *)

Lemma quiet_step_refl w : quiet_step w w.
Proof. split; [apply same_head_refl | auto]. Qed.

Lemma quiet_step_trans a b c :
  quiet_step a b -> quiet_step b c -> quiet_step a c.
Proof.
  intros [A1 A2] [B1 B2]. split; [eapply same_head_trans; eauto | auto].
Qed.

(** What [completes_ready] gives for a whole run. *)
Lemma completes_ready_run (p : Proc unit) w :
  completes_ready p ->
  trainingStatus (hook w) <> st_completed ->
  same_head w (snd (run p w)) /\
  (trainingStatus (hook (snd (run p w))) = st_completed ->
   fst (run p w) = Done tt /\
   isReady (mlmodel (hook (snd (run p w)))) = true).
Proof.
  revert w; induction p as [a | | | k IH | B f k IH]; intros w Hp Hs;
    try (simpl; split; [apply same_head_refl | intro; contradiction]).
  - simpl. apply IH; assumption.
  - destruct Hp as [[Hf Hk] | [_ Hm]].
    + simpl. specialize (Hf w). destruct (f w) as [b w1]. simpl in Hf.
      destruct Hf as [Hh Hq].
      destruct (IH b w1 (Hk b)) as [H1 H2]; [intro E; apply Hs, Hq, E |].
      split; [eapply same_head_trans; eauto | exact H2].
    + destruct (Hm w) as (H1 & H2 & H3). auto.
Qed.

(** ... and for its turns: the continuation is of the same kind. *)
Lemma completes_ready_turn (p : Proc unit) w :
  completes_ready p ->
  quiet_step w (snd (turn p w)) /\
  match fst (turn p w) with
  | Suspended k => completes_ready k
  | Finished _ => True
  end \/ exists o, fst (turn p w) = Finished o.
Proof.
  revert w; induction p as [a | | | k IH | B f k IH]; intros w Hp;
    try (right; eexists; reflexivity).
  - left. simpl. split; [apply quiet_step_refl | exact Hp].
  - destruct Hp as [[Hf Hk] | [Hsync _]].
    + simpl. specialize (Hf w). destruct (f w) as [b w1]. simpl in Hf.
      destruct (IH b w1 (Hk b)) as [[H1 H2] | [o Ho]].
      * left. split; [eapply quiet_step_trans; eauto | exact H2].
      * right. exists o. exact Ho.
    + right. rewrite (turn_sync _ w Hsync). eexists; reflexivity.
Qed.

Lemma completes_ready_turns n (p : Proc unit) w k w1 :
  completes_ready p ->
  turns n p w = (Suspended k, w1) ->
  completes_ready k /\ quiet_step w w1.
Proof.
  revert p w; induction n as [| n IH]; intros p w Hp E.
  - simpl in E. inversion E; subst. split; [exact Hp | apply quiet_step_refl].
  - simpl in E.
    destruct (completes_ready_turn p w Hp) as [[H1 H2] | [o Ho]].
    + destruct (turn p w) as [[o | k1] w2]; [discriminate |].
      simpl in H1, H2. destruct (IH k1 w2 H2 E) as [A B].
      split; [exact A | eapply quiet_step_trans; eauto].
    + destruct (turn p w) as [[o' | k1] w2]; simpl in Ho; discriminate.
Qed.

Lemma completes_ready_bind {A} (p : Proc A) (g : A -> Proc unit) h :
  always quiet_step p ->
  completes_ready h ->
  (forall a, completes_ready (try_catch (g a) h)) ->
  completes_ready (try_catch (bind p g) h).
Proof.
  intros Hp Hh Hg.
  induction p as [a | | | k IH | B f k IH]; simpl in *; auto.
  destruct Hp as [Hf Hk]. left. split; auto.
Qed.

Ltac quiet_leaf :=
  unfold quiet_step, same_head; simpl;
  first [ now auto | now (repeat split; auto; discriminate) ].

Ltac quiet_frame :=
  repeat first
    [ apply always_bind; [| intro]
    | apply loadImages_always; intros; quiet_leaf
    | apply always_forM; intro
    | apply always_forM_; intro
    | apply always_try_catch
    | exact I
    | match goal with
      | |- always _ (if ?c then _ else _) => destruct c
      | |- always _ (match ?c with _ => _ end) => destruct c
      | |- always _ (Act _ _) => simpl; split; [intro; quiet_leaf | intro]
      | |- always _ (Await _) => simpl
      | |- always _ _ =>
          progress unfold setError, setModel, setTrainingStatus,
            setTrainingProgress, setTrainingHistory, clearError, tf, dispose,
            endScope, tidy, Date_now, setClock, modify, act, await,
            imageTensor, fit, trainModel, trainingFailed, onEpoch
      end ].

Lemma trainingFailed_completes_ready : completes_ready trainingFailed.
Proof.
  unfold trainingFailed, setError, setTrainingStatus, modify, act. simpl.
  left. split; [intro; quiet_leaf | intros _].
  left. split; [intro w | intros _; exact I].
  unfold quiet_step, same_head. simpl. repeat split. discriminate.
Qed.

(** After its reset, an accepted [startTraining] sets the status to
    ['completed'] only together with the readiness flag, on whatever model
    record there is then. *)
Lemma trainingSteps_completes_ready env m classes epochs :
  completes_ready
    (try_catch (trainingSteps env m classes epochs) trainingFailed).
Proof.
  unfold trainingSteps.
  (* the images, their tensors, xs, labels, ys, the start time, the fit *)
  do 7 (apply completes_ready_bind;
        [ quiet_frame | apply trainingFailed_completes_ready | intro ]).
  (* the cleanup, the readiness flag and the status *)
  simpl. right. split; [simpl; auto |].
  intro w. simpl. repeat split.
Qed.

(** The head is replaced while a run is in flight: the class list is edited
    after some turn of an accepted [startTraining], and [createModel] builds
    a head for the new list.  If the run then completes, it marks the model
    ready as it finds it: the new head, which the run has not trained, is
    the head of a ready model. *)
Theorem edit_during_training_readies_the_new_head
    env m classes epochs w n k w1 env' b newClasses :
  2 <= List.length classes ->
  (forall cls, In cls classes -> samples cls <> []) ->
  turns (S n) (startTraining env (Some m) classes epochs) w = (Suspended k, w1) ->
  2 <= List.length newClasses ->
  layers_throw env' = false ->
  baseModel (mlmodel (hook w1)) = Some b ->
  let w2 := snd (run (createModel env' (Some b) newClasses) w1) in
  let r := run k w2 in
  mlmodel (hook w2) = rebuilt b (List.length newClasses) /\
  (trainingStatus (hook (snd r)) = st_completed ->
   fst r = Done tt /\
   mlmodel (hook (snd r))
   = {| model := model (rebuilt b (List.length newClasses));
        isReady := true;
        baseModel := Some b |}).
Proof.
  intros H2 Hne Ht H2' Hl Hb w2 r.
  rewrite startTraining_turns in Ht by assumption.
  set (w0 := snd (run _ w)) in Ht.
  destruct (completes_ready_turns (S n) _ w0 k w1
              (trainingSteps_completes_ready env m classes epochs) Ht)
    as [Hk [_ Hq]].
  assert (trainingStatus (hook w1) <> st_completed) as Hs1.
  { intro E. specialize (Hq E). subst w0. simpl in Hq. discriminate. }
  assert (mlmodel (hook w2) = rebuilt b (List.length newClasses)) as Hm.
  { subst w2. rewrite createModel_result by assumption. rewrite Hl, Hb.
    reflexivity. }
  assert (trainingStatus (hook w2) = trainingStatus (hook w1)) as Hs2.
  { subst w2. unfold createModel, createTransferModel.
    destruct (Nat.ltb_spec (List.length newClasses) 2) as [Hlt | _]; [lia |].
    rewrite Hl. reflexivity. }
  split; [exact Hm |].
  intro Hc.
  destruct (completes_ready_run k w2 Hk) as [[Em Eb] Hr];
    [rewrite Hs2; exact Hs1 |].
  fold r in Em, Eb, Hr. destruct (Hr Hc) as [Hd Hready].
  split; [exact Hd |].
  destruct (mlmodel (hook (snd r))) as [mo re ba] eqn:E.
  simpl in Em, Eb, Hready. rewrite Hm in Em, Eb. simpl in Em, Eb.
  subst. reflexivity.
Qed.

(** A run of two epochs on two classes; after its third turn a third class
    is added and the head rebuilt.  The run completes, and the model is
    ready with the head for three classes. *)
Lemma edit_during_training_readies_the_new_head_witness :
  let p := startTraining (envOf twoEpochs true) (Some (demoHead 2))
             [cats; dogs] 2 in
  let t := turns 3 p builtWorld in
  let k := match fst t with Suspended k => k | Finished _ => Ret tt end in
  let w2 := snd (run (createModel quiet (Some demoBase) [cats; dogs; birds])
                     (snd t)) in
  let r := run k w2 in
  t = (Suspended k, snd t) /\
  mlmodel (hook w2) = rebuilt demoBase 3 /\
  trainingStatus (hook (snd r)) = st_completed /\
  fst r = Done tt /\
  mlmodel (hook (snd r))
  = {| model := Some (demoHead 3); isReady := true;
       baseModel := Some demoBase |}.
Proof.
  intros p t k w2 r.
  assert (t = (Suspended k, snd t)) as Et by reflexivity.
  assert (trainingStatus (hook (snd r)) = st_completed) as Hc
    by (vm_compute; reflexivity).
  destruct (edit_during_training_readies_the_new_head
              (envOf twoEpochs true) (demoHead 2) [cats; dogs] 2 builtWorld
              2 k (snd t) quiet demoBase [cats; dogs; birds])
    as [A B].
  - simpl; lia.
  - intros cls [H | [H | []]]; subst cls; discriminate.
  - exact Et.
  - simpl; lia.
  - reflexivity.
  - vm_compute. reflexivity.
  - destruct (B Hc) as [B1 B2]. repeat split; assumption.
Defined.

(* ================================================================== *)
(** * A session, move by move *)
(* ================================================================== *)

(** One turn of such a procedure keeps an unready model unready and leaves
    a procedure of the same kind, unless it is the turn in which the
    procedure returns with the status ['completed']. *)
Lemma ready_at_end_turn (p : Proc unit) w :
  ready_at_end p ->
  (not_ready w (snd (turn p w)) /\
   match fst (turn p w) with
   | Suspended k => ready_at_end k
   | Finished _ => True
   end)
  \/ (fst (turn p w) = Finished (Done tt) /\
      trainingStatus (hook (snd (turn p w))) = st_completed).
Proof.
  revert w; induction p as [a | | | k IH | B f k IH]; intros w Hp;
    try (left; simpl; split; [apply not_ready_refl | exact I]).
  - left. simpl. split; [apply not_ready_refl | exact Hp].
  - destruct Hp as [[Hf Hk] | [Hsync He]].
    + simpl. specialize (Hf w). destruct (f w) as [b w1]. simpl in Hf.
      destruct (IH b w1 (Hk b)) as [[H1 H2] | H]; [left | right; exact H].
      split; [eapply not_ready_trans; eauto | exact H2].
    + right. rewrite (turn_sync _ w Hsync). cbn [fst snd].
      destruct (He w) as [H1 H2]. rewrite H1. auto.
Qed.

Lemma ready_at_end_bind {A} (p : Proc A) (g : A -> Proc unit) h :
  always not_ready p ->
  ready_at_end h ->
  (forall a, ready_at_end (try_catch (g a) h)) ->
  ready_at_end (try_catch (bind p g) h).
Proof.
  intros Hp Hh Hg.
  induction p as [a | | | k IH | B f k IH]; simpl in *; auto.
  destruct Hp as [Hf Hk]. left. split; auto.
Qed.

Lemma trainingFailed_ready_at_end : ready_at_end trainingFailed.
Proof.
  unfold trainingFailed, setError, setTrainingStatus, modify, act. simpl.
  left. split; [intro; rel_leaf | intros _].
  left. split; [intro; rel_leaf | intros _; exact I].
Qed.

(** Every call of [startTraining] is of that kind. *)
Lemma startTraining_ready_at_end env mm classes epochs :
  ready_at_end (startTraining env mm classes epochs).
Proof.
  assert (forall e, ready_at_end (setError e)) as He.
  { intro e. unfold setError, modify, act. simpl.
    left. split; [intro; rel_leaf | intros _; exact I]. }
  unfold startTraining.
  destruct mm as [m |]; [| apply He].
  destruct (_ <? 2); [apply He |].
  destruct (0 <? _); [apply He |].
  unfold trainingRun, trainingSteps.
  do 10 (apply ready_at_end_bind;
         [ first [ apply loadImages_always; intros; rel_leaf
                 | frame; unfold onEpoch; frame ]
         | apply trainingFailed_ready_at_end | intro ]).
  simpl. right. split; [simpl; auto |].
  intro w. simpl. repeat split.
Qed.

(** The first turn of a call of [startTraining] leaves the model record as
    it is: a call that is refused sets the error, and one that is accepted
    gets as far as the [await] for its first image. *)
Lemma startTraining_first_turn env mm classes epochs w :
  same_model w (snd (turn (startTraining env mm classes epochs) w)).
Proof.
  unfold startTraining.
  destruct mm as [m |]; [| reflexivity].
  destruct (Nat.ltb_spec (List.length classes) 2) as [Hlt | H2];
    [reflexivity |].
  destruct (0 <? _) eqn:E; [reflexivity |].
  pose proof (no_invalid_classes classes E) as Hne.
  destruct classes as [| c rest]; [simpl in H2; lia |].
  assert (samples c <> []) as Hc by (apply Hne; simpl; auto).
  unfold trainingRun, trainingSteps. simpl.
  destruct (samples c) as [| s ss]; [congruence |]. simpl.
  destruct (img_loads env (url s)); reflexivity.
Qed.

Lemma page_wf_commit env s : page_wf s -> page_wf (commit env s).
Proof.
  intros [H1 H2].
  destruct (commit_frame env s) as (_ & _ & J1 & J2 & J3).
  unfold page_wf. rewrite J1, J2. split; [exact H1 |].
  destruct J3 as [J3 | [b J3]]; rewrite J3; [exact H2 | exact H1].
Qed.

Lemma without_incl {A} (P : A -> Prop) i (l : list A) :
  Forall P l -> Forall P (without i l).
Proof.
  unfold without. intro H. revert i.
  induction H as [| x l Hx Hl IH]; intro i; destruct i; simpl; auto.
Qed.

Lemma takeTurn_inv env p s others :
  ready_at_end p -> page_wf s -> Forall ready_at_end others ->
  session_inv (takeTurn env p s others).
Proof.
  intros Hp Hwf Ho. unfold takeTurn.
  pose proof (ready_at_end_turn p (world s) Hp) as H.
  destruct (turn p (world s)) as [[o | k] w']; cbn [fst snd] in H.
  - split; [apply page_wf_commit; exact Hwf | exact Ho].
  - split; [apply page_wf_commit; exact Hwf |].
    apply Forall_app. split; [exact Ho |].
    destruct H as [[_ H] | [H _]]; [| discriminate].
    repeat constructor. exact H.
Qed.

Lemma move_inv m S : session_inv S -> session_inv (move m S).
Proof.
  intros [Hwf Hfl].
  destruct m as [env ev | env i]; cbn [move].
  - assert (session_inv
              {| page := step env ev (page S); inflight := inflight S |})
      as Hstep by (split; [apply page_wf_step; exact Hwf | exact Hfl]).
    destruct ev; try exact Hstep.
    unfold beginTraining.
    destruct (_ <? 2);
      [split; [apply page_wf_commit; exact Hwf | exact Hfl] |].
    destruct (_ <? 3);
      [split; [apply page_wf_commit; exact Hwf | exact Hfl] |].
    apply takeTurn_inv; auto. apply startTraining_ready_at_end.
  - destruct (nth_error (inflight S) i) as [k |] eqn:E; [| split; assumption].
    apply takeTurn_inv; auto.
    + rewrite Forall_forall in Hfl. apply Hfl. eapply nth_error_In; eauto.
    + apply without_incl, Hfl.
Qed.

Lemma moves_inv ms S : session_inv S -> session_inv (moves ms S).
Proof.
  revert S; induction ms as [| m rest IH]; intros S H; simpl; auto.
  apply IH, move_inv, H.
Qed.

Lemma initialSession_inv : session_inv initialSession.
Proof. split; [apply page_wf_initial | constructor]. Qed.

(** One move keeps an unready model unready, unless it is the turn in which
    a run completes. *)
Lemma move_not_ready m S :
  session_inv S ->
  run_completes m S = false ->
  page_ready (page S) = false -> page_ready (page (move m S)) = false.
Proof.
  intros [Hwf Hfl] Hc Hr.
  destruct m as [env ev | env i]; cbn [move].
  - destruct ev; try (apply step_not_ready; [reflexivity | exact Hr]).
    (* the first turn of a call *)
    unfold beginTraining.
    destruct (_ <? 2); [apply commit_frame; exact Hr |].
    destruct (_ <? 3); [apply commit_frame; exact Hr |].
    unfold takeTurn.
    match goal with |- context [turn ?p ?w] =>
      pose proof (startTraining_first_turn env
                    (model (mlmodel (hook (world (page S)))))
                    (classes (page S)) epochs w) as F;
      destruct (turn p w) as [[o | k] w']
    end;
      cbn [page fst snd] in *; apply commit_frame;
      unfold page_ready, same_model in *; cbn [with_world world];
      rewrite F; exact Hr.
  - cbn [run_completes] in Hc.
    destruct (nth_error (inflight S) i) as [k |] eqn:E; [| exact Hr].
    assert (ready_at_end k) as Hk.
    { rewrite Forall_forall in Hfl. apply Hfl. eapply nth_error_In; eauto. }
    unfold takeTurn.
    pose proof (ready_at_end_turn k (world (page S)) Hk) as H.
    destruct (turn k (world (page S))) as [[o | k'] w'];
      cbn [page fst snd] in *; apply commit_frame;
      unfold page_ready in *; cbn [with_world world].
    + destruct H as [[H _] | [H1 H2]]; [apply H, Hr |].
      inversion H1; subst o. rewrite H2 in Hc. discriminate.
    + destruct H as [[H _] | [H1 _]]; [apply H, Hr | discriminate].
Qed.

Lemma moves_not_ready ms S :
  session_inv S ->
  no_run_completes ms S = true ->
  page_ready (page S) = false -> page_ready (page (moves ms S)) = false.
Proof.
  revert S; induction ms as [| m rest IH]; intros S Hi Hq Hr; simpl in *.
  - exact Hr.
  - apply andb_true_iff in Hq. destruct Hq as [Hc Hq].
    apply IH; [apply move_inv, Hi | exact Hq |].
    apply move_not_ready; [exact Hi | | exact Hr].
    destruct (run_completes m S); [discriminate | reflexivity].
Qed.

(** Taken turn by turn, the trained session ends in the state of
    [trainedPage]. *)
Example trainedMoves_trainedPage :
  moves trainedMoves initialSession = {| page := trainedPage; inflight := [] |}.
Proof. vm_compute. reflexivity. Qed.

(** A new array of fewer than two classes leaves the model record as it
    is. *)
Lemma few_classes_keep_model env s newClasses :
  List.length newClasses < 2 ->
  mlmodel (hook (world (commit env (onClassesChange newClasses s))))
  = mlmodel (hook (world s)).
Proof.
  intro H. unfold commit.
  destruct (errorToastEffect_frame
              (createModelEffect env
                 (errorToastEffect (onClassesChange newClasses s))))
    as (E1 & _). rewrite E1. clear E1.
  destruct (errorToastEffect_frame (onClassesChange newClasses s))
    as (A1 & _ & A2 & _).
  set (s1 := errorToastEffect (onClassesChange newClasses s)) in *.
  simpl in A1, A2.
  unfold createModelEffect. rewrite A2.
  destruct (Nat.leb_spec 2 (List.length newClasses)) as [Hle | _]; [lia |].
  rewrite andb_false_r.
  destruct (match effect_deps s1 with
            | Some seen => negb (deps_eqb seen _)
            | None => true
            end); exact A1.
Qed.

(* ================================================================== *)
(** * C5: a change of the class count and readiness *)
(* ================================================================== *)

(** C5 (amended).  While a base model is loaded, a new class list of two
    classes or more (whether the count changed or not) makes the page
    rebuild the head, if assembling its layers does not throw: the model
    record holds a new head with one unit per class and [isReady] is false.
    From then on [isReady] stays false through every sequence of moves of
    the session (events of the page: edits of the class list, the
    base-model effect, exports, starts of training runs; and turns of the
    calls in flight, those made before the change included) in which no
    training run completes.  The run that completes need not be a new one:
    see the counterexample.  A new class list of fewer than two classes
    leaves the model record, [isReady] included, as it was. *)
Theorem C5_new_class_list_resets_readiness before env newClasses b after :
  let S := moves before initialSession in
  let S' := {| page := commit env (onClassesChange newClasses (page S));
               inflight := inflight S |} in
  baseModel (mlmodel (hook (world (page S)))) = Some b ->
  layers_throw env = false ->
  (2 <= List.length newClasses ->
     mlmodel (hook (world (page S'))) = rebuilt b (List.length newClasses) /\
     page_ready (page S') = false /\
     (no_run_completes after S' = true ->
      page_ready (page (moves after S')) = false)) /\
  (List.length newClasses < 2 ->
     mlmodel (hook (world (page S'))) = mlmodel (hook (world (page S)))).
Proof.
  intros S S' Hb Hl.
  destruct (moves_inv before initialSession initialSession_inv) as [Hwf Hfl].
  fold S in Hwf, Hfl.
  split.
  - intro H2.
    destruct (new_classes_rebuild env (page S) newClasses b Hwf Hb H2 Hl)
      as [_ Hm].
    assert (page_ready (page S') = false) as Hr
      by (unfold page_ready; subst S'; cbn [page]; rewrite Hm; reflexivity).
    split; [exact Hm |]. split; [exact Hr |].
    intro Hq. apply moves_not_ready; [| exact Hq | exact Hr].
    split; [apply page_wf_commit | exact Hfl].
    destruct Hwf as [W1 W2]. split; simpl; [lia |].
    destruct (effect_deps (page S)); [lia | exact I].
  - intro H. apply few_classes_keep_model, H.
Qed.

(** In the trained session a second run is in flight when a third class is
    added.  Afterwards the run in flight goes on to its end, where its fit
    rejects; a sample is added and a class renamed. *)
Lemma C5_new_class_list_resets_readiness_witness :
  let S := moves secondInFlight initialSession in
  let newClasses := addNewClass 5000 (classes (page S)) in
  let S' := {| page := commit quiet (onClassesChange newClasses (page S));
               inflight := inflight S |} in
  let after :=
    (repeat (Resumes quiet 0) 6
     ++ [Happens quiet (EvAddSample "class-5000" (sampleOf "n1"));
         Happens quiet (EvUpdateClassName "class-5000" "Birds")])%list in
  let S1 := {| page := commit quiet (onClassesChange [cats] (page S));
               inflight := inflight S |} in
  page_ready (page S) = true /\
  List.length (inflight S) = 1 /\
  mlmodel (hook (world (page S'))) = rebuilt demoBase (List.length newClasses) /\
  page_ready (page S') = false /\
  no_run_completes after S' = true /\
  page_ready (page (moves after S')) = false /\
  toasts (page (moves after S')) = [msg_training_failed] /\
  mlmodel (hook (world (page S1))) = mlmodel (hook (world (page S))).
Proof.
  intros S newClasses S' after S1.
  assert (no_run_completes after S' = true) as Hq by (vm_compute; reflexivity).
  destruct (C5_new_class_list_resets_readiness secondInFlight quiet
              newClasses demoBase after) as [A _];
    [vm_compute; reflexivity | reflexivity |].
  destruct (C5_new_class_list_resets_readiness secondInFlight quiet
              [cats] demoBase []) as [_ B];
    [vm_compute; reflexivity | reflexivity |].
  destruct A as (Hm & Hr & Hlater); [vm_compute; lia |].
  split; [vm_compute; reflexivity |].
  split; [vm_compute; reflexivity |].
  split; [exact Hm |]. split; [exact Hr |]. split; [exact Hq |].
  split; [exact (Hlater Hq) |].
  split; [vm_compute; reflexivity |].
  apply B. simpl; lia.
Defined.

(** C5 as stated fails, in two ways.  In the trained session the model is
    ready and the base model loaded; the second class is removed, so that
    the count goes from 2 to 1.  The `create model' effect does not call
    [createModel] for fewer than two classes: the model stays ready, with
    its head for two classes.  And when a third class is added while the
    first run of the session is in flight, [isReady] becomes true without
    any new run: the run in flight completes, and marks the head for three
    classes ready, which it has not trained. *)
Lemma C5_counterexample :
  (* the count goes from 2 to 1 *)
  (let s := trainedPage in
   let s' := step quiet (EvRemoveClass "class-2") s in
   baseModel (mlmodel (hook (world s))) = Some demoBase /\
   page_ready s = true /\
   List.length (classes s) = 2 /\
   List.length (classes s') = 1 /\
   page_ready s' = true /\
   model (mlmodel (hook (world s'))) = Some (demoHead 2)) /\
  (* the count goes from 2 to 3 while a run is in flight *)
  (let S := moves firstInFlight initialSession in
   let S' := move (Happens quiet EvAddNewClass) S in
   let S'' := moves (repeat (Resumes quiet 0) 6) S' in
   baseModel (mlmodel (hook (world (page S)))) = Some demoBase /\
   List.length (inflight S) = 1 /\
   List.length (classes (page S)) = 2 /\
   List.length (classes (page S')) = 3 /\
   page_ready (page S') = false /\
   model (mlmodel (hook (world (page S')))) = Some (demoHead 3) /\
   page_ready (page S'') = true /\
   model (mlmodel (hook (world (page S'')))) = Some (demoHead 3) /\
   inflight S'' = []).
Proof.
  split.
  - intros s s'. subst s s'. repeat split; vm_compute; reflexivity.
  - intros S S' S''. subst S S' S''. repeat split; vm_compute; reflexivity.
Qed.

(* ================================================================== *)
(** * The heads of a session *)
(* ================================================================== *)

Lemma createModelEffect_built env s :
  heads_built (mlmodel (hook (world s))) ->
  heads_built (mlmodel (hook (world (createModelEffect env s)))).
Proof.
  intro H. unfold createModelEffect.
  destruct (match effect_deps s with
            | Some seen => negb (deps_eqb seen _)
            | None => true
            end); [| exact H].
  destruct (baseModel (mlmodel (hook (world s)))) as [b |] eqn:Hb;
    cbn [isSome andb]; [| exact H].
  destruct (Nat.leb_spec 2 (List.length (classes s))) as [H2 | _]; [| exact H].
  cbn [with_world world]. rewrite createModel_result by assumption.
  destruct (layers_throw env); [exact H |].
  intros h E. cbn [model] in E. inversion E; subst h.
  split; [reflexivity |]. split; [exact H2 |].
  cbn [baseModel head_base]. exact Hb.
Qed.

Lemma commit_built env s :
  heads_built (mlmodel (hook (world s))) ->
  heads_built (mlmodel (hook (world (commit env s)))).
Proof.
  intro H. unfold commit.
  destruct (errorToastEffect_frame
              (createModelEffect env (errorToastEffect s))) as (E1 & _).
  rewrite E1. apply createModelEffect_built.
  destruct (errorToastEffect_frame s) as (E2 & _). rewrite E2. exact H.
Qed.

Lemma heads_built_same_head w w' :
  same_head w w' ->
  heads_built (mlmodel (hook w)) -> heads_built (mlmodel (hook w')).
Proof. intros [E E'] H h Hh. rewrite E in Hh. rewrite E'. apply H, Hh. Qed.

Lemma takeTurn_heads env p s others :
  always same_head p ->
  heads_built (mlmodel (hook (world s))) ->
  Forall (always same_head) others ->
  session_heads (takeTurn env p s others).
Proof.
  intros Hp Hb Ho. unfold takeTurn.
  destruct (always_turn same_head same_head_refl same_head_trans p (world s) Hp)
    as [H1 H2].
  destruct (turn p (world s)) as [[o | k] w']; cbn [fst snd] in H1, H2;
    (split; cbn [page inflight];
     [apply commit_built; cbn [with_world world];
      apply (heads_built_same_head _ _ H1 Hb) |]).
  - exact Ho.
  - apply Forall_app. split; [exact Ho | repeat constructor; exact H2].
Qed.

Lemma step_built env ev s :
  heads_built (mlmodel (hook (world s))) ->
  heads_built (mlmodel (hook (world (step env ev s)))).
Proof.
  intro H. unfold step. apply commit_built.
  destruct ev; try exact H.
  - (* the base model effect keeps the head *)
    destruct (isInitialized _ && negb _) eqn:G; [| exact H].
    apply andb_true_iff in G. destruct G as [Gi Gb].
    cbn [with_world world]. rewrite Gi, loadBaseModel_result.
    destruct (load_result env); try exact H.
    (* a base model is loaded only when there is none, and then no head *)
    intros h Hh. cbn [model] in Hh. destruct (H h Hh) as (_ & _ & Eb).
    rewrite Eb in Gb. discriminate.
  - (* a training run *)
    unfold handleStartTraining.
    destruct (_ <? 2); [exact H |].
    destruct (_ <? 3); [exact H |].
    cbn [with_world world].
    apply (heads_built_same_head (world s)); [| exact H].
    apply (always_run same_head same_head_refl same_head_trans).
    apply startTraining_same_head.
  - (* an export *)
    cbn [with_world world].
    pose proof (always_run same_model same_model_refl same_model_trans _ (world s)
                  (exportModel_same_model env (mlmodel (hook (world s))))) as F.
    unfold same_model in F. rewrite F. exact H.
Qed.

Lemma move_heads m S : session_heads S -> session_heads (move m S).
Proof.
  intros [Hb Hfl].
  destruct m as [env ev | env i]; cbn [move].
  - assert (session_heads
              {| page := step env ev (page S); inflight := inflight S |})
      as Hstep by (split; [apply step_built; exact Hb | exact Hfl]).
    destruct ev; try exact Hstep.
    unfold beginTraining.
    destruct (_ <? 2); [split; [apply commit_built; exact Hb | exact Hfl] |].
    destruct (_ <? 3); [split; [apply commit_built; exact Hb | exact Hfl] |].
    apply takeTurn_heads; auto. apply startTraining_same_head.
  - destruct (nth_error (inflight S) i) as [k |] eqn:E; [| split; assumption].
    apply takeTurn_heads; auto.
    + rewrite Forall_forall in Hfl. apply Hfl. eapply nth_error_In; eauto.
    + apply without_incl, Hfl.
Qed.

Lemma moves_heads ms S : session_heads S -> session_heads (moves ms S).
Proof.
  revert S; induction ms as [| m rest IH]; intros S H; simpl; auto.
  apply IH, move_heads, H.
Qed.

Lemma initialSession_heads : session_heads initialSession.
Proof. split; [intros h E; discriminate | constructor]. Qed.

(** A state that differs from one that fits in nothing the head depends
    on. *)
Lemma fits_same_head s x :
  page_wf s /\ deps_seen s /\ head_fits s ->
  same_head (world s) (world x) ->
  classes x = classes s -> classes_ref x = classes_ref s ->
  next_ref x = next_ref s -> effect_deps x = effect_deps s ->
  page_wf x /\ deps_seen x /\ head_fits x.
Proof.
  intros (W & D & Fi) [Em Eb] E2 E3 E4 E5.
  unfold page_wf, deps_seen, head_fits in *.
  rewrite Em, Eb, E2, E3, E4, E5. auto.
Qed.

Lemma takeTurn_fits env p s others :
  layers_throw env = false ->
  always same_head p ->
  page_wf s /\ deps_seen s /\ head_fits s ->
  Forall (always same_head) others ->
  session_fits (takeTurn env p s others).
Proof.
  intros Hl Hp Hs Ho. unfold takeTurn.
  destruct (always_turn same_head same_head_refl same_head_trans p (world s) Hp)
    as [H1 H2].
  destruct (turn p (world s)) as [[o | k] w']; cbn [fst snd] in H1, H2;
    destruct (fits_same_head s (with_world (fun _ => w') s) Hs H1
                eq_refl eq_refl eq_refl eq_refl) as (W & D & Fi);
    destruct (commit_fits env (with_world (fun _ => w') s) Hl W
                (or_introl (conj D Fi))) as (W' & D' & F');
    (split; [exact W' |]; split; [exact D' |]; split; [exact F' |]);
    cbn [inflight].
  - exact Ho.
  - apply Forall_app. split; [exact Ho | repeat constructor; exact H2].
Qed.

Lemma move_fits m S :
  layers_throw (env_of m) = false -> session_fits S -> session_fits (move m S).
Proof.
  intros Hl (W & D & Fi & Hfl).
  destruct m as [env ev | env i]; cbn [move env_of] in *.
  - assert (session_fits
              {| page := step env ev (page S); inflight := inflight S |})
      as Hstep.
    { destruct (step_fits env ev (page S) Hl (conj W (conj D Fi)))
        as (W' & D' & F').
      split; [exact W' | split; [exact D' | split; [exact F' | exact Hfl]]]. }
    destruct ev; try exact Hstep.
    unfold beginTraining.
    assert (forall msg,
              session_fits {| page := commit env (toast msg (page S));
                              inflight := inflight S |}) as Htoast.
    { intro msg.
      destruct (commit_fits env (toast msg (page S)) Hl W
                  (or_introl (conj D Fi))) as (W' & D' & F').
      split; [exact W' | split; [exact D' | split; [exact F' | exact Hfl]]]. }
    destruct (_ <? 2); [apply Htoast |].
    destruct (_ <? 3); [apply Htoast |].
    apply takeTurn_fits; auto. apply startTraining_same_head.
  - destruct (nth_error (inflight S) i) as [k |] eqn:E;
      [| split; [exact W | split; [exact D | split; [exact Fi | exact Hfl]]]].
    apply takeTurn_fits; auto.
    + rewrite Forall_forall in Hfl. apply Hfl. eapply nth_error_In; eauto.
    + apply without_incl, Hfl.
Qed.

Lemma moves_fits ms S :
  Forall (fun m => layers_throw (env_of m) = false) ms ->
  session_fits S -> session_fits (moves ms S).
Proof.
  revert S; induction ms as [| m rest IH]; intros S Hl H; simpl; auto.
  inversion Hl; subst. apply IH; auto. apply move_fits; auto.
Qed.

Lemma initialSession_fits : session_fits initialSession.
Proof.
  split; [apply page_wf_initial |]. split; [reflexivity |].
  split; [intros b Hb; discriminate | constructor].
Qed.

(* ================================================================== *)
(** * The reference forward pass keeps its contract *)
(* ================================================================== *)

Lemma Qsum_div (c : Q) (l : list Q) :
  (Qsum (map (fun v => v / c) l) == Qsum l / c)%Q.
Proof.
  induction l as [| x l IH]; simpl.
  - unfold Qdiv. ring.
  - rewrite IH. unfold Qdiv. ring.
Qed.

Lemma Qsum_nonneg (l : list Q) :
  Forall (fun v => (0 <= v)%Q) l -> (0 <= Qsum l)%Q.
Proof.
  induction 1 as [| x l Hx _ IH]; simpl; [apply Qle_refl | lra].
Qed.

Lemma Qsum_member (l : list Q) v :
  Forall (fun v => (0 <= v)%Q) l -> In v l -> (v <= Qsum l)%Q.
Proof.
  induction 1 as [| x l Hx Hl IH]; simpl; [tauto |]. intros [E | Hin].
  - subst x. pose proof (Qsum_nonneg l Hl). lra.
  - specialize (IH Hin). lra.
Qed.

Lemma natQ_S_pos i : (0 < natQ (S i))%Q.
Proof.
  unfold natQ. change 0%Q with (inject_Z 0). rewrite <- Zlt_Qlt. lia.
Qed.

(** The normalised weights are probabilities, and sum to 1. *)
Lemma normalise_distribution (weights : list Q) :
  weights <> [] ->
  Forall (fun v => (0 < v)%Q) weights ->
  List.length (normalise weights) = List.length weights /\
  Forall (fun v => (0 <= v <= 1)%Q) (normalise weights) /\
  (Qsum (normalise weights) == 1)%Q.
Proof.
  intros Hne Hpos.
  assert (Forall (fun v => (0 <= v)%Q) weights) as Hnn.
  { eapply Forall_impl; [| exact Hpos]. simpl. intros; lra. }
  assert (0 < Qsum weights)%Q as Ht.
  { destruct weights as [| x l]; [congruence |].
    inversion Hpos; subst. inversion Hnn; subst. simpl.
    pose proof (Qsum_nonneg l H4). lra. }
  unfold normalise. split; [apply length_map |]. split.
  - apply Forall_forall. intros v Hv. apply in_map_iff in Hv.
    destruct Hv as [x [E Hx]]. subst v.
    pose proof (Qsum_member weights x Hnn Hx) as Hle.
    rewrite Forall_forall in Hnn. specialize (Hnn x Hx). split.
    + apply Qle_shift_div_l; [exact Ht | lra].
    + apply Qle_shift_div_r; [exact Ht | lra].
  - rewrite Qsum_div. field. lra.
Qed.

Lemma reference_contract : softmax_contract referenceKernels.
Proof.
  intros h t out _ Hu E. cbn in E. inversion E; subst out. clear E.
  destruct (normalise_distribution
              (map (fun i => natQ (S i)) (seq 0 (head_units h))))
    as (L & R & S).
  - destruct (head_units h); [lia | discriminate].
  - apply Forall_forall. intros v Hv. apply in_map_iff in Hv.
    destruct Hv as [i [E _]]. subst v. apply natQ_S_pos.
  - split; [rewrite L, length_map, length_seq; reflexivity |].
    split; [exact R |].
    rewrite S. vm_compute. discriminate.
Qed.

(* ================================================================== *)
(** * C7: the confidences of a prediction *)
(* ================================================================== *)

Lemma Qsum_perm (l l' : list Prediction) :
  Permutation l l' ->
  (Qsum (map confidence l) == Qsum (map confidence l'))%Q.
Proof.
  induction 1 as [| x l l' _ IH | x y l | l l' l'' _ IH1 _ IH2]; simpl.
  - reflexivity.
  - rewrite IH; reflexivity.
  - ring.
  - rewrite IH1; exact IH2.
Qed.

Lemma Qsum_scaled (f : Q -> nat -> Prediction) i l :
  (forall v k, confidence (f v k) = (v * 100)%Q) ->
  (Qsum (map confidence (mapi f i l)) == 100 * Qsum l)%Q.
Proof.
  intro Hf. revert i; induction l as [| v l IH]; intro i; simpl.
  - ring.
  - rewrite Hf, IH. ring.
Qed.

Lemma mapi_Forall {A B} (P : B -> Prop) (Q : A -> Prop) (f : A -> nat -> B) i l :
  (forall v k, Q v -> P (f v k)) -> Forall Q l -> Forall P (mapi f i l).
Proof.
  intros Hf H. revert i; induction H as [| v l Hv _ IH]; intro i; simpl;
    constructor; auto.
Qed.

(** C7 (amended).  In every state a session reaches, for a ready model and
    a frame on which the forward pass returns, [makePrediction] returns the
    entries built from the output of the forward pass, ranked: one entry
    per output unit of the head, with the class indices 0, 1, ... each
    once, each entry named after the class at its index or, where the class
    list has none with a name, ["Class <index + 1>"].  The head is one
    [createTransferModel] has built, so its last layer is a dense softmax
    layer; when the forward pass keeps the contract of such a layer
    ([softmax_contract]), every confidence lies between 0 and 100 and the
    confidences sum to 100 within 0.5.  There is one entry per class of the
    list exactly when the list is as long as the head has units, which is
    the case whenever the list has two classes or more and assembling the
    layers of a head has never thrown. *)
Theorem C7_one_entry_per_unit K ms imageElement h predictionData :
  softmax_contract K ->
  let s := page (moves ms initialSession) in
  let m := mlmodel (hook (world s)) in
  model m = Some h -> isReady m = true ->
  predict K h imageElement = Some predictionData ->
  exists predictions,
    makePrediction K m imageElement (classes s) = inr predictions /\
    Permutation predictions (mapi (entryFor (classes s)) 0 predictionData) /\
    StronglySorted ranked_before predictions /\
    List.length predictions = head_units h /\
    Permutation (map classIndex predictions) (seq 0 (head_units h)) /\
    Forall (fun p => className p = classNameAt (classes s) (classIndex p) /\
                     (0 <= confidence p <= 100)%Q) predictions /\
    (Qabs (Qsum (map confidence predictions) - 100) <= 1 # 2)%Q /\
    (List.length predictions = List.length (classes s) <->
     List.length (classes s) = head_units h) /\
    (Forall (fun mv => layers_throw (env_of mv) = false) ms ->
     2 <= List.length (classes s) ->
     List.length predictions = List.length (classes s)).
Proof.
  intros HK s m Hm Hr Hp.
  destruct (moves_heads ms initialSession initialSession_heads) as [Hb _].
  fold s in Hb. fold m in Hb. destruct (Hb h Hm) as (Hbuilt & Hunits & Hbase).
  assert (head_activation h = "softmax") as Hact
    by (rewrite Hbuilt; reflexivity).
  destruct (HK h (preprocessImage K imageElement) predictionData Hact)
    as (Hlen & Hrange & Hsum); [lia | exact Hp |].
  pose proof (makePrediction_ready K m h imageElement (classes s)
                predictionData Hm Hr Hp) as E.
  change (makePrediction K m imageElement (classes s)
          = inr (sort byConfidence
                   (mapi (entryFor (classes s)) 0 predictionData))) in E.
  pose proof (sort_perm byConfidence
                (mapi (entryFor (classes s)) 0 predictionData)) as P.
  exists (sort byConfidence (mapi (entryFor (classes s)) 0 predictionData)).
  assert (List.length (sort byConfidence
                         (mapi (entryFor (classes s)) 0 predictionData))
          = head_units h) as L.
  { rewrite (Permutation_length P), mapi_length. exact Hlen. }
  split; [exact E |]. split; [exact P |].
  split; [apply sort_mapi_ranked; reflexivity |].
  split; [exact L |].
  split; [| split; [| split; [| split]]].
  - rewrite (Permutation_map classIndex P), <- Hlen.
    rewrite (mapi_classIndex (entryFor (classes s)) 0 predictionData)
      by reflexivity.
    reflexivity.
  - apply (Permutation_Forall (Permutation_sym P)).
    apply (mapi_Forall _ (fun v => (0 <= v <= 1)%Q)); [| exact Hrange].
    intros v k Hv. unfold entryFor. cbn [className classIndex confidence].
    split; [reflexivity | lra].
  - rewrite (Qsum_perm _ _ P).
    rewrite (Qsum_scaled (entryFor (classes s)) 0 predictionData)
      by reflexivity.
    setoid_replace (100 * Qsum predictionData - 100)%Q
      with (100 * (Qsum predictionData - 1))%Q by ring.
    rewrite Qabs_Qmult.
    setoid_replace (1 # 2)%Q with (Qabs 100 * (1 # 200))%Q by reflexivity.
    apply Qmult_le_l; [reflexivity | exact Hsum].
  - rewrite L. split; intro H; congruence.
  - intros Hl H2.
    destruct (moves_fits ms initialSession Hl initialSession_fits)
      as (_ & _ & Fi & _).
    fold s in Fi. unfold head_fits in Fi.
    destruct (Fi (head_base h) Hbase H2) as (h' & Hh' & _ & Eu).
    fold m in Hh'. rewrite Hm in Hh'. inversion Hh'; subst h'.
    rewrite L. exact Eu.
Qed.

(** The trained session, and the reference forward pass. *)
Lemma C7_one_entry_per_unit_witness :
  let s := page (moves trainedMoves initialSession) in
  let m := mlmodel (hook (world s)) in
  let predictionData := normalise (map (fun i => natQ (S i)) (seq 0 2)) in
  exists predictions,
    makePrediction referenceKernels m frame2x1 (classes s) = inr predictions /\
    Permutation predictions (mapi (entryFor (classes s)) 0 predictionData) /\
    StronglySorted ranked_before predictions /\
    List.length predictions = head_units (demoHead 2) /\
    Permutation (map classIndex predictions) (seq 0 (head_units (demoHead 2))) /\
    Forall (fun p => className p = classNameAt (classes s) (classIndex p) /\
                     (0 <= confidence p <= 100)%Q) predictions /\
    (Qabs (Qsum (map confidence predictions) - 100) <= 1 # 2)%Q /\
    (List.length predictions = List.length (classes s) <->
     List.length (classes s) = head_units (demoHead 2)) /\
    (Forall (fun mv => layers_throw (env_of mv) = false) trainedMoves ->
     2 <= List.length (classes s) ->
     List.length predictions = List.length (classes s)).
Proof.
  apply (C7_one_entry_per_unit referenceKernels trainedMoves frame2x1
           (demoHead 2) (normalise (map (fun i => natQ (S i)) (seq 0 2)))).
  - apply reference_contract.
  - vm_compute. reflexivity.
  - vm_compute. reflexivity.
  - reflexivity.
Defined.

(** With the reference forward pass the second of two classes comes
    first. *)
Example reference_prediction :
  match makePrediction referenceKernels
          {| model := Some (demoHead 2); isReady := true;
             baseModel := Some demoBase |} frame2x1 [cats; dogs] with
  | inr predictions =>
      map className predictions = ["Dogs"; "Cats"] /\
      (Qsum (map confidence predictions) == 100)%Q
  | inl _ => False
  end.
Proof. split; reflexivity. Qed.

(** C7 as stated fails.  In the session [trainedSession] a head for two
    classes is trained; then the second class is removed.  One class is
    left, the model is still ready, and a prediction has two entries: the
    second is named ["Class 2"], a class the list does not know. *)
Lemma C7_counterexample :
  let s := step quiet (EvRemoveClass "class-2") trainedPage in
  let m := mlmodel (hook (world s)) in
  map name (classes s) = ["Class A"] /\
  isReady m = true /\
  exists predictions,
    makePrediction (kernelsOf [1 # 4; 3 # 4]) m frame2x1 (classes s)
      = inr predictions /\
    map className predictions = ["Class 2"; "Class A"] /\
    List.length predictions <> List.length (classes s).
Proof.
  intros s m.
  assert (classes s = [classOf "class-1" "Class A"
                         [sampleOf "a1"; sampleOf "a2"; sampleOf "a3"]])
    as Hc by (vm_compute; reflexivity).
  assert (m = {| model := Some (demoHead 2); isReady := true;
                 baseModel := Some demoBase |})
    as Hm by (vm_compute; reflexivity).
  rewrite Hc, Hm. clear Hc Hm s m.
  split; [reflexivity |]. split; [reflexivity |].
  eexists. split; [reflexivity |].
  split; [reflexivity | simpl; lia].
Qed.

(* ================================================================== *)
(** * The sample count of the progress records *)
(* ================================================================== *)

Lemma totalSamples_total classes : totalSamples classes = total_samples classes.
Proof.
  unfold totalSamples, total_samples.
  assert (forall n, fold_left (fun sum cls => sum + List.length (samples cls))
                              classes n
                    = n + List.length (flat_map samples classes)) as H.
  { induction classes as [| c l IH]; intro n; simpl; [lia |].
    rewrite IH, length_app. lia. }
  apply (H 0).
Qed.

(** The number of samples in every progress record of a run is the total
    the `update model stats' effect shows for the class list of the run; it
    is the same in all records, since it counts the images loaded for the
    run and not those processed so far. *)
Theorem samplesProcessed_is_the_total env m classes epochs w :
  2 <= List.length classes ->
  (forall cls, In cls classes -> samples cls <> []) ->
  images_load env classes ->
  (forall op, tf_throws env op = false) ->
  let r := run (startTraining env (Some m) classes epochs) w in
  exists records,
    progress_stream (snd r) = (progress_stream w ++ records)%list /\
    List.length records = List.length (reported (fit_trace env epochs)) /\
    Forall (fun rec => samplesProcessed rec = totalSamples classes) records.
Proof.
  intros H2 Hne Hload Htf r. subst r.
  rewrite startTraining_accepted by assumption. rewrite run_try_catch.
  unfold trainingRun.
  do 3 (rewrite run_bind; cbn [run setTrainingStatus setError
                               setTrainingHistory modify act fst snd]).
  set (w3 := with_hook _ (with_hook _ (with_hook _ w))).
  destruct (trainingSteps_to_fit env m classes epochs w3 Hload Htf)
    as (w5 & (F5h & F5s & _) & E).
  rewrite E. clear E.
  match goal with |- context [run (trainModel env m ?xs ?ys epochs ?cb) ?w8] =>
    pose proof (trainModel_run env m xs ys epochs (clock w5)
                  (total_samples classes) w8) as F;
    cbv zeta in F;
    destruct (run (trainModel env m xs ys epochs cb) w8) as [o w9]
  end.
  destruct F as (H1 & H3 & _).
  cbn [fst snd batched allocate progress_stream] in H1, H3.
  exists (map (progress_of epochs (clock w5) (total_samples classes))
              (reported (fit_trace env epochs))).
  assert (progress_stream w5 = progress_stream w) as Es
    by (rewrite F5s; reflexivity).
  split; [| split; [apply length_map |]].
  - destruct (fit_ok env); subst o; simpl; rewrite H3, Es; reflexivity.
  - apply Forall_forall. intros rec Hin. apply in_map_iff in Hin.
    destruct Hin as [ev [Er _]]. subst rec. cbn [samplesProcessed progress_of].
    symmetry. apply totalSamples_total.
Qed.

Lemma samplesProcessed_is_the_total_witness :
  let r := run (startTraining (envOf twoEpochs true) (Some (demoHead 2))
                  [cats; dogs] 2) builtWorld in
  exists records,
    progress_stream (snd r) = (progress_stream builtWorld ++ records)%list /\
    List.length records
    = List.length (reported (fit_trace (envOf twoEpochs true) 2)) /\
    Forall (fun rec => samplesProcessed rec = totalSamples [cats; dogs]) records.
Proof.
  apply (samplesProcessed_is_the_total (envOf twoEpochs true) (demoHead 2)
           [cats; dogs] 2 builtWorld).
  - simpl; lia.
  - intros cls [H | [H | []]]; subst cls; discriminate.
  - intros cls s _ _. simpl. discriminate.
  - intro op. reflexivity.
Defined.

(* ================================================================== *)
(** * The webcam *)
(* ================================================================== *)

Lemma stopWebcam_held s : held s -> tracksLive (stopWebcam s) = [].
Proof.
  intro H. unfold held in H. unfold stopWebcam. cbn [tracksLive].
  destruct (streamRef s) as [st |] eqn:E.
  - destruct (filter _ (tracksLive s)) as [| x l] eqn:F; [reflexivity |].
    assert (In x (filter (fun t => negb (t =? st)) (tracksLive s))) as Hin
      by (rewrite F; simpl; auto).
    apply filter_In in Hin. destruct Hin as [Hin Hx].
    specialize (H x Hin). inversion H; subst.
    rewrite Nat.eqb_refl in Hx. discriminate.
  - destruct (tracksLive s) as [| x l]; [reflexivity |].
    specialize (H x (or_introl eq_refl)). discriminate.
Qed.

Lemma startWebcam_held answer s :
  tracksLive s = [] -> held (startWebcam answer s).
Proof.
  intro H. unfold held, startWebcam, webcamFailed.
  destruct (wc_isSupported s); cbn [negb];
    [| intro st; cbn; rewrite H; intros []].
  destruct answer as [| | name message |].
  - intro st; cbn; rewrite H; intros [].
  - destruct (videoElement s) eqn:V; cbn; rewrite ?V, H; cbn;
      intros st [E | []]; subst; reflexivity.
  - destruct (String.eqb name "NotAllowedError");
      [| destruct (String.eqb name "NotFoundError");
         [| destruct (String.eqb name "NotReadableError")]];
      intro st; cbn; rewrite H; intros [].
  - intro st; cbn; rewrite H; intros [].
Qed.



(** Starting again while a stream is held replaces the reference: the
    tracks of the first stream keep running, and [stopWebcam] stops only
    the second. *)
Theorem second_start_leaves_a_stream_running s stream :
  wc_isSupported s = true ->
  streamRef s = Some stream ->
  In stream (tracksLive s) ->
  stream < next_stream s ->
  let s' := stopWebcam (startWebcam Granted s) in
  In stream (tracksLive s') /\ streamRef s' = None /\ wc_isActive s' = false.
Proof.
  intros Hs Hr Hin Hlt s'. subst s'. unfold startWebcam. rewrite Hs. cbn [negb].
  assert (In stream
            (filter (fun t => negb (t =? next_stream s))
                    (tracksLive s ++ [next_stream s]))) as H.
  { apply filter_In. split; [apply in_or_app; auto |].
    apply negb_true_iff, Nat.eqb_neq. lia. }
  destruct (videoElement s) eqn:V; cbn; rewrite ?V; cbn; auto.
Qed.

Lemma second_start_leaves_a_stream_running_witness :
  let s := startWebcam Granted mountedWebcam in
  let s' := stopWebcam (startWebcam Granted s) in
  In 0 (tracksLive s') /\ streamRef s' = None /\ wc_isActive s' = false.
Proof.
  apply (second_start_leaves_a_stream_running
           (startWebcam Granted mountedWebcam) 0).
  - reflexivity.
  - reflexivity.
  - simpl; auto.
  - simpl; lia.
Defined.

(** What [startWebcam] does when it gets no stream: it sets an error and
    touches nothing else; in a browser without camera support it does not
    even ask.  With a stream, the hook holds it and its tracks run from then
    on, also when there is no video element to show it, in which case an
    error is set besides.  So the error is clear afterwards exactly when a
    stream was granted, in a supporting browser, with the video element
    mounted.  In no case does [startWebcam] itself make the hook active. *)
Theorem startWebcam_outcomes answer s :
  let s' := startWebcam answer s in
  wc_isActive s' = wc_isActive s /\
  (wc_error s' = None <->
   wc_isSupported s = true /\ answer = Granted /\ videoElement s = true) /\
  match answer with
  | Granted =>
      if wc_isSupported s then
        streamRef s' = Some (next_stream s) /\
        tracksLive s' = (tracksLive s ++ [next_stream s])%list /\
        next_stream s' = S (next_stream s) /\
        (if videoElement s
         then srcObject s' = Some (next_stream s) /\ wc_error s' = None
         else srcObject s' = srcObject s /\ wc_error s' = Some wc_no_video)
      else s' = wc_setError (Some wc_unsupported) s
  | _ =>
      exists message,
        s' = wc_setError (Some message) s /\
        (wc_isSupported s = false -> message = wc_unsupported)
  end.
Proof.
  intro s'. subst s'. unfold startWebcam, webcamFailed.
  assert (forall (e : string) (P : Prop), ~ P -> (Some e = None <-> P)) as Ts
    by (intros e P N; split; [discriminate | intro H; contradiction]).
  destruct (wc_isSupported s) eqn:Hs; cbn [negb].
  - destruct answer as [| | name message |].
    + split; [reflexivity |].
      split; [apply Ts; intros (_ & E & _); discriminate |].
      eexists. split; [reflexivity | discriminate].
    + destruct (videoElement s) eqn:V; cbn; rewrite ?V; repeat split; auto;
        try discriminate.
      intros (_ & _ & E). discriminate.
    + destruct (String.eqb name "NotAllowedError");
        [| destruct (String.eqb name "NotFoundError");
           [| destruct (String.eqb name "NotReadableError")]];
        (split; [reflexivity |]);
        (split; [apply Ts; intros (_ & E & _); discriminate |]);
        eexists; (split; [reflexivity | discriminate]).
    + split; [reflexivity |].
      split; [apply Ts; intros (_ & E & _); discriminate |].
      eexists. split; [reflexivity | discriminate].
  - destruct answer; (split; [reflexivity |]);
      (split; [apply Ts; intros (E & _); discriminate |]);
      try reflexivity; exists wc_unsupported; split; auto.
Qed.
